(** * Click packet buffers and the TCP/UDP header checkers

    A shallow embedding of [include/click/packet.hh] (the user-space
    build: neither [__KERNEL__] nor [_KERNEL] is defined, so every
    [#else] branch is the one taken) and of the two elements
    [elements/tcpudp/checktcpheader.cc] and
    [elements/tcpudp/checkudpheader.cc].

    Packets are C++ objects reached through pointers, so the embedding
    keeps a store of packet objects indexed by address, the byte memory
    the buffers live in, and the observable effects of the code: the
    diagnostics printed with [click_chatter], the header bytes loaded
    from memory, and the packets handed to an output port. *)

From Stdlib Require Import ZArith Lia List.
From stdpp Require Import base option list gmap strings pretty.

Local Open Scope Z_scope.

(** ** Machine integers *)

(** [unsigned] is 32 bits wide, [int] is its signed counterpart and the
    element counters are [atomic_uint64_t]. *)
Definition two32 : Z := 2 ^ 32.
Definition two64 : Z := 2 ^ 64.

Definition to_unsigned (z : Z) : Z := z mod two32.

Definition to_int (z : Z) : Z := (z + 2 ^ 31) mod two32 - 2 ^ 31.

Definition to_uint64 (z : Z) : Z := z mod two64.

(** The values an [unsigned] argument can take. *)
Definition is_unsigned (z : Z) : Prop := 0 <= z < two32.

(** ** A state and error monad

    [None] stands for undefined behaviour: a member function called
    through a pointer that addresses no live object. *)
Definition M (S A : Type) : Type := S -> option (A * S).

Definition ret {S A : Type} (a : A) : M S A := fun s => Some (a, s).

Definition bind {S A B : Type} (c : M S A) (k : A -> M S B) : M S B :=
  fun s => match c s with
           | Some (a, s') => k a s'
           | None => None
           end.

Definition get {S : Type} : M S S := fun s => Some (s, s).

Definition modify {S : Type} (f : S -> S) : M S unit := fun s => Some (tt, f s).

Definition fault {S A : Type} : M S A := fun _ => None.

Notation "'let*' x ':=' c 'in' k" := (bind c (fun x => k))
  (at level 10, x name, c at level 100, k at level 200).
Notation "c '>>' k" := (bind c (fun _ => k))
  (at level 190, right associativity).

(** ** Pointers, packet objects and the world *)

(** Pointers to [Packet] and to [WritablePacket]: two pointer types over
    the same addresses.  Address [0] is the null pointer. *)
Inductive PacketPtr : Type := PacketAt (a : Z).
Inductive WritablePacketPtr : Type := WritablePacketAt (a : Z).

Definition address (p : PacketPtr) : Z := let 'PacketAt a := p in a.

(** The casts of [this] to a pointer to [WritablePacket]. *)
Definition static_cast_WritablePacket (p : PacketPtr) : WritablePacketPtr :=
  WritablePacketAt (address p).

(** The implicit derived-to-base conversion. *)
Definition as_Packet (q : WritablePacketPtr) : PacketPtr :=
  let 'WritablePacketAt a := q in PacketAt a.

Definition NULL : PacketPtr := PacketAt 0.

(** The data members of [Packet] that the embedded functions touch.  The
    annotation block [_cb], [_pkt_type], [_timestamp] and [_destructor]
    are not read or written by any of them and are left out. *)
Record Packet : Type := mkPacket {
  _use_count : Z;        (* int _use_count *)
  _data_packet : Z;      (* Packet *_data_packet *)
  _head : Z;             (* start of allocated buffer *)
  _data : Z;             (* where the packet starts *)
  _tail : Z;             (* one beyond end of packet *)
  _end : Z;              (* one beyond end of allocated buffer *)
  _nh_raw : Z;           (* _nh.raw *)
  _h_raw : Z             (* _h_raw *)
}.

(** An argument of a [click_chatter] call. *)
Inductive ChatterArg : Type :=
| ArgInt (z : Z)
| ArgStr (s : string)
| ArgElement.

Record Chatter : Type := mkChatter {
  chatter_format : string;
  chatter_args : list ChatterArg
}.

Record World : Type := mkWorld {
  objs : gmap Z Packet;           (* live packet objects, by address *)
  mem : Z -> Z;                   (* byte memory *)
  chatter : list Chatter;         (* click_chatter output, oldest first *)
  loads : list (Z * Z);           (* header memory read: address, size *)
  sent : list (Z * PacketPtr)     (* output(port).push(p), oldest first *)
}.

Definition with_objs (o : gmap Z Packet) (w : World) : World :=
  mkWorld o (mem w) (chatter w) (loads w) (sent w).

Definition with_chatter (c : list Chatter) (w : World) : World :=
  mkWorld (objs w) (mem w) c (loads w) (sent w).

Definition with_loads (l : list (Z * Z)) (w : World) : World :=
  mkWorld (objs w) (mem w) (chatter w) l (sent w).

Definition with_sent (s : list (Z * PacketPtr)) (w : World) : World :=
  mkWorld (objs w) (mem w) (chatter w) (loads w) s.

(** Reading and writing the object behind a pointer. *)
Definition deref (this : PacketPtr) : M World Packet :=
  fun w => match objs w !! address this with
           | Some p => Some (p, w)
           | None => None
           end.

Definition store (this : PacketPtr) (p : Packet) : M World unit :=
  modify (fun w => with_objs (<[address this := p]> (objs w)) w).

Definition click_chatter (fmt : string) (args : list ChatterArg) : M World unit :=
  modify (fun w => with_chatter (chatter w ++ [mkChatter fmt args]) w).

Definition set_use_count (p : Packet) (v : Z) : Packet :=
  mkPacket v (_data_packet p) (_head p) (_data p) (_tail p) (_end p)
           (_nh_raw p) (_h_raw p).

Definition set_data (p : Packet) (v : Z) : Packet :=
  mkPacket (_use_count p) (_data_packet p) (_head p) v (_tail p) (_end p)
           (_nh_raw p) (_h_raw p).

Definition set_tail (p : Packet) (v : Z) : Packet :=
  mkPacket (_use_count p) (_data_packet p) (_head p) (_data p) v (_end p)
           (_nh_raw p) (_h_raw p).

(** ** [class Packet] *)

Module Packet.

(** *** Accessors *)

Definition data (p : Packet) : Z := _data p.

Definition length (p : Packet) : Z := to_unsigned (_tail p - _data p).

Definition headroom (p : Packet) : Z := to_unsigned (_data p - _head p).

Definition tailroom (p : Packet) : Z := to_unsigned (_end p - _tail p).

Definition buffer_data (p : Packet) : Z := _head p.

Definition buffer_length (p : Packet) : Z := to_unsigned (_end p - _head p).

Definition use_count (p : Packet) : Z := _use_count p.

Definition network_header (p : Packet) : Z := _nh_raw p.

Definition ip_header (p : Packet) : Z := _nh_raw p.

Definition transport_header (p : Packet) : Z := _h_raw p.

(** [network_header() - data()], returned as an [int]. *)
Definition network_header_offset (p : Packet) : Z :=
  to_int (network_header p - data p).

Definition network_header_length (p : Packet) : Z :=
  to_unsigned (transport_header p - network_header p).

Definition ip_header_offset (p : Packet) : Z := network_header_offset p.

Definition ip_header_length (p : Packet) : Z := network_header_length p.

Definition transport_header_offset (p : Packet) : Z :=
  to_unsigned (transport_header p - data p).

(** [_data_packet || _use_count > 1] *)
Definition shared (p : Packet) : bool :=
  negb (_data_packet p =? 0) || (_use_count p >? 1).

(** *** Header annotations *)

Definition set_network_header (this : PacketPtr) (h len : Z) : M World unit :=
  let* p := deref this in
  store this (mkPacket (_use_count p) (_data_packet p) (_head p) (_data p)
                       (_tail p) (_end p) h (h + len)).

Definition set_ip_header (this : PacketPtr) (iph len : Z) : M World unit :=
  set_network_header this iph len.

(** *** Releasing a handle *)

(** [delete this].  The destructor is defined in [packet.cc]; here the
    object stops being live, and nothing else is recorded of what the
    destructor does with the buffer. *)
Definition delete (this : PacketPtr) : M World unit :=
  modify (fun w => with_objs (base.delete (address this) (objs w)) w).

(** [if (--_use_count <= 0) delete this;] *)
Definition kill (this : PacketPtr) : M World unit :=
  let* p := deref this in
  let c := _use_count p - 1 in
  store this (set_use_count p c) >>
  if c <=? 0 then delete this else ret tt.

(** *** Removing bytes: [pull] and [take] *)

Definition pull (this : PacketPtr) (nbytes : Z) : M World unit :=
  let* p := deref this in
  let* nbytes :=
    (if nbytes >? length p then
       click_chatter "Packet::pull %d > length %d\n"
                     [ArgInt nbytes; ArgInt (length p)] >>
       ret (length p)
     else ret nbytes) in
  store this (set_data p (_data p + nbytes)).

Definition take (this : PacketPtr) (nbytes : Z) : M World unit :=
  let* p := deref this in
  let* nbytes :=
    (if nbytes >? length p then
       click_chatter "Packet::take %d > length %d\n"
                     [ArgInt nbytes; ArgInt (length p)] >>
       ret (length p)
     else ret nbytes) in
  store this (set_tail p (_tail p - nbytes)).

(** [change_headroom_and_length] *)
Definition change_headroom_and_length (this : PacketPtr) (headroom length : Z)
  : M World unit :=
  let* p := deref this in
  if to_unsigned (headroom + length) <=? buffer_length p then
    let d := _head p + headroom in
    store this (set_tail (set_data p d) (d + length))
  else ret tt.

(** *** Copy on write, and adding bytes: [uniqueify], [push], [put]

    [expensive_uniqueify], [expensive_push] and [expensive_put] are
    declared in the class and defined in [packet.cc], outside this
    development; they are parameters of the section. *)
Section Expensive.

Variable expensive_uniqueify : PacketPtr -> M World WritablePacketPtr.
Variable expensive_push : PacketPtr -> Z -> M World WritablePacketPtr.
Variable expensive_put : PacketPtr -> Z -> M World WritablePacketPtr.

Definition uniqueify (this : PacketPtr) : M World WritablePacketPtr :=
  let* p := deref this in
  if negb (shared p) then ret (static_cast_WritablePacket this)
  else expensive_uniqueify this.

Definition push (this : PacketPtr) (nbytes : Z) : M World WritablePacketPtr :=
  let* p := deref this in
  if (headroom p >=? nbytes) && negb (shared p) then
    let q := static_cast_WritablePacket this in
    store (as_Packet q) (set_data p (_data p - nbytes)) >>
    ret q
  else expensive_push this nbytes.

Definition nonunique_push (this : PacketPtr) (nbytes : Z) : M World PacketPtr :=
  let* p := deref this in
  if headroom p >=? nbytes then
    store this (set_data p (_data p - nbytes)) >>
    ret this
  else
    let* q := expensive_push this nbytes in
    ret (as_Packet q).

Definition put (this : PacketPtr) (nbytes : Z) : M World WritablePacketPtr :=
  let* p := deref this in
  if (tailroom p >=? nbytes) && negb (shared p) then
    let q := static_cast_WritablePacket this in
    store (as_Packet q) (set_tail p (_tail p + nbytes)) >>
    ret q
  else expensive_put this nbytes.

Definition nonunique_put (this : PacketPtr) (nbytes : Z) : M World PacketPtr :=
  let* p := deref this in
  if tailroom p >=? nbytes then
    store this (set_tail p (_tail p + nbytes)) >>
    ret this
  else
    let* q := expensive_put this nbytes in
    ret (as_Packet q).

End Expensive.

End Packet.

(** The bytes of the packet, [data() .. data() + length()), as memory
    holds them. *)
Definition payload (p : Packet) (w : World) : list Z :=
  map (mem w) (seqZ (_data p) (Packet.length p)).

(** The buffer-region invariant of the data model. *)
Definition region_ok (p : Packet) : Prop :=
  _head p <= _data p /\ _data p <= _tail p /\ _tail p <= _end p.

(** Buffers are created from [unsigned] lengths, so the four accessors
    can represent every distance inside one. *)
Definition buffer_fits (p : Packet) : Prop := _end p - _head p < two32.

(** ** What the checkers use from outside these three files *)

(** Modelled from the spec: [Packet::has_network_header()], which this
    [packet.hh] does not declare.  The spec calls it the explicit "has
    network header" predicate and says that clearing the annotations
    resets the network-header pointer to "unset"; [clear_annotations]
    does that with [set_network_header(0, 0)], so the header is present
    when the pointer is not null. *)
Definition has_network_header (p : Packet) : bool := negb (_nh_raw p =? 0).

(** Modelled from the spec: [Packet::udp_header()] and
    [Packet::tcp_header()], which this [packet.hh] does not declare: the
    transport-header pointer, viewed as a UDP or TCP header. *)
Definition udp_header (p : Packet) : Z := Packet.transport_header p.
Definition tcp_header (p : Packet) : Z := Packet.transport_header p.

(** Modelled from the spec: the layouts of [click_ip], [click_udp] and
    [click_tcp] ([clicknet/ip.h], [udp.h], [tcp.h] are not among the
    sources): the IPv4, UDP and TCP headers "per the relevant standards",
    with the header length in 4-byte words. *)
Definition IP_PROTO_TCP : Z := 6.
Definition IP_PROTO_UDP : Z := 17.
Definition sizeof_click_ip : Z := 20.
Definition sizeof_click_udp : Z := 8.
Definition sizeof_click_tcp : Z := 20.
Definition offset_ip_hl : Z := 0.      (* low four bits of the first byte *)
Definition offset_ip_len : Z := 2.
Definition offset_ip_p : Z := 9.
Definition offset_uh_ulen : Z := 4.
Definition offset_uh_sum : Z := 6.
Definition offset_th_off : Z := 12.    (* high four bits of the byte *)

(** One byte, and one 16-bit field as a little-endian host loads it. *)
Definition peek8 (m : Z -> Z) (a : Z) : Z := Z.land (m a) 255.

Definition peek16 (m : Z -> Z) (a : Z) : Z :=
  Z.lor (peek8 m a) (Z.shiftl (peek8 m (a + 1)) 8).

Definition ntohs (x : Z) : Z :=
  Z.lor (Z.shiftl (Z.land x 255) 8) (Z.land (Z.shiftr x 8) 255).

(** The header fields the checkers look at, as pure views of memory. *)
Definition ip_p (m : Z -> Z) (iph : Z) : Z := peek8 m (iph + offset_ip_p).
Definition ip_hl (m : Z -> Z) (iph : Z) : Z :=
  Z.land (peek8 m (iph + offset_ip_hl)) 15.
Definition ip_len (m : Z -> Z) (iph : Z) : Z := peek16 m (iph + offset_ip_len).
Definition uh_ulen (m : Z -> Z) (udph : Z) : Z := peek16 m (udph + offset_uh_ulen).
Definition uh_sum (m : Z -> Z) (udph : Z) : Z := peek16 m (udph + offset_uh_sum).
Definition th_off (m : Z -> Z) (tcph : Z) : Z :=
  Z.shiftr (peek8 m (tcph + offset_th_off)) 4.

(** ** The state of a checker element

    [CheckTCPHeader] and [CheckUDPHeader] use the same data members: the
    ones their constructors, [configure], [drop] and [simple_action]
    assign and read.  [noutputs] is the number of output ports the router
    gave the element, which [noutputs()] returns. *)
Record Checker : Type := mkChecker {
  _count : Z;
  _drops : Z;
  _reason_drops : option (list Z);   (* null, or an array of NREASONS counters *)
  _verbose : bool;
  _checksum : bool;
  noutputs : Z
}.

Definition set_count (e : Checker) (v : Z) : Checker :=
  mkChecker v (_drops e) (_reason_drops e) (_verbose e) (_checksum e) (noutputs e).

Definition set_drops (e : Checker) (v : Z) : Checker :=
  mkChecker (_count e) v (_reason_drops e) (_verbose e) (_checksum e) (noutputs e).

Definition set_reason_drops (e : Checker) (v : option (list Z)) : Checker :=
  mkChecker (_count e) (_drops e) v (_verbose e) (_checksum e) (noutputs e).

(** The element together with the world it runs in. *)
Record Stage : Type := mkStage {
  elt : Checker;
  env : World
}.

Definition in_world {A : Type} (c : M World A) : M Stage A :=
  fun s => match c (env s) with
           | Some (a, w) => Some (a, mkStage (elt s) w)
           | None => None
           end.

Definition update_element (f : Checker -> Checker) : M Stage unit :=
  modify (fun s => mkStage (f (elt s)) (env s)).

(** Modelled from the spec: the width of [_count] and [_drops].  The
    class declarations ([checktcpheader.hh], [checkudpheader.hh]) are not
    among the sources; the spec asks for atomic, monotonically increasing
    counters, and [configure] allocates [_reason_drops] as an array of
    [atomic_uint64_t], so [x++] adds one to a 64-bit counter for all of
    them. *)
Definition increment (x : Z) : Z := to_uint64 (x + 1).

(** [output(port).push(p)] *)
Definition output_push (port : Z) (p : PacketPtr) : M World unit :=
  modify (fun w => with_sent (sent w ++ [(port, p)]) w).

(** Loading a field of the header at [base]: [view] gives its value from
    memory, and the access to the [size] bytes at [base + offset] is
    recorded. *)
Definition load {A : Type} (view : (Z -> Z) -> Z -> A) (base offset size : Z)
  : M World A :=
  fun w => Some (view (mem w) base,
                 with_loads (loads w ++ [(base + offset, size)]) w).

(** The last enumerator of [Reason], the number of reasons: both
    [reason_texts] tables are initialised with three strings. *)
Definition NREASONS : nat := 3.

(** [configure], after [Args] has parsed [VERBOSE], [DETAILS] and
    [CHECKSUM] (their defaults are [false], [false] and [true]). *)
Definition configure (verbose details checksum : bool) (e : Checker) : Checker :=
  mkChecker (_count e) (_drops e)
            (if details then Some (replicate NREASONS 0) else _reason_drops e)
            verbose checksum (noutputs e).

(** The constructor: [_reason_drops(0), _checksum(true)], then
    [_count = 0; _drops = 0].  [_verbose] is not initialised before
    [configure] runs, so its value is the caller's. *)
Definition constructor (verbose0 : bool) (nout : Z) : Checker :=
  mkChecker 0 0 None verbose0 true nout.

(** ** [CheckUDPHeader] *)

Module CheckUDPHeader.

Inductive Reason : Type := NOT_UDP | BAD_LENGTH | BAD_CHECKSUM.

Definition reason_index (r : Reason) : nat :=
  match r with NOT_UDP => 0 | BAD_LENGTH => 1 | BAD_CHECKSUM => 2 end%nat.

Definition reason_texts : list string :=
  ["not UDP"; "bad packet length"; "bad UDP checksum"]%string.

Definition reason_text (r : Reason) : string :=
  nth (reason_index r) reason_texts ""%string.

Definition drop (reason : Reason) (p : PacketPtr) : M Stage PacketPtr :=
  let* s := get in
  (if (_drops (elt s) =? 0) || _verbose (elt s) then
     in_world (click_chatter "UDP header check failed: %s"
                             [ArgStr (reason_text reason)])
   else ret tt) >>
  update_element (fun e => set_drops e (increment (_drops e))) >>
  (match _reason_drops (elt s) with
   | Some counters =>
       update_element (fun e =>
         set_reason_drops e
           (Some (alter increment (reason_index reason) counters)))
   | None => ret tt
   end) >>
  (if noutputs (elt s) =? 2 then in_world (output_push 1 p)
   else in_world (Packet.kill p)) >>
  ret NULL.

(** [click_in_cksum] and [click_in_cksum_pseudohdr] come from the
    library; they are parameters, given the memory they read. *)
Section Checksum.

Variable click_in_cksum : (Z -> Z) -> Z -> Z -> Z.
Variable click_in_cksum_pseudohdr : (Z -> Z) -> Z -> Z -> Z -> Z.

Definition simple_action (p : PacketPtr) : M Stage PacketPtr :=
  let* pk := in_world (deref p) in
  let iph := Packet.ip_header pk in
  let* other :=
    (if negb (has_network_header pk) then ret true
     else
       let* proto := in_world (load ip_p iph offset_ip_p 1) in
       ret (negb (proto =? IP_PROTO_UDP))) in
  if other : bool then drop NOT_UDP p
  else
    let udph := udp_header pk in
    let* hl := in_world (load ip_hl iph offset_ip_hl 1) in
    let iph_len := to_unsigned (Z.shiftl hl 2) in
    let* ulen := in_world (load uh_ulen udph offset_uh_ulen 2) in
    let len := ntohs ulen in
    let is_long :=
      Packet.length pk
      <? to_unsigned (len + iph_len + Packet.network_header_offset pk) in
    if len <? sizeof_click_udp then drop BAD_LENGTH p
    else
      let* sum := in_world (load uh_sum udph offset_uh_sum 2) in
      let* bad :=
        (if negb (sum =? 0) then
           let* s := get in
           if _checksum (elt s) then
             let* csum := in_world (load (fun m a => click_in_cksum m a len)
                                         udph 0 len) in
             let* r := in_world
                         (load (fun m a => click_in_cksum_pseudohdr m csum a len)
                               iph 0 sizeof_click_ip) in
             ret (negb (r =? 0))
           else ret false
         else ret false) in
      if bad : bool then drop BAD_CHECKSUM p
      else
        update_element (fun e => set_count e (increment (_count e))) >>
        ret p.

End Checksum.

End CheckUDPHeader.

(** ** [CheckTCPHeader] *)

Module CheckTCPHeader.

Inductive Reason : Type := NOT_TCP | BAD_LENGTH | BAD_CHECKSUM.

Definition reason_index (r : Reason) : nat :=
  match r with NOT_TCP => 0 | BAD_LENGTH => 1 | BAD_CHECKSUM => 2 end%nat.

Definition reason_texts : list string :=
  ["not TCP"; "bad packet length"; "bad TCP checksum"]%string.

Definition reason_text (r : Reason) : string :=
  nth (reason_index r) reason_texts ""%string.

Definition drop (reason : Reason) (p : PacketPtr) : M Stage PacketPtr :=
  let* s := get in
  (if (_drops (elt s) =? 0) || _verbose (elt s) then
     in_world (click_chatter "%p{element}: TCP header check failed: %s"
                             [ArgElement; ArgStr (reason_text reason)])
   else ret tt) >>
  update_element (fun e => set_drops e (increment (_drops e))) >>
  (match _reason_drops (elt s) with
   | Some counters =>
       update_element (fun e =>
         set_reason_drops e
           (Some (alter increment (reason_index reason) counters)))
   | None => ret tt
   end) >>
  (if noutputs (elt s) =? 2 then in_world (output_push 1 p)
   else in_world (Packet.kill p)) >>
  ret NULL.

Section Checksum.

Variable click_in_cksum : (Z -> Z) -> Z -> Z -> Z.
Variable click_in_cksum_pseudohdr : (Z -> Z) -> Z -> Z -> Z -> Z.

Definition simple_action (p : PacketPtr) : M Stage PacketPtr :=
  let* pk := in_world (deref p) in
  let iph := Packet.ip_header pk in
  let* other :=
    (if negb (has_network_header pk) then ret true
     else
       let* proto := in_world (load ip_p iph offset_ip_p 1) in
       ret (negb (proto =? IP_PROTO_TCP))) in
  if other : bool then drop NOT_TCP p
  else
    let tcph := tcp_header pk in
    let* hl := in_world (load ip_hl iph offset_ip_hl 1) in
    let iph_len := to_unsigned (Z.shiftl hl 2) in
    let* total := in_world (load ip_len iph offset_ip_len 2) in
    let len := to_unsigned (ntohs total - iph_len) in
    let* off := in_world (load th_off tcph offset_th_off 1) in
    let tcph_len := to_unsigned (Z.shiftl off 2) in
    let is_long :=
      Packet.length pk
      <? to_unsigned (len + iph_len + Packet.network_header_offset pk) in
    if (tcph_len <? sizeof_click_tcp) || (len <? tcph_len) then
      drop BAD_LENGTH p
    else
      let* s := get in
      let* bad :=
        (if _checksum (elt s) then
           let* csum := in_world (load (fun m a => click_in_cksum m a len)
                                       tcph 0 len) in
           let* r := in_world
                       (load (fun m a => click_in_cksum_pseudohdr m csum a len)
                             iph 0 sizeof_click_ip) in
           ret (negb (r =? 0))
         else ret false) in
      if bad : bool then drop BAD_CHECKSUM p
      else
        update_element (fun e => set_count e (increment (_count e))) >>
        ret p.

End Checksum.

End CheckTCPHeader.

(** ** The world after an update in place *)

(** The object at [this] overwritten with [p']; nothing else moves. *)
Definition in_place (this : PacketPtr) (p' : Packet) (w : World) : World :=
  with_objs (<[address this := p']> (objs w)) w.

(** The equation between the four accessors, with the sum taken the way
    C adds three [unsigned] values. *)
Definition accounted (p : Packet) : Prop :=
  to_unsigned (Packet.headroom p + Packet.length p + Packet.tailroom p)
  = Packet.buffer_length p.

(** ** Instances for running the code on concrete packets *)

(** Modelled from the spec: the expensive paths when "the platform
    allocator cannot satisfy the request": no packet comes back.
    ([expensive_uniqueify], [expensive_push] and [expensive_put] are
    defined in [packet.cc], which is not among the sources.) *)
Definition oom_uniqueify : PacketPtr -> M World WritablePacketPtr :=
  fun _ => fault.
Definition oom_resize : PacketPtr -> Z -> M World WritablePacketPtr :=
  fun _ _ => fault.

(** Modelled from the spec: [click_in_cksum] and
    [click_in_cksum_pseudohdr] (library code, not among the sources) as
    "the one's-complement internet checksum over the transport segment
    plus the IP pseudo-header (source/dest address, protocol, length)". *)
Fixpoint sum_words (m : Z -> Z) (a : Z) (n : nat) : Z :=
  match n with
  | O => 0
  | S k => peek8 m a * 256 + peek8 m (a + 1) + sum_words m (a + 2) k
  end.

Definition fold_carries (x : Z) : Z :=
  let y := Z.land x 65535 + Z.shiftr x 16 in
  Z.land (y + Z.shiftr y 16) 65535.

Definition ones_complement (x : Z) : Z := Z.lxor x 65535.

Definition spec_in_cksum (m : Z -> Z) (a len : Z) : Z :=
  let odd_byte := if Z.odd len then peek8 m (a + len - 1) * 256 else 0 in
  ones_complement (fold_carries (sum_words m a (Z.to_nat (len / 2)) + odd_byte)).

Definition spec_in_cksum_pseudohdr (m : Z -> Z) (csum iph len : Z) : Z :=
  ones_complement
    (fold_carries (ones_complement csum + sum_words m (iph + 12) 4
                   + peek8 m (iph + offset_ip_p) + len)).

(** Memory holding [bytes] from address [base] on, and zero elsewhere. *)
Definition mem_at (base : Z) (bytes : list Z) : Z -> Z :=
  fun a => if a <? base then 0 else nth (Z.to_nat (a - base)) bytes 0.

Definition world_of (a : Z) (p : Packet) (m : Z -> Z) : World :=
  mkWorld {[ a := p ]} m [] [] [].

(** ** Vocabulary of the statements *)

(** The diagnostics of [pull] and [take]. *)
Definition pull_diagnostic (n len : Z) : Chatter :=
  mkChatter "Packet::pull %d > length %d\n" [ArgInt n; ArgInt len].

Definition take_diagnostic (n len : Z) : Chatter :=
  mkChatter "Packet::take %d > length %d\n" [ArgInt n; ArgInt len].

(** The equation between the accessors over the integers. *)
Definition accounted_exact (p : Packet) : Prop :=
  Packet.headroom p + Packet.length p + Packet.tailroom p
  = Packet.buffer_length p.

(** A member call on the object [p] at [this] returned, left an object at
    [this] that satisfies the region invariant and the accessor equation,
    and did not move the bounds of the allocation. *)
Definition keeps_region {A : Type} (this : PacketPtr) (p : Packet)
  (r : option (A * World)) : Prop :=
  exists (a : A) (w' : World) (p' : Packet),
    r = Some (a, w')
    /\ objs w' !! address this = Some p'
    /\ region_ok p'
    /\ accounted p'
    /\ (buffer_fits p -> accounted_exact p')
    /\ _head p' = _head p /\ _end p' = _end p.

(** What [pull(n)] and [take(n)] do on the object [p] at [this] when [n]
    is beyond the length: both return, print their diagnostic, and leave
    the packet empty, [pull] at its old tail and [take] at its old data. *)
Definition clamped (this : PacketPtr) (n : Z) (w : World) (p : Packet) : Prop :=
  exists (w1 w2 : World) (p1 p2 : Packet),
    Packet.pull this n w = Some (tt, w1)
    /\ chatter w1 = chatter w ++ [pull_diagnostic n (Packet.length p)]
    /\ objs w1 !! address this = Some p1
    /\ _data p1 = _tail p1 /\ _tail p1 = _tail p /\ Packet.length p1 = 0
    /\ Packet.take this n w = Some (tt, w2)
    /\ chatter w2 = chatter w ++ [take_diagnostic n (Packet.length p)]
    /\ objs w2 !! address this = Some p2
    /\ _tail p2 = _data p2 /\ _data p2 = _data p /\ Packet.length p2 = 0.

(** What they do when [n] is within the length: both return and print
    nothing; [pull] advances [data] by [n] and the packet keeps the bytes
    after its first [n]; [take] retreats [tail] by [n] and the packet
    keeps the bytes before its last [n]. *)
Definition removed (this : PacketPtr) (n : Z) (w : World) (p : Packet) : Prop :=
  exists (w1 w2 : World) (p1 p2 : Packet),
    Packet.pull this n w = Some (tt, w1)
    /\ chatter w1 = chatter w
    /\ objs w1 !! address this = Some p1
    /\ _data p1 = _data p + n /\ _tail p1 = _tail p
    /\ Packet.length p1 = Packet.length p - n
    /\ payload p1 w1 = drop (Z.to_nat n) (payload p w)
    /\ Packet.take this n w = Some (tt, w2)
    /\ chatter w2 = chatter w
    /\ objs w2 !! address this = Some p2
    /\ _tail p2 = _tail p - n /\ _data p2 = _data p
    /\ Packet.length p2 = Packet.length p - n
    /\ payload p2 w2 = take (Z.to_nat (Packet.length p - n)) (payload p w).

(** A call on the object [p] at [this] handed back the handle [q] in the
    world [w']: [q] is [this] itself, the object at [this] now is [p'],
    every other object is as it was, no object was created or released,
    no byte of memory changed and nothing was printed. *)
Definition same_handle_updated (this : PacketPtr) (p' : Packet) (w : World)
  (q : PacketPtr) (w' : World) : Prop :=
  q = this
  /\ w' = in_place this p' w
  /\ objs w' !! address this = Some p'
  /\ (forall a : Z, a <> address this -> objs w' !! a = objs w !! a)
  /\ dom (objs w') = dom (objs w)
  /\ mem w' = mem w
  /\ chatter w' = chatter w.

(** A sequence of calls starting from the object [p] at [this] in [w]
    returned, and left the very same object at [this], with the bytes of
    the packet as they were. *)
Definition round_trip (this : PacketPtr) (p : Packet) (w : World)
  (r : option (unit * World)) : Prop :=
  exists w' : World,
    r = Some (tt, w')
    /\ objs w' !! address this = Some p
    /\ payload p w' = payload p w
    /\ chatter w' = chatter w.

(** The caller of [push] or [put] fills the new space through the
    writable handle: [poke] stores bytes in memory. *)
Definition poke (writes : list (Z * Z)) : M World unit :=
  modify (fun w =>
    mkWorld (objs w)
            (fold_left (fun m '(a, v) => fun x => if x =? a then v else m x)
                       writes (mem w))
            (chatter w) (loads w) (sent w)).

(** Every write of [writes] lands in [lo, hi). *)
Definition writes_within (lo hi : Z) (writes : list (Z * Z)) : Prop :=
  Forall (fun '(a, _) => lo <= a < hi) writes.

(** A packet of 29 bytes with 28 bytes of headroom and 71 of tailroom,
    alone at address 1000; and the same packet with a second user. *)
Definition sample_packet : Packet :=
  mkPacket 1 0 4096 4124 4153 4224 4124 4144.
Definition sample_shared_packet : Packet :=
  mkPacket 2 0 4096 4124 4153 4224 4124 4144.
Definition sample_world : World :=
  world_of 1000 sample_packet (mem_at 4124 []).
Definition sample_shared_world : World :=
  world_of 1000 sample_shared_packet (mem_at 4124 []).

(** ** Vocabulary of the statements about the checkers *)

(** The diagnostics of the two [drop] functions. *)
Definition udp_diagnostic (r : CheckUDPHeader.Reason) : Chatter :=
  mkChatter "UDP header check failed: %s" [ArgStr (CheckUDPHeader.reason_text r)].

Definition tcp_diagnostic (r : CheckTCPHeader.Reason) : Chatter :=
  mkChatter "%p{element}: TCP header check failed: %s"
            [ArgElement; ArgStr (CheckTCPHeader.reason_text r)].

(** The element after one drop for the reason of index [idx]. *)
Definition dropped_element (idx : nat) (e : Checker) : Checker :=
  mkChecker (_count e) (increment (_drops e))
            (alter increment idx <$> _reason_drops e)
            (_verbose e) (_checksum e) (noutputs e).

(** The world after the diagnostic [msg] of a drop, which is printed for
    the first drop and, when [VERBOSE] is set, for every drop. *)
Definition logged (msg : Chatter) (e : Checker) (w : World) : World :=
  if (_drops e =? 0) || _verbose e
  then with_chatter (chatter w ++ [msg]) w
  else w.

(** What a call of [drop] for the reason of index [idx], with diagnostic
    [msg], did to the packet [p] in the state [s], given its result [r]:
    it returned a null pointer; the drop counter went up by one (as a
    64-bit counter) and the count of accepted packets stayed; the
    per-reason counters, when they exist, went up by one at [idx] and
    nowhere else, and when they do not exist none was created; the
    diagnostic was printed exactly when this was the first drop or
    [VERBOSE] is set; no header byte was read; and the packet went to
    output 1 when the element has two outputs, and was killed otherwise:
    no other object changed, the packet object is gone when the element
    held its last reference ([_use_count <= 1]), and else it is still
    there with [_use_count] one lower and every other member as it was. *)
Definition drop_contract (msg : Chatter) (idx : nat) (p : PacketPtr)
  (s : Stage) (r : option (PacketPtr * Stage)) : Prop :=
  exists s' : Stage,
    r = Some (NULL, s')
    /\ _drops (elt s') = increment (_drops (elt s))
    /\ (0 <= _drops (elt s) < two64 - 1 -> _drops (elt s') = _drops (elt s) + 1)
    /\ _count (elt s') = _count (elt s)
    /\ match _reason_drops (elt s) with
       | None => _reason_drops (elt s') = None
       | Some c =>
           exists c' : list Z,
             _reason_drops (elt s') = Some c'
             /\ forall i : nat,
                  c' !! i = if decide (i = idx) then increment <$> c !! i
                            else c !! i
       end
    /\ chatter (env s')
       = chatter (env s)
         ++ (if (_drops (elt s) =? 0) || _verbose (elt s) then [msg] else [])
    /\ loads (env s') = loads (env s)
    /\ mem (env s') = mem (env s)
    /\ if noutputs (elt s) =? 2
       then sent (env s') = sent (env s) ++ [(1, p)]
            /\ objs (env s') = objs (env s)
       else sent (env s') = sent (env s)
            /\ (exists wk : World,
                  Packet.kill p (env s) = Some (tt, wk)
                  /\ objs (env s') = objs wk)
            /\ exists pk : Packet,
                 objs (env s) !! address p = Some pk
                 /\ (forall a : Z, a <> address p ->
                       objs (env s') !! a = objs (env s) !! a)
                 /\ (_use_count pk <= 1 -> objs (env s') !! address p = None)
                 /\ (1 < _use_count pk ->
                     exists pk' : Packet,
                       objs (env s') !! address p = Some pk'
                       /\ _use_count pk' = _use_count pk - 1
                       /\ _data_packet pk' = _data_packet pk
                       /\ _head pk' = _head pk /\ _data pk' = _data pk
                       /\ _tail pk' = _tail pk /\ _end pk' = _end pk
                       /\ _nh_raw pk' = _nh_raw pk /\ _h_raw pk' = _h_raw pk).

(** The state [s] after the header loads [more], and nothing else. *)
Definition after_loads (more : list (Z * Z)) (s : Stage) : Stage :=
  mkStage (elt s) (with_loads (loads (env s) ++ more) (env s)).

(** The state after the packet was accepted: the count went up by one. *)
Definition accepted (s : Stage) : Stage :=
  mkStage (set_count (elt s) (increment (_count (elt s)))) (env s).

(** The length a UDP packet claims, and the length a TCP packet claims,
    as [simple_action] computes them. *)
Definition udp_claimed_length (w : World) (pk : Packet) : Z :=
  ntohs (uh_ulen (mem w) (udp_header pk)).

Definition ip_header_bytes (w : World) (pk : Packet) : Z :=
  to_unsigned (Z.shiftl (ip_hl (mem w) (Packet.ip_header pk)) 2).

Definition tcp_claimed_length (w : World) (pk : Packet) : Z :=
  to_unsigned (ntohs (ip_len (mem w) (Packet.ip_header pk)) - ip_header_bytes w pk).

Definition tcp_header_bytes (w : World) (pk : Packet) : Z :=
  to_unsigned (Z.shiftl (th_off (mem w) (tcp_header pk)) 2).

(** The claimed length reaches beyond the bytes the packet holds: the
    comparison both checkers compute into [is_long]. *)
Definition udp_is_long (w : World) (pk : Packet) : bool :=
  Packet.length pk
  <? to_unsigned (udp_claimed_length w pk + ip_header_bytes w pk
                  + Packet.network_header_offset pk).

Definition tcp_is_long (w : World) (pk : Packet) : bool :=
  Packet.length pk
  <? to_unsigned (tcp_claimed_length w pk + ip_header_bytes w pk
                  + Packet.network_header_offset pk).

(** The loads of the two checkers, in program order. *)
Definition udp_protocol_load (pk : Packet) : list (Z * Z) :=
  [(Packet.ip_header pk + offset_ip_p, 1)].

Definition udp_length_loads (pk : Packet) : list (Z * Z) :=
  [(Packet.ip_header pk + offset_ip_p, 1);
   (Packet.ip_header pk + offset_ip_hl, 1);
   (udp_header pk + offset_uh_ulen, 2)].

Definition udp_header_loads (pk : Packet) : list (Z * Z) :=
  udp_length_loads pk ++ [(udp_header pk + offset_uh_sum, 2)].

Definition udp_checksum_loads (w : World) (pk : Packet) : list (Z * Z) :=
  udp_header_loads pk
  ++ [(udp_header pk + 0, udp_claimed_length w pk);
      (Packet.ip_header pk + 0, sizeof_click_ip)].

Definition tcp_protocol_load (pk : Packet) : list (Z * Z) :=
  [(Packet.ip_header pk + offset_ip_p, 1)].

Definition tcp_header_loads (pk : Packet) : list (Z * Z) :=
  [(Packet.ip_header pk + offset_ip_p, 1);
   (Packet.ip_header pk + offset_ip_hl, 1);
   (Packet.ip_header pk + offset_ip_len, 2);
   (tcp_header pk + offset_th_off, 1)].

Definition tcp_checksum_loads (w : World) (pk : Packet) : list (Z * Z) :=
  tcp_header_loads pk
  ++ [(tcp_header pk + 0, tcp_claimed_length w pk);
      (Packet.ip_header pk + 0, sizeof_click_ip)].

(** What [simple_action] did when its result [r] forwards the packet [p]
    from the state [s]: it returned [p] itself; the count of accepted
    packets went up by one (as a 64-bit counter); no drop was counted;
    nothing was printed, sent to an output or released; and the header
    loads were exactly [more]. *)
Definition forwarded (more : list (Z * Z)) (p : PacketPtr) (s : Stage)
  (r : option (PacketPtr * Stage)) : Prop :=
  exists s' : Stage,
    r = Some (p, s')
    /\ _count (elt s') = increment (_count (elt s))
    /\ _drops (elt s') = _drops (elt s)
    /\ _reason_drops (elt s') = _reason_drops (elt s)
    /\ objs (env s') = objs (env s)
    /\ mem (env s') = mem (env s)
    /\ chatter (env s') = chatter (env s)
    /\ sent (env s') = sent (env s)
    /\ loads (env s') = loads (env s) ++ more.

(** A UDP datagram of one byte, with the checksum field [s1 s2], in a
    packet of 29 bytes; and a short capture of a datagram that claims
    1000 bytes.  The IP header says 10.0.0.1 to 10.0.0.2. *)
Definition ip_header_bytes_of (proto total : Z) : list Z :=
  [69; 0; total / 256; total mod 256; 0; 0; 0; 0; 64; proto; 0; 0;
   10; 0; 0; 1; 10; 0; 0; 2].

Definition udp_datagram (s1 s2 : Z) : list Z :=
  ip_header_bytes_of 17 29 ++ [4; 210; 0; 53; 0; 9; s1; s2; 65].

Definition udp_long_datagram : list Z :=
  ip_header_bytes_of 17 1020 ++ [4; 210; 0; 53; 3; 232; 0; 0; 65].

(** A TCP segment whose IP header claims 1000 bytes, captured in a packet
    of 40 bytes: 20 of IP header and 20 of TCP header. *)
Definition tcp_long_segment : list Z :=
  ip_header_bytes_of 6 1000
  ++ [4; 210; 0; 80; 0; 0; 0; 1; 0; 0; 0; 0; 80; 16; 16; 0; 0; 0; 0; 0].

Definition udp_world (bytes : list Z) : World :=
  world_of 1000 sample_packet (mem_at 4124 bytes).

Definition tcp_packet : Packet :=
  mkPacket 1 0 4096 4124 4164 4224 4124 4144.

Definition tcp_world (bytes : list Z) : World :=
  world_of 1000 tcp_packet (mem_at 4124 bytes).

(** A freshly constructed element with [nout] outputs, configured with
    the given options. *)
Definition element_with (verbose details checksum : bool) (nout : Z) : Checker :=
  configure verbose details checksum (constructor false nout).

(** A packet on which no network header was set. *)
Definition bare_packet : Packet := mkPacket 1 0 4096 4124 4153 4224 0 0.

Definition bare_stage : Stage :=
  mkStage (element_with false true true 1)
          (world_of 1000 bare_packet (mem_at 4124 (udp_datagram 0 0))).

Definition udp_stage (checksum : bool) (bytes : list Z) : Stage :=
  mkStage (element_with false true checksum 1) (udp_world bytes).

Definition tcp_stage (checksum : bool) (bytes : list Z) : Stage :=
  mkStage (element_with false true checksum 1) (tcp_world bytes).

(** A TCP segment of 20 bytes (a bare header) in an IP packet of 40,
    with the byte [off] holding the data offset and the checksum field
    [c1 c2]. *)
Definition tcp_segment (off c1 c2 : Z) : list Z :=
  ip_header_bytes_of 6 40
  ++ [4; 210; 0; 80; 0; 0; 0; 1; 0; 0; 0; 0; off; 16; 16; 0; c1; c2; 0; 0].

(** What the handlers [count], [drops] and [drop_details] would show
    after a run, next to the pointer the run returned and the packets
    pushed to an output. *)
Definition outcome (r : option (PacketPtr * Stage))
  : option (PacketPtr * Z * Z * option (list Z) * list (Z * PacketPtr)) :=
  match r with
  | Some (q, s) =>
      Some (q, _count (elt s), _drops (elt s), _reason_drops (elt s),
            sent (env s))
  | None => None
  end.

(** ** More of [class Packet] *)

(** [set_ip6_header(ip6h, len)] and [set_ip6_header(ip6h)]: the second
    passes the fixed IPv6 header length. *)
Definition set_ip6_header_len (this : PacketPtr) (ip6h len : Z) : M World unit :=
  Packet.set_network_header this ip6h len.

Definition set_ip6_header (this : PacketPtr) (ip6h : Z) : M World unit :=
  set_ip6_header_len this ip6h 40.

Definition ip6_header_offset (p : Packet) : Z := Packet.network_header_offset p.

Definition ip6_header_length (p : Packet) : Z := Packet.network_header_length p.

(** [n] holders of the packet calling [kill()] one after the other. *)
Fixpoint kills (n : nat) (this : PacketPtr) : M World unit :=
  match n with
  | O => ret tt
  | S k => Packet.kill this >> kills k this
  end.

(** A result seen through the plain packet pointer type. *)
Definition as_plain (r : option (WritablePacketPtr * World))
  : option (PacketPtr * World) :=
  match r with
  | Some (q, w) => Some (as_Packet q, w)
  | None => None
  end.

(** The region of [p] with [data] at [d] and [tail] at [t]. *)
Definition with_region (p : Packet) (d t : Z) : Packet := set_tail (set_data p d) t.

(** ** The annotations of [class Packet]

    The data members the buffer operations leave alone: the annotation
    block [_cb], the packet type and the timestamp.  They are kept in a
    record of their own, stored by the address of the packet object, so
    that the object is the pair of its [Packet] and its [Annotations]. *)

Inductive PacketType : Type :=
| HOST | BROADCAST | MULTICAST | OTHERHOST | OUTGOING | LOOPBACK | FASTROUTE.

Record Annotations : Type := mkAnnotations {
  _cb : list Z;              (* unsigned char _cb[48] *)
  _pkt_type : PacketType;    (* PacketType _pkt_type *)
  _timestamp : Z * Z         (* struct timeval _timestamp: tv_sec, tv_usec *)
}.

Definition set_cb (a : Annotations) (cb : list Z) : Annotations :=
  mkAnnotations cb (_pkt_type a) (_timestamp a).

(** Bytes [k .. k + n) of a block, and a block with the bytes [bs]
    stored from [k] on. *)
Definition read_bytes (k n : nat) (l : list Z) : list Z := take n (drop k l).

Definition write_bytes (k : nat) (bs l : list Z) : list Z :=
  take k l ++ bs ++ drop (k + length bs) l.

(** An integer as [n] bytes, least significant first, and back: the
    representation of [unsigned] and [int] on the little-endian hosts
    that [ntohs] above assumes. *)
Fixpoint le_bytes (n : nat) (v : Z) : list Z :=
  match n with
  | O => []
  | S m => v mod 256 :: le_bytes m (v / 256)
  end.

Fixpoint le_value (bs : list Z) : Z :=
  match bs with
  | [] => 0
  | b :: rest => b + 256 * le_value rest
  end.

Module Annotation.

(** [struct Anno], which [anno()] lays over [_cb]: the union [dst_ip]
    (an [unsigned] over sixteen bytes) at offset 0 and the union
    [user_flags] (twelve bytes, three [unsigned], three [int]) at offset
    16; without [perfctr] in a user-space build, [sizeof(Anno)] is 28. *)
Definition USER_ANNO_SIZE : Z := 12.
Definition USER_ANNO_U_SIZE : Z := 3.
Definition USER_ANNO_I_SIZE : Z := 3.
Definition offset_dst_ip : nat := 0.
Definition offset_user_flags : nat := 16.
Definition sizeof_Anno : nat := 28.
Definition sizeof_cb : nat := 48.

(** An index into an array of [size] elements; outside it the access is
    undefined, which [None] stands for. *)
Definition index_in (i size : Z) : bool := (0 <=? i) && (i <? size).

Definition user_anno_c (i : Z) (a : Annotations) : option Z :=
  if index_in i USER_ANNO_SIZE
  then _cb a !! (offset_user_flags + Z.to_nat i)%nat
  else None.

Definition set_user_anno_c (i v : Z) (a : Annotations) : option Annotations :=
  if index_in i USER_ANNO_SIZE
  then Some (set_cb a (write_bytes (offset_user_flags + Z.to_nat i)
                                   (le_bytes 1 v) (_cb a)))
  else None.

Definition user_anno_u (i : Z) (a : Annotations) : option Z :=
  if index_in i USER_ANNO_U_SIZE
  then Some (le_value (read_bytes (offset_user_flags + 4 * Z.to_nat i) 4 (_cb a)))
  else None.

Definition set_user_anno_u (i v : Z) (a : Annotations) : option Annotations :=
  if index_in i USER_ANNO_U_SIZE
  then Some (set_cb a (write_bytes (offset_user_flags + 4 * Z.to_nat i)
                                   (le_bytes 4 v) (_cb a)))
  else None.

Definition user_anno_i (i : Z) (a : Annotations) : option Z :=
  if index_in i USER_ANNO_I_SIZE
  then Some (to_int (le_value (read_bytes (offset_user_flags + 4 * Z.to_nat i)
                                          4 (_cb a))))
  else None.

Definition set_user_anno_i (i v : Z) (a : Annotations) : option Annotations :=
  if index_in i USER_ANNO_I_SIZE
  then Some (set_cb a (write_bytes (offset_user_flags + 4 * Z.to_nat i)
                                   (le_bytes 4 v) (_cb a)))
  else None.

(** Modelled from the spec: [IPAddress] and [IP6Address]
    ([click/ipaddress.hh] and [ip6address.hh] are outside these files):
    "the destination-address annotation (IPv4 or IPv6 form)", an
    [IPAddress] being the 32-bit value that [addr()] returns and an
    [IP6Address] its sixteen bytes. *)
Definition dst_ip_anno (a : Annotations) : Z :=
  le_value (read_bytes offset_dst_ip 4 (_cb a)).

Definition set_dst_ip_anno (addr : Z) (a : Annotations) : Annotations :=
  set_cb a (write_bytes offset_dst_ip (le_bytes 4 addr) (_cb a)).

Definition dst_ip6_anno (a : Annotations) : list Z :=
  read_bytes offset_dst_ip 16 (_cb a).

(** [memcpy(anno()->dst_ip.dst_ip6, &a, 16)] *)
Definition set_dst_ip6_anno (addr : list Z) (a : Annotations) : Annotations :=
  set_cb a (write_bytes offset_dst_ip (take 16 addr) (_cb a)).

Definition timestamp_anno (a : Annotations) : Z * Z := _timestamp a.

Definition set_timestamp_anno (tv : Z * Z) (a : Annotations) : Annotations :=
  mkAnnotations (_cb a) (_pkt_type a) tv.

Definition set_timestamp_anno_s_us (s us : Z) (a : Annotations) : Annotations :=
  mkAnnotations (_cb a) (_pkt_type a) (s, us).

Definition packet_type_anno (a : Annotations) : PacketType := _pkt_type a.

Definition set_packet_type_anno (t : PacketType) (a : Annotations) : Annotations :=
  mkAnnotations (_cb a) t (_timestamp a).

(** In a user-space build there is no device: [device_anno()] is 0 and
    [set_device_anno] does nothing. *)
Definition device_anno (a : Annotations) : Z := 0.

Definition set_device_anno (dev : Z) (a : Annotations) : Annotations := a.

End Annotation.

(** Packet objects with their annotations. *)
Record Heap : Type := mkHeap {
  world : World;
  annos : gmap Z Annotations
}.

Definition in_packets {A : Type} (c : M World A) : M Heap A :=
  fun hp => match c (world hp) with
            | Some (a, w) => Some (a, mkHeap w (annos hp))
            | None => None
            end.

Definition anno (this : PacketPtr) : M Heap Annotations :=
  fun hp => match annos hp !! address this with
            | Some a => Some (a, hp)
            | None => None
            end.

Definition set_anno (this : PacketPtr) (a : Annotations) : M Heap unit :=
  modify (fun hp => mkHeap (world hp) (<[address this := a]> (annos hp))).

(** [clear_annotations]: [memset(anno(), 0, sizeof(Anno))], then the
    packet type, the device, the timestamp and the network header. *)
Definition clear_annotations (this : PacketPtr) : M Heap unit :=
  let* a := anno this in
  let a1 := set_cb a (write_bytes 0 (replicate Annotation.sizeof_Anno 0) (_cb a)) in
  let a2 := Annotation.set_packet_type_anno HOST a1 in
  let a3 := Annotation.set_device_anno 0 a2 in
  let a4 := Annotation.set_timestamp_anno_s_us 0 0 a3 in
  set_anno this a4 >>
  in_packets (Packet.set_network_header this 0 0).

(** [copy_annotations(p)]: [*anno() = *p->anno()], then the packet type,
    the device and the timestamp of [p]. *)
Definition copy_annotations (this p : PacketPtr) : M Heap unit :=
  let* src := anno p in
  let* a := anno this in
  let a1 := set_cb a (write_bytes 0 (read_bytes 0 Annotation.sizeof_Anno (_cb src))
                                  (_cb a)) in
  let a2 := Annotation.set_packet_type_anno (Annotation.packet_type_anno src) a1 in
  let a3 := Annotation.set_device_anno (Annotation.device_anno src) a2 in
  let a4 := Annotation.set_timestamp_anno (Annotation.timestamp_anno src) a3 in
  set_anno this a4.

(** An annotation block of the declared size. *)
Definition cb_sized (a : Annotations) : Prop :=
  length (_cb a) = Annotation.sizeof_cb.

(** An annotation block holding the bytes 1, 2, ..., 48. *)
Definition sample_annotations : Annotations :=
  mkAnnotations (seqZ 1 48) BROADCAST (7, 9).

Definition blank_annotations : Annotations :=
  mkAnnotations (replicate 48 0) HOST (0, 0).

Definition sample_heap : Heap :=
  mkHeap (mkWorld {[ 1000 := sample_packet; 2000 := tcp_packet ]}
                  (mem_at 4124 []) [] [] [])
         {[ 1000 := sample_annotations; 2000 := blank_annotations ]}.

(** ** More vocabulary for the checkers *)

(** The value [click_in_cksum_pseudohdr] returns for the packet, which
    [simple_action] compares with zero. *)
Definition udp_checksum_result
  (click_in_cksum : (Z -> Z) -> Z -> Z -> Z)
  (click_in_cksum_pseudohdr : (Z -> Z) -> Z -> Z -> Z -> Z)
  (w : World) (pk : Packet) : Z :=
  click_in_cksum_pseudohdr (mem w)
    (click_in_cksum (mem w) (udp_header pk) (udp_claimed_length w pk))
    (Packet.ip_header pk) (udp_claimed_length w pk).

Definition tcp_checksum_result
  (click_in_cksum : (Z -> Z) -> Z -> Z -> Z)
  (click_in_cksum_pseudohdr : (Z -> Z) -> Z -> Z -> Z -> Z)
  (w : World) (pk : Packet) : Z :=
  click_in_cksum_pseudohdr (mem w)
    (click_in_cksum (mem w) (tcp_header pk) (tcp_claimed_length w pk))
    (Packet.ip_header pk) (tcp_claimed_length w pk).

(** When [CheckUDPHeader] lets a packet through, and when
    [CheckTCPHeader] does. *)
Definition udp_acceptable
  (click_in_cksum : (Z -> Z) -> Z -> Z -> Z)
  (click_in_cksum_pseudohdr : (Z -> Z) -> Z -> Z -> Z -> Z)
  (s : Stage) (pk : Packet) : Prop :=
  has_network_header pk = true
  /\ ip_p (mem (env s)) (Packet.ip_header pk) = IP_PROTO_UDP
  /\ sizeof_click_udp <= udp_claimed_length (env s) pk
  /\ (uh_sum (mem (env s)) (udp_header pk) = 0
      \/ _checksum (elt s) = false
      \/ udp_checksum_result click_in_cksum click_in_cksum_pseudohdr (env s) pk = 0).

Definition tcp_acceptable
  (click_in_cksum : (Z -> Z) -> Z -> Z -> Z)
  (click_in_cksum_pseudohdr : (Z -> Z) -> Z -> Z -> Z -> Z)
  (s : Stage) (pk : Packet) : Prop :=
  has_network_header pk = true
  /\ ip_p (mem (env s)) (Packet.ip_header pk) = IP_PROTO_TCP
  /\ sizeof_click_tcp <= tcp_header_bytes (env s) pk
  /\ tcp_header_bytes (env s) pk <= tcp_claimed_length (env s) pk
  /\ (_checksum (elt s) = false
      \/ tcp_checksum_result click_in_cksum click_in_cksum_pseudohdr (env s) pk = 0).

(** A TCP segment whose IP header gives a total length of 8 bytes, less
    than the IP header itself. *)
Definition tcp_underflow_segment : list Z :=
  ip_header_bytes_of 6 8
  ++ [4; 210; 0; 80; 0; 0; 0; 1; 0; 0; 0; 0; 80; 16; 16; 0; 0; 0; 0; 0].

(** ** Streams of packets through a checker *)

(** The result of [drop] written out: the element after the drop, in the
    world after the diagnostic and after the packet went to output 1 or
    was killed. *)
Definition drop_outcome (msg : Chatter) (idx : nat) (p : PacketPtr) (s : Stage)
  : option (PacketPtr * Stage) :=
  if noutputs (elt s) =? 2
  then Some (NULL, mkStage (dropped_element idx (elt s))
                           (with_sent (sent (env s) ++ [(1, p)])
                                      (logged msg (elt s) (env s))))
  else match Packet.kill p (logged msg (elt s) (env s)) with
       | Some (_, wk) => Some (NULL, mkStage (dropped_element idx (elt s)) wk)
       | None => None
       end.

(** The element is handed the packets [ps] one after the other; the
    results are collected in order. *)
Fixpoint process (action : PacketPtr -> M Stage PacketPtr) (ps : list PacketPtr)
  : M Stage (list PacketPtr) :=
  match ps with
  | [] => ret []
  | p :: rest =>
      let* r := action p in
      let* rs := process action rest in
      ret (r :: rs)
  end.

Definition total (c : list Z) : Z := foldr Z.add 0 c.

(** Counters that have counted: none is negative, there are [NREASONS]
    per-reason counters when there are any, and they add up to [_drops]. *)
Definition counters_ok (e : Checker) : Prop :=
  0 <= _count e /\ 0 <= _drops e
  /\ match _reason_drops e with
     | Some c => length c = NREASONS /\ Forall (fun x => 0 <= x) c
                 /\ total c = _drops e
     | None => True
     end.

(** How many diagnostics a stretch of drops prints, [_drops] going from
    [d0] to [d1]: all of them with [VERBOSE], else the very first only. *)
Definition printed (verbose : bool) (d0 d1 : Z) : Z :=
  if verbose then d1 - d0
  else if (d0 =? 0) && (0 <? d1) then 1 else 0.

(** What a stretch of [n] packets taken from [ps] did to the state. *)
Definition evolves (n : Z) (ps : list PacketPtr) (s s' : Stage) : Prop :=
  counters_ok (elt s')
  /\ _count (elt s') + _drops (elt s') = _count (elt s) + _drops (elt s) + n
  /\ _count (elt s) <= _count (elt s')
  /\ _drops (elt s) <= _drops (elt s')
  /\ _verbose (elt s') = _verbose (elt s)
  /\ _checksum (elt s') = _checksum (elt s)
  /\ noutputs (elt s') = noutputs (elt s)
  /\ (_reason_drops (elt s') = None <-> _reason_drops (elt s) = None)
  /\ mem (env s') = mem (env s)
  /\ (exists msgs : list Chatter,
        chatter (env s') = chatter (env s) ++ msgs
        /\ Z.of_nat (length msgs)
           = printed (_verbose (elt s)) (_drops (elt s)) (_drops (elt s')))
  /\ (noutputs (elt s) = 2 ->
      objs (env s') = objs (env s)
      /\ exists new : list (Z * PacketPtr),
           sent (env s') = sent (env s) ++ new
           /\ Z.of_nat (length new) = _drops (elt s') - _drops (elt s)
           /\ Forall (fun x => fst x = 1 /\ In (snd x) ps) new)
  /\ (noutputs (elt s) <> 2 ->
      sent (env s') = sent (env s)
      /\ forall a : Z, objs (env s) !! a = None -> objs (env s') !! a = None).

(** What one run of an element's [simple_action] is, by cases. *)
Definition checker_step (action : PacketPtr -> M Stage PacketPtr) : Prop :=
  forall (p : PacketPtr) (s : Stage),
    match objs (env s) !! address p with
    | None => action p s = None
    | Some _ =>
        (exists more : list (Z * Z),
           action p s = Some (p, accepted (after_loads more s)))
        \/ (exists (msg : Chatter) (idx : nat) (more : list (Z * Z)),
              (idx < NREASONS)%nat
              /\ action p s = drop_outcome msg idx p (after_loads more s))
    end.

(** Two live packets, for an element with two outputs. *)
Definition two_packet_stage (verbose : bool) (nout : Z) : Stage :=
  mkStage (element_with verbose true true nout)
          (mkWorld {[ 1000 := sample_packet; 2000 := tcp_packet ]}
                   (mem_at 4124 (udp_datagram 0 0)) [] [] []).

(** ** The handlers of the checkers

    [read_handler] and [add_handlers] are the same in both elements but
    for the table [reason_texts].  The values of the enumerators
    [h_count], [h_drops] and [h_drop_details] are in the class
    declarations; a thunk is one of them or some other value.  The
    conversions of a counter and of a text to a [String] are library
    code and are parameters. *)
Inductive Thunk : Type :=
| h_count
| h_drops
| h_drop_details
| h_other (v : Z).

Definition newline : string := String (Ascii.ascii_of_nat 10) EmptyString.

Section Handlers.

Variable String_of_counter : Z -> string.    (* String(c->_count) *)
Variable snprintf_counter : Z -> string.     (* sa.snprintf(15, "%15" PRIu64, v) *)
Variable snprintf_text : string -> string.   (* sa.snprintf(24, "%24s", text) *)

Definition drop_details_line (v : Z) (text : string) : string :=
  (snprintf_counter v ++ " packets due to: " ++ snprintf_text text ++ newline)%string.

(** The loop [for (unsigned i = 0; i < NREASONS; i++)], from [i] on with
    [n] rounds to go; reading past the end of the counters is undefined. *)
Fixpoint drop_details_from (reason_texts : list string) (counters : list Z)
  (i n : nat) : option string :=
  match n with
  | O => Some EmptyString
  | S k =>
      match counters !! i with
      | Some v =>
          match drop_details_from reason_texts counters (S i) k with
          | Some rest =>
              Some (drop_details_line v (nth i reason_texts EmptyString) ++ rest)%string
          | None => None
          end
      | None => None
      end
  end.

Definition read_handler (reason_texts : list string) (c : Checker) (thunk : Thunk)
  : option string :=
  match thunk with
  | h_count => Some (String_of_counter (_count c))
  | h_drops => Some (String_of_counter (_drops c))
  | h_drop_details =>
      match _reason_drops c with
      | Some counters => drop_details_from reason_texts counters 0 NREASONS
      | None => None
      end
  | h_other _ => Some "<error>"%string
  end.

End Handlers.


(** Stand-ins for the library conversions, for running the handlers:
    decimal digits, padded on the left to the width of the format. *)
Definition show_counter (v : Z) : string := pretty v.

Fixpoint spaces (n : nat) : string :=
  match n with
  | O => EmptyString
  | S k => String (Ascii.ascii_of_nat 32) (spaces k)
  end.

Definition pad_left (width : nat) (s : string) : string :=
  (spaces (width - String.length s) ++ s)%string.

Definition show_counter_15 (v : Z) : string := pad_left 15 (pretty v).

Definition show_text_24 (s : string) : string := pad_left 24 s.

(** * Properties *)

(** ** Arithmetic of the machine integers *)

Lemma two32_pos : 0 < two32.
Proof. reflexivity. Qed.

Lemma to_unsigned_range (z : Z) : 0 <= to_unsigned z < two32.
Proof. unfold to_unsigned. apply Z.mod_pos_bound, two32_pos. Qed.

Lemma to_unsigned_small (z : Z) : 0 <= z < two32 -> to_unsigned z = z.
Proof. intros Hz. unfold to_unsigned. now apply Z.mod_small. Qed.

Lemma to_unsigned_le (z : Z) : 0 <= z -> to_unsigned z <= z.
Proof.
  intros Hz. unfold to_unsigned. apply Z.mod_le; [exact Hz | exact two32_pos].
Qed.

Lemma to_unsigned_idem (z : Z) : to_unsigned (to_unsigned z) = to_unsigned z.
Proof. unfold to_unsigned. apply Z.mod_mod. discriminate. Qed.

Lemma to_unsigned_sub_self (z : Z) : to_unsigned (z - to_unsigned z) = 0.
Proof.
  unfold to_unsigned.
  rewrite Zminus_mod_idemp_r, Z.sub_diag. reflexivity.
Qed.

(** ** The accessors on a well-formed region *)

Section Region.

Variable p : Packet.
Hypothesis Hok : region_ok p.

Lemma headroom_le : Packet.headroom p <= _data p - _head p.
Proof. destruct Hok as (H1 & _). apply to_unsigned_le. lia. Qed.

Lemma length_le : Packet.length p <= _tail p - _data p.
Proof. destruct Hok as (_ & H2 & _). apply to_unsigned_le. lia. Qed.

Lemma tailroom_le : Packet.tailroom p <= _end p - _tail p.
Proof. destruct Hok as (_ & _ & H3). apply to_unsigned_le. lia. Qed.

Lemma accounted_region : accounted p.
Proof.
  unfold accounted, Packet.headroom, Packet.length, Packet.tailroom,
    Packet.buffer_length, to_unsigned.
  rewrite Zplus_mod_idemp_r, <- Z.add_assoc, Zplus_mod_idemp_l.
  rewrite Z.add_assoc, (Z.add_comm (_data p - _head p)), <- Z.add_assoc.
  rewrite Zplus_mod_idemp_l.
  f_equal. lia.
Qed.

Hypothesis Hfits : buffer_fits p.

Lemma headroom_exact : Packet.headroom p = _data p - _head p.
Proof. unfold buffer_fits in Hfits. apply to_unsigned_small. unfold region_ok in Hok. lia. Qed.

Lemma length_exact : Packet.length p = _tail p - _data p.
Proof. unfold buffer_fits in Hfits. apply to_unsigned_small. unfold region_ok in Hok. lia. Qed.

Lemma tailroom_exact : Packet.tailroom p = _end p - _tail p.
Proof. unfold buffer_fits in Hfits. apply to_unsigned_small. unfold region_ok in Hok. lia. Qed.

Lemma buffer_length_exact : Packet.buffer_length p = _end p - _head p.
Proof. unfold buffer_fits in Hfits. apply to_unsigned_small. unfold region_ok in Hok. lia. Qed.

End Region.

(** ** Worlds *)

Lemma with_objs_same (w : World) : with_objs (objs w) w = w.
Proof. destruct w. reflexivity. Qed.

Lemma in_place_same (this : PacketPtr) (p : Packet) (w : World) :
  objs w !! address this = Some p -> in_place this p w = w.
Proof.
  intros Hlive. unfold in_place. rewrite insert_id by exact Hlive.
  apply with_objs_same.
Qed.

Lemma in_place_twice (this : PacketPtr) (p1 p2 : Packet) (w : World) :
  in_place this p2 (in_place this p1 w) = in_place this p2 w.
Proof.
  unfold in_place, with_objs. simpl. rewrite insert_insert_eq. reflexivity.
Qed.

Lemma in_place_lookup (this : PacketPtr) (p' : Packet) (w : World) :
  objs (in_place this p' w) !! address this = Some p'.
Proof. unfold in_place. simpl. apply lookup_insert_eq. Qed.

Lemma in_place_others (this : PacketPtr) (p' : Packet) (w : World) (a : Z) :
  a <> address this -> objs (in_place this p' w) !! a = objs w !! a.
Proof. intros Ha. unfold in_place. simpl. apply lookup_insert_ne. congruence. Qed.

Lemma in_place_dom (this : PacketPtr) (p p' : Packet) (w : World) :
  objs w !! address this = Some p ->
  dom (objs (in_place this p' w)) = dom (objs w).
Proof.
  intros Hlive. unfold in_place. simpl. rewrite dom_insert_L.
  apply subseteq_union_1_L, singleton_subseteq_l, elem_of_dom. eauto.
Qed.

Lemma cast_back (this : PacketPtr) :
  as_Packet (static_cast_WritablePacket this) = this.
Proof. destruct this. reflexivity. Qed.

(** Unfolding one member call on a live object. *)
Ltac run_member Hlive :=
  unfold bind, deref, store, modify, ret, click_chatter; simpl;
  rewrite ?cast_back; rewrite ?Hlive; simpl.

(** ** [pull] and [take] *)

Lemma pull_within (this : PacketPtr) (n : Z) (w : World) (p : Packet) :
  objs w !! address this = Some p ->
  n <= Packet.length p ->
  Packet.pull this n w = Some (tt, in_place this (set_data p (_data p + n)) w).
Proof.
  intros Hlive Hn. unfold Packet.pull. run_member Hlive.
  destruct (Z.gtb_spec n (Packet.length p)) as [Hgt | _]; [lia | reflexivity].
Qed.

Lemma pull_beyond (this : PacketPtr) (n : Z) (w : World) (p : Packet) :
  objs w !! address this = Some p ->
  n > Packet.length p ->
  Packet.pull this n w
  = Some (tt, in_place this (set_data p (_data p + Packet.length p))
                (with_chatter (chatter w ++ [pull_diagnostic n (Packet.length p)]) w)).
Proof.
  intros Hlive Hn. unfold Packet.pull. run_member Hlive.
  destruct (Z.gtb_spec n (Packet.length p)) as [_ | Hle]; [reflexivity | lia].
Qed.

Lemma take_within (this : PacketPtr) (n : Z) (w : World) (p : Packet) :
  objs w !! address this = Some p ->
  n <= Packet.length p ->
  Packet.take this n w = Some (tt, in_place this (set_tail p (_tail p - n)) w).
Proof.
  intros Hlive Hn. unfold Packet.take. run_member Hlive.
  destruct (Z.gtb_spec n (Packet.length p)) as [Hgt | _]; [lia | reflexivity].
Qed.

Lemma take_beyond (this : PacketPtr) (n : Z) (w : World) (p : Packet) :
  objs w !! address this = Some p ->
  n > Packet.length p ->
  Packet.take this n w
  = Some (tt, in_place this (set_tail p (_tail p - Packet.length p))
                (with_chatter (chatter w ++ [take_diagnostic n (Packet.length p)]) w)).
Proof.
  intros Hlive Hn. unfold Packet.take. run_member Hlive.
  destruct (Z.gtb_spec n (Packet.length p)) as [_ | Hle]; [reflexivity | lia].
Qed.

(** ** [push], [put], [uniqueify] and their non-unique variants *)

Section Resize.

Variable expensive_uniqueify : PacketPtr -> M World WritablePacketPtr.
Variable expensive_push : PacketPtr -> Z -> M World WritablePacketPtr.
Variable expensive_put : PacketPtr -> Z -> M World WritablePacketPtr.

Local Abbreviation uniqueify := (Packet.uniqueify expensive_uniqueify).
Local Abbreviation push := (Packet.push expensive_push).
Local Abbreviation put := (Packet.put expensive_put).
Local Abbreviation nonunique_push := (Packet.nonunique_push expensive_push).
Local Abbreviation nonunique_put := (Packet.nonunique_put expensive_put).

Variables (this : PacketPtr) (n : Z) (w : World) (p : Packet).
Hypothesis Hlive : objs w !! address this = Some p.

Lemma push_fast :
  Packet.headroom p >= n -> Packet.shared p = false ->
  push this n w = Some (static_cast_WritablePacket this,
                        in_place this (set_data p (_data p - n)) w).
Proof using Hlive.
  intros Hroom Hsh. unfold Packet.push. run_member Hlive.
  rewrite Hsh. replace (Packet.headroom p >=? n) with true; [reflexivity |].
  symmetry. apply Z.geb_le. lia.
Qed.

Lemma push_slow :
  ~ (Packet.headroom p >= n /\ Packet.shared p = false) ->
  push this n w = expensive_push this n w.
Proof using Hlive.
  intros Hnot. unfold Packet.push. run_member Hlive.
  destruct (Packet.headroom p >=? n) eqn:Hroom; simpl; [| reflexivity].
  destruct (Packet.shared p) eqn:Hsh; simpl; [reflexivity |].
  exfalso. apply Hnot. split; [| reflexivity]. apply Z.geb_le in Hroom. lia.
Qed.

Lemma put_fast :
  Packet.tailroom p >= n -> Packet.shared p = false ->
  put this n w = Some (static_cast_WritablePacket this,
                       in_place this (set_tail p (_tail p + n)) w).
Proof using Hlive.
  intros Hroom Hsh. unfold Packet.put. run_member Hlive.
  rewrite Hsh. replace (Packet.tailroom p >=? n) with true; [reflexivity |].
  symmetry. apply Z.geb_le. lia.
Qed.

Lemma put_slow :
  ~ (Packet.tailroom p >= n /\ Packet.shared p = false) ->
  put this n w = expensive_put this n w.
Proof using Hlive.
  intros Hnot. unfold Packet.put. run_member Hlive.
  destruct (Packet.tailroom p >=? n) eqn:Hroom; simpl; [| reflexivity].
  destruct (Packet.shared p) eqn:Hsh; simpl; [reflexivity |].
  exfalso. apply Hnot. split; [| reflexivity]. apply Z.geb_le in Hroom. lia.
Qed.

Lemma nonunique_push_fast :
  Packet.headroom p >= n ->
  nonunique_push this n w
  = Some (this, in_place this (set_data p (_data p - n)) w).
Proof using Hlive.
  intros Hroom. unfold Packet.nonunique_push. run_member Hlive.
  replace (Packet.headroom p >=? n) with true; [reflexivity |].
  symmetry. apply Z.geb_le. lia.
Qed.

Lemma nonunique_put_fast :
  Packet.tailroom p >= n ->
  nonunique_put this n w
  = Some (this, in_place this (set_tail p (_tail p + n)) w).
Proof using Hlive.
  intros Hroom. unfold Packet.nonunique_put. run_member Hlive.
  replace (Packet.tailroom p >=? n) with true; [reflexivity |].
  symmetry. apply Z.geb_le. lia.
Qed.

Lemma uniqueify_unshared :
  Packet.shared p = false ->
  uniqueify this w = Some (static_cast_WritablePacket this, w).
Proof using Hlive.
  intros Hsh. unfold Packet.uniqueify. run_member Hlive. rewrite Hsh. reflexivity.
Qed.

Lemma uniqueify_shared :
  Packet.shared p = true ->
  uniqueify this w = expensive_uniqueify this w.
Proof using Hlive.
  intros Hsh. unfold Packet.uniqueify. run_member Hlive. rewrite Hsh. reflexivity.
Qed.

End Resize.

(** ** The region invariant *)

Lemma accounted_exact_region (p : Packet) :
  region_ok p -> buffer_fits p -> accounted_exact p.
Proof.
  intros Hok Hfits. unfold accounted_exact.
  rewrite headroom_exact, length_exact, tailroom_exact, buffer_length_exact
    by assumption.
  lia.
Qed.

Lemma keeps_region_in_place {A : Type} (this : PacketPtr) (p p' : Packet)
  (a : A) (w : World) :
  region_ok p' -> _head p' = _head p -> _end p' = _end p ->
  keeps_region this p (Some (a, in_place this p' w)).
Proof.
  intros Hok' Hhead Hend. exists a, (in_place this p' w), p'.
  split; [reflexivity |]. split; [apply in_place_lookup |].
  split; [exact Hok' |]. split; [apply accounted_region |].
  split; [| split; assumption].
  intros Hfits. apply accounted_exact_region; [exact Hok' |].
  unfold buffer_fits in *. rewrite Hhead, Hend. exact Hfits.
Qed.

Lemma keeps_region_chatter {A : Type} (this : PacketPtr) (p p' : Packet)
  (a : A) (w : World) (c : list Chatter) :
  region_ok p' -> _head p' = _head p -> _end p' = _end p ->
  keeps_region this p (Some (a, in_place this p' (with_chatter c w))).
Proof. apply keeps_region_in_place. Qed.

Lemma pull_keeps_region (this : PacketPtr) (n : Z) (w : World) (p : Packet) :
  objs w !! address this = Some p -> region_ok p -> is_unsigned n ->
  keeps_region this p (Packet.pull this n w).
Proof.
  intros Hlive Hok Hn.
  pose proof (length_le p Hok) as Hlen.
  pose proof (to_unsigned_range (_tail p - _data p)) as Hrange.
  fold (Packet.length p) in Hrange.
  destruct Hok as (H1 & H2 & H3). destruct Hn as [Hn0 _].
  destruct (Z_le_gt_dec n (Packet.length p)) as [Hle | Hgt].
  - rewrite (pull_within this n w p Hlive Hle).
    apply keeps_region_in_place; [| reflexivity | reflexivity].
    unfold region_ok; simpl. lia.
  - rewrite (pull_beyond this n w p Hlive Hgt).
    apply keeps_region_chatter; [| reflexivity | reflexivity].
    unfold region_ok; simpl. lia.
Qed.

Lemma take_keeps_region (this : PacketPtr) (n : Z) (w : World) (p : Packet) :
  objs w !! address this = Some p -> region_ok p -> is_unsigned n ->
  keeps_region this p (Packet.take this n w).
Proof.
  intros Hlive Hok Hn.
  pose proof (length_le p Hok) as Hlen.
  pose proof (to_unsigned_range (_tail p - _data p)) as Hrange.
  fold (Packet.length p) in Hrange.
  destruct Hok as (H1 & H2 & H3). destruct Hn as [Hn0 _].
  destruct (Z_le_gt_dec n (Packet.length p)) as [Hle | Hgt].
  - rewrite (take_within this n w p Hlive Hle).
    apply keeps_region_in_place; [| reflexivity | reflexivity].
    unfold region_ok; simpl. lia.
  - rewrite (take_beyond this n w p Hlive Hgt).
    apply keeps_region_chatter; [| reflexivity | reflexivity].
    unfold region_ok; simpl. lia.
Qed.

Lemma moved_data_region (p : Packet) (n : Z) :
  region_ok p -> is_unsigned n -> Packet.headroom p >= n ->
  region_ok (set_data p (_data p - n)).
Proof.
  intros Hok [Hn0 _] Hroom. pose proof (headroom_le p Hok) as Hle.
  destruct Hok as (H1 & H2 & H3). unfold region_ok; simpl. lia.
Qed.

Lemma moved_tail_region (p : Packet) (n : Z) :
  region_ok p -> is_unsigned n -> Packet.tailroom p >= n ->
  region_ok (set_tail p (_tail p + n)).
Proof.
  intros Hok [Hn0 _] Hroom. pose proof (tailroom_le p Hok) as Hle.
  destruct Hok as (H1 & H2 & H3). unfold region_ok; simpl. lia.
Qed.

(** C5: for a packet whose region satisfies head <= data <= tail <= end,
    headroom + length + tailroom equals buffer_length: as the sum C forms
    from the three [unsigned] accessors, and over the integers too once
    the buffer length fits an [unsigned].  [pull] and [take] (always in
    place), and [push], [put], [nonunique_push] and [nonunique_put] on
    their in-place paths, return and leave a packet that satisfies the
    invariant and the equation again. *)
Theorem C5_region_accounting_preserved
  (expensive_push expensive_put : PacketPtr -> Z -> M World WritablePacketPtr)
  (this : PacketPtr) (n : Z) (w : World) (p : Packet)
  (Hlive : objs w !! address this = Some p)
  (Hok : region_ok p)
  (Hn : is_unsigned n) :
  accounted p
  /\ (buffer_fits p -> accounted_exact p)
  /\ keeps_region this p (Packet.pull this n w)
  /\ keeps_region this p (Packet.take this n w)
  /\ (Packet.headroom p >= n -> Packet.shared p = false ->
      keeps_region this p (Packet.push expensive_push this n w))
  /\ (Packet.tailroom p >= n -> Packet.shared p = false ->
      keeps_region this p (Packet.put expensive_put this n w))
  /\ (Packet.headroom p >= n ->
      keeps_region this p (Packet.nonunique_push expensive_push this n w))
  /\ (Packet.tailroom p >= n ->
      keeps_region this p (Packet.nonunique_put expensive_put this n w)).
Proof.
  split; [apply accounted_region |].
  split; [apply accounted_exact_region; exact Hok |].
  split; [apply pull_keeps_region; assumption |].
  split; [apply take_keeps_region; assumption |].
  split; [| split; [| split]].
  - intros Hroom Hsh. rewrite (push_fast _ this n w p Hlive Hroom Hsh).
    apply keeps_region_in_place; [| reflexivity | reflexivity].
    apply moved_data_region; assumption.
  - intros Hroom Hsh. rewrite (put_fast _ this n w p Hlive Hroom Hsh).
    apply keeps_region_in_place; [| reflexivity | reflexivity].
    apply moved_tail_region; assumption.
  - intros Hroom. rewrite (nonunique_push_fast _ this n w p Hlive Hroom).
    apply keeps_region_in_place; [| reflexivity | reflexivity].
    apply moved_data_region; assumption.
  - intros Hroom. rewrite (nonunique_put_fast _ this n w p Hlive Hroom).
    apply keeps_region_in_place; [| reflexivity | reflexivity].
    apply moved_tail_region; assumption.
Qed.

Lemma sample_live : objs sample_world !! address (PacketAt 1000) = Some sample_packet.
Proof. reflexivity. Qed.

Lemma sample_shared_live :
  objs sample_shared_world !! address (PacketAt 1000) = Some sample_shared_packet.
Proof. reflexivity. Qed.

Lemma C5_region_accounting_preserved_witness :
  accounted sample_packet
  /\ accounted_exact sample_packet
  /\ keeps_region (PacketAt 1000) sample_packet
       (Packet.pull (PacketAt 1000) 14 sample_world)
  /\ keeps_region (PacketAt 1000) sample_packet
       (Packet.take (PacketAt 1000) 14 sample_world)
  /\ keeps_region (PacketAt 1000) sample_packet
       (Packet.push oom_resize (PacketAt 1000) 14 sample_world)
  /\ keeps_region (PacketAt 1000) sample_packet
       (Packet.put oom_resize (PacketAt 1000) 14 sample_world)
  /\ keeps_region (PacketAt 1000) sample_packet
       (Packet.nonunique_push oom_resize (PacketAt 1000) 14 sample_world)
  /\ keeps_region (PacketAt 1000) sample_packet
       (Packet.nonunique_put oom_resize (PacketAt 1000) 14 sample_world).
Proof.
  destruct (C5_region_accounting_preserved oom_resize oom_resize
              (PacketAt 1000) 14 sample_world sample_packet)
    as (A & B & C & D & E & F & G & H).
  - reflexivity.
  - unfold region_ok; simpl; lia.
  - unfold is_unsigned, two32; lia.
  - split; [exact A |].
    split; [apply B; unfold buffer_fits, two32; simpl; lia |].
    split; [exact C |]. split; [exact D |].
    split; [apply E; [vm_compute; discriminate | reflexivity] |].
    split; [apply F; [vm_compute; discriminate | reflexivity] |].
    split; [apply G; vm_compute; discriminate | apply H; vm_compute; discriminate].
Defined.

(** ** The bytes of the packet *)

Lemma payload_split (m : Z -> Z) (a n1 n2 : Z) :
  0 <= n1 -> 0 <= n2 ->
  map m (seqZ a (n1 + n2)) = map m (seqZ a n1) ++ map m (seqZ (a + n1) n2).
Proof. intros H1 H2. rewrite seqZ_app by assumption. apply map_app. Qed.

Lemma payload_after_pull (p : Packet) (n : Z) (w w' : World) :
  region_ok p -> buffer_fits p -> 0 <= n <= Packet.length p ->
  mem w' = mem w ->
  payload (set_data p (_data p + n)) w' = drop (Z.to_nat n) (payload p w).
Proof.
  intros Hok Hfits Hn Hmem. unfold payload. rewrite Hmem.
  pose proof (length_exact p Hok Hfits) as Hlen.
  assert (Hlen' : Packet.length (set_data p (_data p + n)) = Packet.length p - n).
  { unfold Packet.length in *. simpl.
    rewrite to_unsigned_small; [lia |].
    pose proof (to_unsigned_range (_tail p - _data p)). lia. }
  rewrite Hlen'. simpl.
  replace (Packet.length p) with (n + (Packet.length p - n)) at 2 by lia.
  rewrite payload_split by lia.
  rewrite drop_app_length'; [reflexivity |].
  rewrite length_map, length_seqZ. reflexivity.
Qed.

Lemma payload_after_take (p : Packet) (n : Z) (w w' : World) :
  region_ok p -> buffer_fits p -> 0 <= n <= Packet.length p ->
  mem w' = mem w ->
  payload (set_tail p (_tail p - n)) w'
  = take (Z.to_nat (Packet.length p - n)) (payload p w).
Proof.
  intros Hok Hfits Hn Hmem. unfold payload. rewrite Hmem.
  pose proof (length_exact p Hok Hfits) as Hlen.
  assert (Hlen' : Packet.length (set_tail p (_tail p - n)) = Packet.length p - n).
  { unfold Packet.length in *. simpl.
    rewrite to_unsigned_small; [lia |].
    pose proof (to_unsigned_range (_tail p - _data p)). lia. }
  rewrite Hlen'. simpl.
  replace (Packet.length p) with ((Packet.length p - n) + n) at 3 by lia.
  rewrite payload_split by lia.
  rewrite take_app_length'; [reflexivity |].
  rewrite length_map, length_seqZ. reflexivity.
Qed.

(** C3: [pull(n)] and [take(n)] with [n > length()] return normally; each
    prints one diagnostic and uses [length()] in place of [n], so [pull]
    leaves [data == tail] and [take] leaves [tail == data], the length
    being 0 in both cases.  With [n <= length()] nothing is printed,
    [pull] advances [data] by [n] and keeps the bytes after the first
    [n], and [take] retreats [tail] by [n] and keeps the bytes before the
    last [n]. *)
Theorem C3_pull_take_clamp
  (this : PacketPtr) (n : Z) (w : World) (p : Packet)
  (Hlive : objs w !! address this = Some p)
  (Hok : region_ok p)
  (Hfits : buffer_fits p)
  (Hn : is_unsigned n) :
  (n > Packet.length p -> clamped this n w p)
  /\ (n <= Packet.length p -> removed this n w p).
Proof.
  pose proof (length_exact p Hok Hfits) as Hlen.
  pose proof (to_unsigned_range (_tail p - _data p)) as Hrange.
  fold (Packet.length p) in Hrange.
  destruct Hn as [Hn0 Hn32].
  split; intros Hcmp; unfold clamped, removed.
  - eexists _, _, _, _.
    split; [apply (pull_beyond this n w p Hlive Hcmp) |].
    split; [reflexivity |]. split; [apply in_place_lookup |].
    split; [simpl; lia |]. split; [reflexivity |].
    split; [change (to_unsigned (_tail p - (_data p + Packet.length p)) = 0);
            replace (_tail p - (_data p + Packet.length p)) with 0 by lia;
            reflexivity |].
    split; [apply (take_beyond this n w p Hlive Hcmp) |].
    split; [reflexivity |]. split; [apply in_place_lookup |].
    split; [simpl; lia |]. split; [reflexivity |].
    change (to_unsigned (_tail p - Packet.length p - _data p) = 0).
    replace (_tail p - Packet.length p - _data p) with 0 by lia. reflexivity.
  - eexists _, _, _, _.
    split; [apply (pull_within this n w p Hlive Hcmp) |].
    split; [reflexivity |]. split; [apply in_place_lookup |].
    split; [reflexivity |]. split; [reflexivity |].
    split; [unfold Packet.length in *; simpl;
            rewrite to_unsigned_small; lia |].
    split; [apply payload_after_pull; [assumption | assumption | lia | reflexivity] |].
    split; [apply (take_within this n w p Hlive Hcmp) |].
    split; [reflexivity |]. split; [apply in_place_lookup |].
    split; [reflexivity |]. split; [reflexivity |].
    split; [unfold Packet.length in *; simpl;
            rewrite to_unsigned_small; lia |].
    apply payload_after_take; [assumption | assumption | lia | reflexivity].
Qed.

Lemma C3_pull_take_clamp_witness :
  clamped (PacketAt 1000) 100 sample_world sample_packet
  /\ removed (PacketAt 1000) 14 sample_world sample_packet.
Proof.
  split.
  - apply (C3_pull_take_clamp (PacketAt 1000) 100 sample_world sample_packet).
    + reflexivity.
    + unfold region_ok; simpl; lia.
    + unfold buffer_fits, two32; simpl; lia.
    + unfold is_unsigned, two32; lia.
    + reflexivity.
  - apply (C3_pull_take_clamp (PacketAt 1000) 14 sample_world sample_packet).
    + reflexivity.
    + unfold region_ok; simpl; lia.
    + unfold buffer_fits, two32; simpl; lia.
    + unfold is_unsigned, two32; lia.
    + vm_compute; discriminate.
Defined.

(** ** In-place updates hand back the same handle *)

Lemma same_handle_in_place (this : PacketPtr) (p p' : Packet) (w : World) :
  objs w !! address this = Some p ->
  same_handle_updated this p' w this (in_place this p' w).
Proof.
  intros Hlive. unfold same_handle_updated.
  split; [reflexivity |]. split; [reflexivity |].
  split; [apply in_place_lookup |].
  split; [intros a Ha; apply in_place_others; exact Ha |].
  split; [apply (in_place_dom this p p' w Hlive) |].
  split; reflexivity.
Qed.

(** C2: on a live packet, when [headroom() >= n] and the packet is not
    shared, [push(n)] returns the handle it was called on, as a writable
    handle, after moving [_data] back by exactly [n]: no other object
    changes, none is created, and memory is not written; the object
    behind the returned handle has [_data] lower by [n] and every other
    member as it was.  In every other case [push(n)] is the call
    [expensive_push(n)]. *)
Theorem C2_push_in_place_or_expensive
  (expensive_push : PacketPtr -> Z -> M World WritablePacketPtr)
  (this : PacketPtr) (n : Z) (w : World) (p : Packet)
  (Hlive : objs w !! address this = Some p) :
  (Packet.headroom p >= n /\ Packet.shared p = false ->
     exists (q : WritablePacketPtr) (w' : World),
       Packet.push expensive_push this n w = Some (q, w')
       /\ same_handle_updated this (set_data p (_data p - n)) w (as_Packet q) w'
       /\ exists p' : Packet,
            objs w' !! address (as_Packet q) = Some p'
            /\ _data p' = _data p - n
            /\ _head p' = _head p /\ _tail p' = _tail p /\ _end p' = _end p
            /\ _use_count p' = _use_count p /\ _data_packet p' = _data_packet p
            /\ _nh_raw p' = _nh_raw p /\ _h_raw p' = _h_raw p)
  /\ (~ (Packet.headroom p >= n /\ Packet.shared p = false) ->
     Packet.push expensive_push this n w = expensive_push this n w).
Proof.
  split.
  - intros [Hroom Hsh].
    exists (static_cast_WritablePacket this),
           (in_place this (set_data p (_data p - n)) w).
    split; [apply push_fast; assumption |].
    rewrite cast_back.
    split; [apply (same_handle_in_place this p); exact Hlive |].
    eexists. split; [apply in_place_lookup |].
    simpl. repeat split; reflexivity.
  - apply push_slow; exact Hlive.
Qed.

Lemma C2_push_in_place_or_expensive_witness :
  (exists (q : WritablePacketPtr) (w' : World),
     Packet.push oom_resize (PacketAt 1000) 14 sample_world = Some (q, w')
     /\ same_handle_updated (PacketAt 1000)
          (set_data sample_packet (_data sample_packet - 14)) sample_world
          (as_Packet q) w'
     /\ exists p' : Packet,
          objs w' !! address (as_Packet q) = Some p'
          /\ _data p' = _data sample_packet - 14
          /\ _head p' = _head sample_packet /\ _tail p' = _tail sample_packet
          /\ _end p' = _end sample_packet
          /\ _use_count p' = _use_count sample_packet
          /\ _data_packet p' = _data_packet sample_packet
          /\ _nh_raw p' = _nh_raw sample_packet
          /\ _h_raw p' = _h_raw sample_packet)
  /\ Packet.push oom_resize (PacketAt 1000) 14 sample_shared_world
     = oom_resize (PacketAt 1000) 14 sample_shared_world.
Proof.
  split.
  - apply (C2_push_in_place_or_expensive oom_resize (PacketAt 1000) 14
             sample_world sample_packet).
    + reflexivity.
    + split; [vm_compute; discriminate | reflexivity].
  - apply (C2_push_in_place_or_expensive oom_resize (PacketAt 1000) 14
             sample_shared_world sample_shared_packet).
    + reflexivity.
    + intros [_ Hsh]. vm_compute in Hsh. discriminate Hsh.
Defined.

(** C6: on a live packet with [shared() == false], [uniqueify()] returns
    the handle it was called on, as a writable handle, and the world is
    untouched: no object is created, no byte is copied, and the packet
    still has the buffer it had.  With [shared() == true] it is the call
    [expensive_uniqueify()]. *)
Theorem C6_uniqueify_unshared_is_identity
  (expensive_uniqueify : PacketPtr -> M World WritablePacketPtr)
  (this : PacketPtr) (w : World) (p : Packet)
  (Hlive : objs w !! address this = Some p) :
  (Packet.shared p = false ->
     exists q : WritablePacketPtr,
       Packet.uniqueify expensive_uniqueify this w = Some (q, w)
       /\ as_Packet q = this
       /\ objs w !! address (as_Packet q) = Some p)
  /\ (Packet.shared p = true ->
     Packet.uniqueify expensive_uniqueify this w = expensive_uniqueify this w).
Proof.
  split.
  - intros Hsh. exists (static_cast_WritablePacket this).
    split; [apply (uniqueify_unshared _ this w p Hlive Hsh) |].
    rewrite cast_back. split; [reflexivity | exact Hlive].
  - apply uniqueify_shared; exact Hlive.
Qed.

Lemma C6_uniqueify_unshared_is_identity_witness :
  (exists q : WritablePacketPtr,
     Packet.uniqueify oom_uniqueify (PacketAt 1000) sample_world
     = Some (q, sample_world)
     /\ as_Packet q = PacketAt 1000
     /\ objs sample_world !! address (as_Packet q) = Some sample_packet)
  /\ Packet.uniqueify oom_uniqueify (PacketAt 1000) sample_shared_world
     = oom_uniqueify (PacketAt 1000) sample_shared_world.
Proof.
  split.
  - apply (C6_uniqueify_unshared_is_identity oom_uniqueify (PacketAt 1000)
             sample_world sample_packet); reflexivity.
  - apply (C6_uniqueify_unshared_is_identity oom_uniqueify (PacketAt 1000)
             sample_shared_world sample_shared_packet); reflexivity.
Defined.

(** C10: on a live packet with [headroom() >= n], [nonunique_push(n)]
    moves [_data] back by [n] in place and returns the handle it was
    called on, typed as a plain packet pointer; with [tailroom() >= n],
    [nonunique_put(n)] does the same with [_tail] moved forward.  Neither
    looks at [shared()]: the statement holds for every value of
    [_use_count] and [_data_packet], and nothing is copied.  The object
    behind the returned handle has [_data] lower by [n] (for
    [nonunique_put], [_tail] higher by [n]) and every other member,
    [_use_count] and [_data_packet] among them, as it was.  On a shared
    packet [push(n)] and [put(n)] are the expensive calls instead. *)
Theorem C10_nonunique_ignores_sharing
  (expensive_push expensive_put : PacketPtr -> Z -> M World WritablePacketPtr)
  (this : PacketPtr) (n : Z) (w : World) (p : Packet)
  (Hlive : objs w !! address this = Some p) :
  (Packet.headroom p >= n ->
     exists (q : PacketPtr) (w' : World),
       Packet.nonunique_push expensive_push this n w = Some (q, w')
       /\ same_handle_updated this (set_data p (_data p - n)) w q w'
       /\ exists p' : Packet,
            objs w' !! address q = Some p'
            /\ _data p' = _data p - n
            /\ _head p' = _head p /\ _tail p' = _tail p /\ _end p' = _end p
            /\ _use_count p' = _use_count p /\ _data_packet p' = _data_packet p
            /\ _nh_raw p' = _nh_raw p /\ _h_raw p' = _h_raw p)
  /\ (Packet.tailroom p >= n ->
     exists (q : PacketPtr) (w' : World),
       Packet.nonunique_put expensive_put this n w = Some (q, w')
       /\ same_handle_updated this (set_tail p (_tail p + n)) w q w'
       /\ exists p' : Packet,
            objs w' !! address q = Some p'
            /\ _tail p' = _tail p + n
            /\ _head p' = _head p /\ _data p' = _data p /\ _end p' = _end p
            /\ _use_count p' = _use_count p /\ _data_packet p' = _data_packet p
            /\ _nh_raw p' = _nh_raw p /\ _h_raw p' = _h_raw p)
  /\ (Packet.shared p = true ->
     Packet.push expensive_push this n w = expensive_push this n w
     /\ Packet.put expensive_put this n w = expensive_put this n w).
Proof.
  split; [| split].
  - intros Hroom. eexists _, _.
    split; [apply (nonunique_push_fast _ this n w p Hlive Hroom) |].
    split; [apply (same_handle_in_place this p); exact Hlive |].
    eexists. split; [apply in_place_lookup |].
    simpl. repeat split; reflexivity.
  - intros Hroom. eexists _, _.
    split; [apply (nonunique_put_fast _ this n w p Hlive Hroom) |].
    split; [apply (same_handle_in_place this p); exact Hlive |].
    eexists. split; [apply in_place_lookup |].
    simpl. repeat split; reflexivity.
  - intros Hsh. split.
    + apply (push_slow _ this n w p Hlive). intros [_ H]. congruence.
    + apply (put_slow _ this n w p Hlive). intros [_ H]. congruence.
Qed.

Lemma C10_nonunique_ignores_sharing_witness :
  (exists (q : PacketPtr) (w' : World),
     Packet.nonunique_push oom_resize (PacketAt 1000) 14 sample_shared_world
     = Some (q, w')
     /\ same_handle_updated (PacketAt 1000)
          (set_data sample_shared_packet (_data sample_shared_packet - 14))
          sample_shared_world q w'
     /\ exists p' : Packet,
          objs w' !! address q = Some p'
          /\ _data p' = _data sample_shared_packet - 14
          /\ _head p' = _head sample_shared_packet
          /\ _tail p' = _tail sample_shared_packet
          /\ _end p' = _end sample_shared_packet
          /\ _use_count p' = _use_count sample_shared_packet
          /\ _data_packet p' = _data_packet sample_shared_packet
          /\ _nh_raw p' = _nh_raw sample_shared_packet
          /\ _h_raw p' = _h_raw sample_shared_packet)
  /\ (exists (q : PacketPtr) (w' : World),
     Packet.nonunique_put oom_resize (PacketAt 1000) 14 sample_shared_world
     = Some (q, w')
     /\ same_handle_updated (PacketAt 1000)
          (set_tail sample_shared_packet (_tail sample_shared_packet + 14))
          sample_shared_world q w'
     /\ exists p' : Packet,
          objs w' !! address q = Some p'
          /\ _tail p' = _tail sample_shared_packet + 14
          /\ _head p' = _head sample_shared_packet
          /\ _data p' = _data sample_shared_packet
          /\ _end p' = _end sample_shared_packet
          /\ _use_count p' = _use_count sample_shared_packet
          /\ _data_packet p' = _data_packet sample_shared_packet
          /\ _nh_raw p' = _nh_raw sample_shared_packet
          /\ _h_raw p' = _h_raw sample_shared_packet)
  /\ (Packet.push oom_resize (PacketAt 1000) 14 sample_shared_world
      = oom_resize (PacketAt 1000) 14 sample_shared_world
      /\ Packet.put oom_resize (PacketAt 1000) 14 sample_shared_world
         = oom_resize (PacketAt 1000) 14 sample_shared_world).
Proof.
  destruct (C10_nonunique_ignores_sharing oom_resize oom_resize
              (PacketAt 1000) 14 sample_shared_world sample_shared_packet)
    as (Hpush & Hput & Hshared).
  - reflexivity.
  - split; [apply Hpush; vm_compute; discriminate |].
    split; [apply Hput; vm_compute; discriminate |].
    apply Hshared. reflexivity.
Defined.

(** ** Round trips *)

Lemma writes_outside (writes : list (Z * Z)) (lo hi x : Z) :
  writes_within lo hi writes -> ~ (lo <= x < hi) ->
  forall m : Z -> Z,
    fold_left (fun m '(a, v) => fun y => if y =? a then v else m y) writes m x
    = m x.
Proof.
  intros Hin Hx. induction Hin as [| [a v] rest Ha _ IH]; intros m.
  - reflexivity.
  - simpl. rewrite IH. destruct (Z.eqb_spec x a) as [-> | _]; [lia | reflexivity].
Qed.

Lemma payload_after_writes (p : Packet) (w : World) (m' : Z -> Z) :
  (forall x : Z, _data p <= x < _data p + Packet.length p -> m' x = mem w x) ->
  map m' (seqZ (_data p) (Packet.length p)) = payload p w.
Proof.
  intros Hsame. unfold payload. apply map_ext_in. intros x Hx.
  apply list_elem_of_In, elem_of_seqZ in Hx. apply Hsame. exact Hx.
Qed.

Lemma set_data_back (p : Packet) (n : Z) :
  set_data (set_data p (_data p - n)) (_data p - n + n) = p.
Proof. destruct p. unfold set_data. simpl. f_equal. lia. Qed.

Lemma set_tail_back (p : Packet) (n : Z) :
  set_tail (set_tail p (_tail p + n)) (_tail p + n - n) = p.
Proof. destruct p. unfold set_tail. simpl. f_equal. lia. Qed.

Section RoundTrip.

Variable expensive_push : PacketPtr -> Z -> M World WritablePacketPtr.
Variable expensive_put : PacketPtr -> Z -> M World WritablePacketPtr.
Variables (this : PacketPtr) (n : Z) (w : World) (p : Packet).
Variable writes : list (Z * Z).
Hypothesis Hlive : objs w !! address this = Some p.
Hypothesis Hok : region_ok p.
Hypothesis Hfits : buffer_fits p.
Hypothesis Hn : is_unsigned n.

Lemma push_pull_round_trip :
  Packet.headroom p >= n -> Packet.shared p = false ->
  writes_within (_data p - n) (_data p) writes ->
  round_trip this p w
    ((let* q := Packet.push expensive_push this n in
      poke writes >> Packet.pull (as_Packet q) n) w).
Proof using Hlive Hok Hfits Hn.
  intros Hroom Hsh Hwr.
  pose proof (headroom_exact p Hok Hfits) as Hhead.
  pose proof (length_exact p Hok Hfits) as Hlen.
  destruct Hok as (H1 & H2 & H3). destruct Hn as [Hn0 _].
  unfold buffer_fits in Hfits.
  unfold bind at 1. rewrite (push_fast _ this n w p Hlive Hroom Hsh).
  rewrite cast_back. unfold bind, poke, modify.
  set (p1 := set_data p (_data p - n)).
  erewrite (pull_within this n _ p1).
  - unfold round_trip. eexists. split; [reflexivity |].
    split.
    + unfold in_place, p1. simpl. rewrite set_data_back. apply lookup_insert_eq.
    + split; [| reflexivity].
      unfold in_place; simpl. apply payload_after_writes. intros x Hx.
      apply (writes_outside writes (_data p - n) (_data p)); [exact Hwr | lia].
  - simpl. apply lookup_insert_eq.
  - unfold Packet.length, p1. simpl. rewrite to_unsigned_small; lia.
Qed.

Lemma put_take_round_trip :
  Packet.tailroom p >= n -> Packet.shared p = false ->
  writes_within (_tail p) (_tail p + n) writes ->
  round_trip this p w
    ((let* q := Packet.put expensive_put this n in
      poke writes >> Packet.take (as_Packet q) n) w).
Proof using Hlive Hok Hfits Hn.
  intros Hroom Hsh Hwr.
  pose proof (tailroom_exact p Hok Hfits) as Htail.
  pose proof (length_exact p Hok Hfits) as Hlen.
  destruct Hok as (H1 & H2 & H3). destruct Hn as [Hn0 _].
  unfold buffer_fits in Hfits.
  unfold bind at 1. rewrite (put_fast _ this n w p Hlive Hroom Hsh).
  rewrite cast_back. unfold bind, poke, modify.
  set (p1 := set_tail p (_tail p + n)).
  erewrite (take_within this n _ p1).
  - unfold round_trip. eexists. split; [reflexivity |].
    split.
    + unfold in_place, p1. simpl. rewrite set_tail_back. apply lookup_insert_eq.
    + split; [| reflexivity].
      unfold in_place; simpl. apply payload_after_writes. intros x Hx.
      apply (writes_outside writes (_tail p) (_tail p + n)); [exact Hwr | lia].
  - simpl. apply lookup_insert_eq.
  - unfold Packet.length, p1. simpl. rewrite to_unsigned_small; lia.
Qed.

Lemma push_pull_same_world :
  Packet.headroom p >= n -> Packet.shared p = false ->
  (let* q := Packet.push expensive_push this n in
   Packet.pull (as_Packet q) n) w = Some (tt, w).
Proof using Hlive Hok Hfits Hn.
  intros Hroom Hsh.
  pose proof (headroom_exact p Hok Hfits) as Hhead.
  destruct Hok as (H1 & H2 & H3). destruct Hn as [Hn0 _].
  unfold buffer_fits in Hfits.
  unfold bind. rewrite (push_fast _ this n w p Hlive Hroom Hsh).
  rewrite cast_back.
  rewrite (pull_within this n _ (set_data p (_data p - n))).
  - rewrite in_place_twice. simpl. rewrite set_data_back.
    rewrite (in_place_same this p w Hlive). reflexivity.
  - apply in_place_lookup.
  - unfold Packet.length. simpl. rewrite to_unsigned_small; lia.
Qed.

Lemma put_take_same_world :
  Packet.tailroom p >= n -> Packet.shared p = false ->
  (let* q := Packet.put expensive_put this n in
   Packet.take (as_Packet q) n) w = Some (tt, w).
Proof using Hlive Hok Hfits Hn.
  intros Hroom Hsh.
  pose proof (tailroom_exact p Hok Hfits) as Htail.
  destruct Hok as (H1 & H2 & H3). destruct Hn as [Hn0 _].
  unfold buffer_fits in Hfits.
  unfold bind. rewrite (put_fast _ this n w p Hlive Hroom Hsh).
  rewrite cast_back.
  rewrite (take_within this n _ (set_tail p (_tail p + n))).
  - rewrite in_place_twice. simpl. rewrite set_tail_back.
    rewrite (in_place_same this p w Hlive). reflexivity.
  - apply in_place_lookup.
  - unfold Packet.length. simpl. rewrite to_unsigned_small; lia.
Qed.

End RoundTrip.

(** C4: on a live, unshared, well-formed packet with [headroom() >= n],
    [push(n)] followed by [pull(n)] gives back the world it started from:
    the same [_data], the same bytes.  The same holds when the caller
    fills the pushed space in between: the object is as before and the
    bytes of the original packet are unchanged.  With [tailroom() >= n],
    [put(n)] followed by [take(n)] does the same at the tail. *)
Theorem C4_push_pull_put_take_round_trip
  (expensive_push expensive_put : PacketPtr -> Z -> M World WritablePacketPtr)
  (this : PacketPtr) (n : Z) (w : World) (p : Packet) (writes : list (Z * Z))
  (Hlive : objs w !! address this = Some p)
  (Hok : region_ok p)
  (Hfits : buffer_fits p)
  (Hn : is_unsigned n)
  (Hunshared : Packet.shared p = false) :
  (Packet.headroom p >= n ->
     (let* q := Packet.push expensive_push this n in
      Packet.pull (as_Packet q) n) w = Some (tt, w)
     /\ (writes_within (_data p - n) (_data p) writes ->
         round_trip this p w
           ((let* q := Packet.push expensive_push this n in
             poke writes >> Packet.pull (as_Packet q) n) w)))
  /\ (Packet.tailroom p >= n ->
     (let* q := Packet.put expensive_put this n in
      Packet.take (as_Packet q) n) w = Some (tt, w)
     /\ (writes_within (_tail p) (_tail p + n) writes ->
         round_trip this p w
           ((let* q := Packet.put expensive_put this n in
             poke writes >> Packet.take (as_Packet q) n) w))).
Proof.
  split; intros Hroom; split.
  - apply (push_pull_same_world expensive_push this n w p); assumption.
  - intros Hwr. apply push_pull_round_trip; assumption.
  - apply (put_take_same_world expensive_put this n w p); assumption.
  - intros Hwr. apply put_take_round_trip; assumption.
Qed.

Lemma C4_push_pull_put_take_round_trip_witness :
  ((let* q := Packet.push oom_resize (PacketAt 1000) 14 in
    Packet.pull (as_Packet q) 14) sample_world = Some (tt, sample_world)
   /\ round_trip (PacketAt 1000) sample_packet sample_world
        ((let* q := Packet.push oom_resize (PacketAt 1000) 14 in
          poke [(4110, 255); (4123, 7)] >> Packet.pull (as_Packet q) 14)
           sample_world))
  /\ ((let* q := Packet.put oom_resize (PacketAt 1000) 14 in
       Packet.take (as_Packet q) 14) sample_world = Some (tt, sample_world)
      /\ round_trip (PacketAt 1000) sample_packet sample_world
           ((let* q := Packet.put oom_resize (PacketAt 1000) 14 in
             poke [(4153, 255); (4166, 7)] >> Packet.take (as_Packet q) 14)
              sample_world)).
Proof.
  split.
  - destruct (C4_push_pull_put_take_round_trip oom_resize oom_resize
                (PacketAt 1000) 14 sample_world sample_packet
                [(4110, 255); (4123, 7)]) as [Hfront _].
    + reflexivity.
    + unfold region_ok; simpl; lia.
    + unfold buffer_fits, two32; simpl; lia.
    + unfold is_unsigned, two32; lia.
    + reflexivity.
    + destruct Hfront as [Hsame Hfilled]; [vm_compute; discriminate |].
      split; [exact Hsame |]. apply Hfilled.
      repeat constructor; simpl; lia.
  - destruct (C4_push_pull_put_take_round_trip oom_resize oom_resize
                (PacketAt 1000) 14 sample_world sample_packet
                [(4153, 255); (4166, 7)]) as [_ Hback].
    + reflexivity.
    + unfold region_ok; simpl; lia.
    + unfold buffer_fits, two32; simpl; lia.
    + unfold is_unsigned, two32; lia.
    + reflexivity.
    + destruct Hback as [Hsame Hfilled]; [vm_compute; discriminate |].
      split; [exact Hsame |]. apply Hfilled.
      repeat constructor; simpl; lia.
Defined.

(** ** [kill] *)

Lemma kill_live (this : PacketPtr) (w : World) (p : Packet) :
  objs w !! address this = Some p ->
  Packet.kill this w
  = Some (tt,
          if _use_count p - 1 <=? 0
          then with_objs (delete (address this) (objs w)) w
          else in_place this (set_use_count p (_use_count p - 1)) w).
Proof.
  intros Hlive. unfold Packet.kill, Packet.delete. run_member Hlive.
  destruct (_use_count p - 1 <=? 0); simpl; [| reflexivity].
  unfold with_objs; simpl. rewrite delete_insert_eq. reflexivity.
Qed.

Lemma kill_objs_only (this : PacketPtr) (w wk : World) (c : list Chatter) :
  Packet.kill this w = Some (tt, wk) ->
  Packet.kill this (with_chatter c w) = Some (tt, with_chatter c wk).
Proof.
  unfold Packet.kill, Packet.delete, bind, deref, store, modify, ret. simpl.
  destruct (objs w !! address this) as [p |]; [| discriminate].
  simpl. destruct (_use_count p - 1 <=? 0); simpl;
    intros H; injection H as <-; reflexivity.
Qed.

(** ** [drop] *)

Lemma increment_in_range (x : Z) : 0 <= x < two64 - 1 -> increment x = x + 1.
Proof. intros Hx. unfold increment, to_uint64. apply Z.mod_small. lia. Qed.

Lemma alter_at (c : list Z) (idx i : nat) :
  alter increment idx c !! i
  = if decide (i = idx) then increment <$> c !! i else c !! i.
Proof.
  rewrite list_lookup_alter.
  destruct (decide (idx = i)) as [Heq | Hne];
    destruct (decide (i = idx)) as [Heq' | Hne']; congruence.
Qed.

(** The state a drop leaves, from the element and the world it left. *)
Lemma drop_contract_intro (msg : Chatter) (idx : nat) (p : PacketPtr)
  (e : Checker) (w : World) (pk : Packet) (r : option (PacketPtr * Stage)) :
  objs w !! address p = Some pk ->
  r = (if noutputs e =? 2
       then Some (NULL, mkStage (dropped_element idx e)
                                (with_sent (sent w ++ [(1, p)]) (logged msg e w)))
       else match Packet.kill p (logged msg e w) with
            | Some (_, wk) => Some (NULL, mkStage (dropped_element idx e) wk)
            | None => None
            end) ->
  drop_contract msg idx p (mkStage e w) r.
Proof.
  intros Hlive ->. unfold drop_contract. simpl.
  assert (Hlog : chatter (logged msg e w)
                 = chatter w ++ (if (_drops e =? 0) || _verbose e then [msg] else [])).
  { unfold logged. destruct ((_drops e =? 0) || _verbose e); simpl;
      [reflexivity | symmetry; apply app_nil_r]. }
  assert (Hrest : loads (logged msg e w) = loads w
                  /\ mem (logged msg e w) = mem w
                  /\ sent (logged msg e w) = sent w
                  /\ objs (logged msg e w) = objs w).
  { unfold logged. destruct ((_drops e =? 0) || _verbose e); simpl; auto. }
  destruct Hrest as (Hloads & Hmem & Hsent & Hobjs).
  assert (Hcounters :
            match _reason_drops e with
            | None => _reason_drops (dropped_element idx e) = None
            | Some c =>
                exists c' : list Z,
                  _reason_drops (dropped_element idx e) = Some c'
                  /\ forall i : nat,
                       c' !! i = if decide (i = idx) then increment <$> c !! i
                                 else c !! i
            end).
  { unfold dropped_element; simpl. destruct (_reason_drops e) as [c |]; simpl.
    - exists (alter increment idx c). split; [reflexivity | apply alter_at].
    - reflexivity. }
  destruct (noutputs e =? 2) eqn:Hout.
  - eexists. split; [reflexivity |]. simpl.
    split; [reflexivity |]. split; [apply increment_in_range |].
    split; [reflexivity |]. split; [exact Hcounters |].
    split; [exact Hlog |]. split; [exact Hloads |]. split; [exact Hmem |].
    split; [reflexivity | exact Hobjs].
  - pose proof (kill_live p w pk Hlive) as Hkill.
    assert (Hkill' : exists wk, Packet.kill p (logged msg e w) = Some (tt, wk)
                                /\ chatter wk = chatter (logged msg e w)
                                /\ loads wk = loads w /\ mem wk = mem w
                                /\ sent wk = sent w
                                /\ exists wk0, Packet.kill p w = Some (tt, wk0)
                                               /\ objs wk = objs wk0).
    { unfold logged. destruct ((_drops e =? 0) || _verbose e).
      - eexists. split; [apply kill_objs_only; exact Hkill |].
        destruct (_use_count pk - 1 <=? 0); simpl; eauto 10.
      - eexists. split; [exact Hkill |].
        destruct (_use_count pk - 1 <=? 0); simpl; eauto 10. }
    destruct Hkill' as (wk & -> & Hc & Hl & Hm & Hs & Hk).
    eexists. split; [reflexivity |]. simpl.
    split; [reflexivity |]. split; [apply increment_in_range |].
    split; [reflexivity |]. split; [exact Hcounters |].
    split; [rewrite Hc; exact Hlog |]. split; [exact Hl |]. split; [exact Hm |].
    split; [exact Hs |]. split; [exact Hk |].
    destruct Hk as (wk0 & Hk0 & Hobj). rewrite Hkill in Hk0.
    injection Hk0 as <-. exists pk. split; [exact Hlive |].
    rewrite Hobj.
    destruct (Z.leb_spec (_use_count pk - 1) 0) as [Hle | Hgt]; simpl.
    + split; [intros a Ha; apply lookup_delete_ne; congruence |].
      split; [intros _; apply lookup_delete_eq | intros Hmore; lia].
    + split; [intros a Ha; apply lookup_insert_ne; congruence |].
      split; [intros Hlast; lia |].
      intros _. eexists. split; [apply lookup_insert_eq |].
      simpl. repeat split; reflexivity.
Qed.

Lemma udp_drop_result (reason : CheckUDPHeader.Reason) (p : PacketPtr)
  (e : Checker) (w : World) :
  CheckUDPHeader.drop reason p (mkStage e w)
  = (if noutputs e =? 2
     then Some (NULL, mkStage (dropped_element (CheckUDPHeader.reason_index reason) e)
                              (with_sent (sent w ++ [(1, p)])
                                         (logged (udp_diagnostic reason) e w)))
     else match Packet.kill p (logged (udp_diagnostic reason) e w) with
          | Some (_, wk) =>
              Some (NULL, mkStage (dropped_element (CheckUDPHeader.reason_index reason) e) wk)
          | None => None
          end).
Proof.
  unfold CheckUDPHeader.drop, logged, dropped_element, udp_diagnostic, bind, get, ret,
    update_element, modify, in_world, click_chatter, output_push,
    set_drops, set_reason_drops.
  simpl.
  destruct ((_drops e =? 0) || _verbose e); simpl;
    destruct (_reason_drops e) as [c |]; simpl;
    destruct (noutputs e =? 2); simpl; try reflexivity;
    match goal with
    | |- context [Packet.kill p ?x] => destruct (Packet.kill p x) as [[[] wk] |]
    end; reflexivity.
Qed.

Lemma tcp_drop_result (reason : CheckTCPHeader.Reason) (p : PacketPtr)
  (e : Checker) (w : World) :
  CheckTCPHeader.drop reason p (mkStage e w)
  = (if noutputs e =? 2
     then Some (NULL, mkStage (dropped_element (CheckTCPHeader.reason_index reason) e)
                              (with_sent (sent w ++ [(1, p)])
                                         (logged (tcp_diagnostic reason) e w)))
     else match Packet.kill p (logged (tcp_diagnostic reason) e w) with
          | Some (_, wk) =>
              Some (NULL, mkStage (dropped_element (CheckTCPHeader.reason_index reason) e) wk)
          | None => None
          end).
Proof.
  unfold CheckTCPHeader.drop, logged, dropped_element, tcp_diagnostic, bind, get, ret,
    update_element, modify, in_world, click_chatter, output_push,
    set_drops, set_reason_drops.
  simpl.
  destruct ((_drops e =? 0) || _verbose e); simpl;
    destruct (_reason_drops e) as [c |]; simpl;
    destruct (noutputs e =? 2); simpl; try reflexivity;
    match goal with
    | |- context [Packet.kill p ?x] => destruct (Packet.kill p x) as [[[] wk] |]
    end; reflexivity.
Qed.

(** ** [CheckUDPHeader::simple_action], path by path *)

Ltac run_stage Hlive :=
  unfold bind, in_world, deref, load, ret, get, update_element, modify,
    after_loads, accepted;
  simpl; rewrite ?Hlive; simpl.

Section UDPPaths.

Variable click_in_cksum : (Z -> Z) -> Z -> Z -> Z.
Variable click_in_cksum_pseudohdr : (Z -> Z) -> Z -> Z -> Z -> Z.

Local Abbreviation simple_action :=
  (CheckUDPHeader.simple_action click_in_cksum click_in_cksum_pseudohdr).

Variables (p : PacketPtr) (s : Stage) (pk : Packet).
Hypothesis Hlive : objs (env s) !! address p = Some pk.

Lemma udp_no_header :
  has_network_header pk = false ->
  simple_action p s = CheckUDPHeader.drop CheckUDPHeader.NOT_UDP p s.
Proof using Hlive.
  intros Hnh. unfold CheckUDPHeader.simple_action. run_stage Hlive.
  rewrite Hnh. simpl. destruct s. reflexivity.
Qed.

Lemma udp_other_protocol :
  has_network_header pk = true ->
  ip_p (mem (env s)) (Packet.ip_header pk) <> IP_PROTO_UDP ->
  simple_action p s
  = CheckUDPHeader.drop CheckUDPHeader.NOT_UDP p
      (after_loads (udp_protocol_load pk) s).
Proof using Hlive.
  intros Hnh Hproto. unfold CheckUDPHeader.simple_action. run_stage Hlive.
  rewrite Hnh. simpl.
  destruct (Z.eqb_spec (ip_p (mem (env s)) (Packet.ip_header pk)) IP_PROTO_UDP)
    as [Heq | _]; [contradiction | reflexivity].
Qed.

Lemma udp_short_length :
  has_network_header pk = true ->
  ip_p (mem (env s)) (Packet.ip_header pk) = IP_PROTO_UDP ->
  udp_claimed_length (env s) pk < sizeof_click_udp ->
  simple_action p s
  = CheckUDPHeader.drop CheckUDPHeader.BAD_LENGTH p
      (after_loads (udp_length_loads pk) s).
Proof using Hlive.
  intros Hnh Hproto Hlen. unfold CheckUDPHeader.simple_action. run_stage Hlive.
  rewrite Hnh. simpl. rewrite Hproto. simpl.
  unfold udp_claimed_length in Hlen.
  destruct (Z.ltb_spec (ntohs (uh_ulen (mem (env s)) (udp_header pk)))
                       sizeof_click_udp) as [_ | Hge]; [| lia].
  unfold udp_length_loads. rewrite <- !app_assoc. reflexivity.
Qed.

Lemma udp_checksum_not_verified :
  has_network_header pk = true ->
  ip_p (mem (env s)) (Packet.ip_header pk) = IP_PROTO_UDP ->
  sizeof_click_udp <= udp_claimed_length (env s) pk ->
  uh_sum (mem (env s)) (udp_header pk) = 0 \/ _checksum (elt s) = false ->
  simple_action p s = Some (p, accepted (after_loads (udp_header_loads pk) s)).
Proof using Hlive.
  intros Hnh Hproto Hlen Hsum. unfold CheckUDPHeader.simple_action.
  run_stage Hlive. rewrite Hnh. simpl. rewrite Hproto. simpl.
  unfold udp_claimed_length in Hlen.
  destruct (Z.ltb_spec (ntohs (uh_ulen (mem (env s)) (udp_header pk)))
                       sizeof_click_udp) as [Hlt | _]; [lia |].
  unfold udp_header_loads, udp_length_loads. simpl.
  destruct (Z.eqb_spec (uh_sum (mem (env s)) (udp_header pk)) 0) as [_ | Hne];
    simpl.
  - rewrite <- !app_assoc. reflexivity.
  - destruct Hsum as [Hz | Hoff]; [contradiction |].
    rewrite Hoff. simpl. rewrite <- !app_assoc. reflexivity.
Qed.

Lemma udp_checksum_verified :
  has_network_header pk = true ->
  ip_p (mem (env s)) (Packet.ip_header pk) = IP_PROTO_UDP ->
  sizeof_click_udp <= udp_claimed_length (env s) pk ->
  uh_sum (mem (env s)) (udp_header pk) <> 0 ->
  _checksum (elt s) = true ->
  simple_action p s
  = if click_in_cksum_pseudohdr (mem (env s))
         (click_in_cksum (mem (env s)) (udp_header pk)
                         (udp_claimed_length (env s) pk))
         (Packet.ip_header pk) (udp_claimed_length (env s) pk) =? 0
    then Some (p, accepted (after_loads (udp_checksum_loads (env s) pk) s))
    else CheckUDPHeader.drop CheckUDPHeader.BAD_CHECKSUM p
           (after_loads (udp_checksum_loads (env s) pk) s).
Proof using Hlive.
  intros Hnh Hproto Hlen Hsum Hon. unfold CheckUDPHeader.simple_action.
  run_stage Hlive. rewrite Hnh. simpl. rewrite Hproto. simpl.
  unfold udp_claimed_length in *.
  destruct (Z.ltb_spec (ntohs (uh_ulen (mem (env s)) (udp_header pk)))
                       sizeof_click_udp) as [Hlt | _]; [lia |].
  unfold udp_checksum_loads, udp_header_loads, udp_length_loads,
    udp_claimed_length. simpl.
  destruct (Z.eqb_spec (uh_sum (mem (env s)) (udp_header pk)) 0) as [Hz | _];
    [contradiction |].
  simpl. rewrite Hon. simpl.
  rewrite <- !app_assoc. simpl.
  match goal with
  | |- context [?x =? 0] => destruct (x =? 0)
  end; reflexivity.
Qed.

End UDPPaths.

(** ** [CheckTCPHeader::simple_action], path by path *)

Section TCPPaths.

Variable click_in_cksum : (Z -> Z) -> Z -> Z -> Z.
Variable click_in_cksum_pseudohdr : (Z -> Z) -> Z -> Z -> Z -> Z.

Local Abbreviation simple_action :=
  (CheckTCPHeader.simple_action click_in_cksum click_in_cksum_pseudohdr).

Variables (p : PacketPtr) (s : Stage) (pk : Packet).
Hypothesis Hlive : objs (env s) !! address p = Some pk.

Lemma tcp_no_header :
  has_network_header pk = false ->
  simple_action p s = CheckTCPHeader.drop CheckTCPHeader.NOT_TCP p s.
Proof using Hlive.
  intros Hnh. unfold CheckTCPHeader.simple_action. run_stage Hlive.
  rewrite Hnh. simpl. destruct s. reflexivity.
Qed.

Lemma tcp_other_protocol :
  has_network_header pk = true ->
  ip_p (mem (env s)) (Packet.ip_header pk) <> IP_PROTO_TCP ->
  simple_action p s
  = CheckTCPHeader.drop CheckTCPHeader.NOT_TCP p
      (after_loads (tcp_protocol_load pk) s).
Proof using Hlive.
  intros Hnh Hproto. unfold CheckTCPHeader.simple_action. run_stage Hlive.
  rewrite Hnh. simpl.
  destruct (Z.eqb_spec (ip_p (mem (env s)) (Packet.ip_header pk)) IP_PROTO_TCP)
    as [Heq | _]; [contradiction | reflexivity].
Qed.

Lemma tcp_bad_length :
  has_network_header pk = true ->
  ip_p (mem (env s)) (Packet.ip_header pk) = IP_PROTO_TCP ->
  tcp_header_bytes (env s) pk < sizeof_click_tcp
  \/ tcp_claimed_length (env s) pk < tcp_header_bytes (env s) pk ->
  simple_action p s
  = CheckTCPHeader.drop CheckTCPHeader.BAD_LENGTH p
      (after_loads (tcp_header_loads pk) s).
Proof using Hlive.
  intros Hnh Hproto Hlen. unfold CheckTCPHeader.simple_action. run_stage Hlive.
  rewrite Hnh. simpl. rewrite Hproto. simpl.
  assert (Hcond : (tcp_header_bytes (env s) pk <? sizeof_click_tcp)
                  || (tcp_claimed_length (env s) pk <? tcp_header_bytes (env s) pk)
                  = true).
  { apply orb_true_iff.
    destruct Hlen as [H | H]; [left | right]; apply Z.ltb_lt; exact H. }
  unfold tcp_header_bytes, tcp_claimed_length, ip_header_bytes in Hcond.
  rewrite Hcond.
  unfold tcp_header_loads. rewrite <- !app_assoc. reflexivity.
Qed.

Lemma tcp_lengths_pass_condition :
  sizeof_click_tcp <= tcp_header_bytes (env s) pk ->
  tcp_header_bytes (env s) pk <= tcp_claimed_length (env s) pk ->
  (tcp_header_bytes (env s) pk <? sizeof_click_tcp)
  || (tcp_claimed_length (env s) pk <? tcp_header_bytes (env s) pk) = false.
Proof.
  intros H1 H2. apply orb_false_iff. split; apply Z.ltb_ge; assumption.
Qed.

Lemma tcp_checksum_not_verified :
  has_network_header pk = true ->
  ip_p (mem (env s)) (Packet.ip_header pk) = IP_PROTO_TCP ->
  sizeof_click_tcp <= tcp_header_bytes (env s) pk ->
  tcp_header_bytes (env s) pk <= tcp_claimed_length (env s) pk ->
  _checksum (elt s) = false ->
  simple_action p s = Some (p, accepted (after_loads (tcp_header_loads pk) s)).
Proof using Hlive.
  intros Hnh Hproto H1 H2 Hoff. unfold CheckTCPHeader.simple_action.
  run_stage Hlive. rewrite Hnh. simpl. rewrite Hproto. simpl.
  pose proof (tcp_lengths_pass_condition H1 H2) as Hcond.
  unfold tcp_header_bytes, tcp_claimed_length, ip_header_bytes in Hcond.
  rewrite Hcond. simpl. rewrite Hoff. simpl.
  unfold tcp_header_loads. rewrite <- !app_assoc. reflexivity.
Qed.

Lemma tcp_checksum_verified :
  has_network_header pk = true ->
  ip_p (mem (env s)) (Packet.ip_header pk) = IP_PROTO_TCP ->
  sizeof_click_tcp <= tcp_header_bytes (env s) pk ->
  tcp_header_bytes (env s) pk <= tcp_claimed_length (env s) pk ->
  _checksum (elt s) = true ->
  simple_action p s
  = if click_in_cksum_pseudohdr (mem (env s))
         (click_in_cksum (mem (env s)) (tcp_header pk)
                         (tcp_claimed_length (env s) pk))
         (Packet.ip_header pk) (tcp_claimed_length (env s) pk) =? 0
    then Some (p, accepted (after_loads (tcp_checksum_loads (env s) pk) s))
    else CheckTCPHeader.drop CheckTCPHeader.BAD_CHECKSUM p
           (after_loads (tcp_checksum_loads (env s) pk) s).
Proof using Hlive.
  intros Hnh Hproto H1 H2 Hon. unfold CheckTCPHeader.simple_action.
  run_stage Hlive. rewrite Hnh. simpl. rewrite Hproto. simpl.
  pose proof (tcp_lengths_pass_condition H1 H2) as Hcond.
  unfold tcp_header_bytes, tcp_claimed_length, ip_header_bytes in Hcond.
  rewrite Hcond. simpl. rewrite Hon. simpl.
  unfold tcp_checksum_loads, tcp_header_loads, tcp_claimed_length,
    ip_header_bytes.
  rewrite <- !app_assoc. simpl.
  match goal with
  | |- context [?x =? 0] => destruct (x =? 0)
  end; reflexivity.
Qed.

End TCPPaths.

(** ** Forwarding and diverting *)

Lemma forwarded_intro (more : list (Z * Z)) (p : PacketPtr) (s : Stage) :
  forwarded more p s (Some (p, accepted (after_loads more s))).
Proof.
  unfold forwarded. eexists. split; [reflexivity |].
  simpl. repeat split; reflexivity.
Qed.

Lemma udp_diverted (reason : CheckUDPHeader.Reason) (more : list (Z * Z))
  (p : PacketPtr) (s : Stage) (pk : Packet) :
  objs (env s) !! address p = Some pk ->
  drop_contract (udp_diagnostic reason) (CheckUDPHeader.reason_index reason) p
    (after_loads more s)
    (CheckUDPHeader.drop reason p (after_loads more s)).
Proof.
  intros Hlive. unfold after_loads.
  apply (drop_contract_intro _ _ _ _ _ pk); [exact Hlive |].
  apply udp_drop_result.
Qed.

Lemma tcp_diverted (reason : CheckTCPHeader.Reason) (more : list (Z * Z))
  (p : PacketPtr) (s : Stage) (pk : Packet) :
  objs (env s) !! address p = Some pk ->
  drop_contract (tcp_diagnostic reason) (CheckTCPHeader.reason_index reason) p
    (after_loads more s)
    (CheckTCPHeader.drop reason p (after_loads more s)).
Proof.
  intros Hlive. unfold after_loads.
  apply (drop_contract_intro _ _ _ _ _ pk); [exact Hlive |].
  apply tcp_drop_result.
Qed.

Lemma after_no_loads (s : Stage) : after_loads [] s = s.
Proof.
  destruct s as [e [o m c l t]]. unfold after_loads, with_loads. simpl.
  rewrite app_nil_r. reflexivity.
Qed.

(** C8: on a live packet with no network header, both checkers divert
    the packet with their first reason (NOT_TCP, NOT_UDP) and load no
    byte of any header; with a network header whose protocol field is not
    the expected one (6 for TCP, 17 for UDP) they divert it with the same
    reason after loading the protocol field and nothing else. *)
Theorem C8_other_protocol_diverted
  (click_in_cksum : (Z -> Z) -> Z -> Z -> Z)
  (click_in_cksum_pseudohdr : (Z -> Z) -> Z -> Z -> Z -> Z)
  (p : PacketPtr) (s : Stage) (pk : Packet)
  (Hlive : objs (env s) !! address p = Some pk) :
  (has_network_header pk = false ->
     drop_contract (tcp_diagnostic CheckTCPHeader.NOT_TCP)
       (CheckTCPHeader.reason_index CheckTCPHeader.NOT_TCP) p s
       (CheckTCPHeader.simple_action click_in_cksum click_in_cksum_pseudohdr p s)
     /\ drop_contract (udp_diagnostic CheckUDPHeader.NOT_UDP)
          (CheckUDPHeader.reason_index CheckUDPHeader.NOT_UDP) p s
          (CheckUDPHeader.simple_action click_in_cksum click_in_cksum_pseudohdr p s))
  /\ (has_network_header pk = true ->
      ip_p (mem (env s)) (Packet.ip_header pk) <> IP_PROTO_TCP ->
      drop_contract (tcp_diagnostic CheckTCPHeader.NOT_TCP)
        (CheckTCPHeader.reason_index CheckTCPHeader.NOT_TCP) p
        (after_loads [(Packet.ip_header pk + offset_ip_p, 1)] s)
        (CheckTCPHeader.simple_action click_in_cksum click_in_cksum_pseudohdr p s))
  /\ (has_network_header pk = true ->
      ip_p (mem (env s)) (Packet.ip_header pk) <> IP_PROTO_UDP ->
      drop_contract (udp_diagnostic CheckUDPHeader.NOT_UDP)
        (CheckUDPHeader.reason_index CheckUDPHeader.NOT_UDP) p
        (after_loads [(Packet.ip_header pk + offset_ip_p, 1)] s)
        (CheckUDPHeader.simple_action click_in_cksum click_in_cksum_pseudohdr p s)).
Proof.
  split; [| split].
  - intros Hnh. split.
    + rewrite (tcp_no_header _ _ p s pk Hlive Hnh).
      rewrite <- (after_no_loads s). apply (tcp_diverted _ _ _ _ pk Hlive).
    + rewrite (udp_no_header _ _ p s pk Hlive Hnh).
      rewrite <- (after_no_loads s). apply (udp_diverted _ _ _ _ pk Hlive).
  - intros Hnh Hproto. rewrite (tcp_other_protocol _ _ p s pk Hlive Hnh Hproto).
    apply (tcp_diverted _ _ _ _ pk Hlive).
  - intros Hnh Hproto. rewrite (udp_other_protocol _ _ p s pk Hlive Hnh Hproto).
    apply (udp_diverted _ _ _ _ pk Hlive).
Qed.

Lemma C8_other_protocol_diverted_witness :
  (drop_contract (tcp_diagnostic CheckTCPHeader.NOT_TCP)
     (CheckTCPHeader.reason_index CheckTCPHeader.NOT_TCP) (PacketAt 1000)
     bare_stage
     (CheckTCPHeader.simple_action spec_in_cksum spec_in_cksum_pseudohdr
        (PacketAt 1000) bare_stage)
   /\ drop_contract (udp_diagnostic CheckUDPHeader.NOT_UDP)
        (CheckUDPHeader.reason_index CheckUDPHeader.NOT_UDP) (PacketAt 1000)
        bare_stage
        (CheckUDPHeader.simple_action spec_in_cksum spec_in_cksum_pseudohdr
           (PacketAt 1000) bare_stage))
  /\ drop_contract (tcp_diagnostic CheckTCPHeader.NOT_TCP)
       (CheckTCPHeader.reason_index CheckTCPHeader.NOT_TCP) (PacketAt 1000)
       (after_loads [(Packet.ip_header sample_packet + offset_ip_p, 1)]
                    (udp_stage true (udp_datagram 0 0)))
       (CheckTCPHeader.simple_action spec_in_cksum spec_in_cksum_pseudohdr
          (PacketAt 1000) (udp_stage true (udp_datagram 0 0)))
  /\ drop_contract (udp_diagnostic CheckUDPHeader.NOT_UDP)
       (CheckUDPHeader.reason_index CheckUDPHeader.NOT_UDP) (PacketAt 1000)
       (after_loads [(Packet.ip_header tcp_packet + offset_ip_p, 1)]
                    (tcp_stage true tcp_long_segment))
       (CheckUDPHeader.simple_action spec_in_cksum spec_in_cksum_pseudohdr
          (PacketAt 1000) (tcp_stage true tcp_long_segment)).
Proof.
  split; [| split].
  - apply (C8_other_protocol_diverted spec_in_cksum spec_in_cksum_pseudohdr
             (PacketAt 1000) bare_stage bare_packet); reflexivity.
  - apply (C8_other_protocol_diverted spec_in_cksum spec_in_cksum_pseudohdr
             (PacketAt 1000) (udp_stage true (udp_datagram 0 0)) sample_packet).
    + reflexivity.
    + reflexivity.
    + vm_compute. discriminate.
  - apply (C8_other_protocol_diverted spec_in_cksum spec_in_cksum_pseudohdr
             (PacketAt 1000) (tcp_stage true tcp_long_segment) tcp_packet).
    + reflexivity.
    + reflexivity.
    + vm_compute. discriminate.
Defined.

(** C7: a live UDP packet (network header present, protocol field 17)
    whose claimed length is at least the size of a UDP header and whose
    checksum field is 0 is forwarded whatever [_checksum] is: the element
    returns the packet, counts it as accepted, counts no drop, and loads
    the four header fields only, so no checksum is computed. *)
Theorem C7_udp_zero_checksum_accepted
  (click_in_cksum : (Z -> Z) -> Z -> Z -> Z)
  (click_in_cksum_pseudohdr : (Z -> Z) -> Z -> Z -> Z -> Z)
  (p : PacketPtr) (s : Stage) (pk : Packet)
  (Hlive : objs (env s) !! address p = Some pk)
  (Hnh : has_network_header pk = true)
  (Hproto : ip_p (mem (env s)) (Packet.ip_header pk) = IP_PROTO_UDP)
  (Hlen : sizeof_click_udp <= udp_claimed_length (env s) pk)
  (Hsum : uh_sum (mem (env s)) (udp_header pk) = 0) :
  forwarded (udp_header_loads pk) p s
    (CheckUDPHeader.simple_action click_in_cksum click_in_cksum_pseudohdr p s).
Proof.
  rewrite (udp_checksum_not_verified _ _ p s pk Hlive Hnh Hproto Hlen (or_introl Hsum)).
  apply forwarded_intro.
Qed.

Lemma C7_udp_zero_checksum_accepted_witness :
  forwarded (udp_header_loads sample_packet) (PacketAt 1000)
    (udp_stage true (udp_datagram 0 0))
    (CheckUDPHeader.simple_action spec_in_cksum spec_in_cksum_pseudohdr
       (PacketAt 1000) (udp_stage true (udp_datagram 0 0)))
  /\ forwarded (udp_header_loads sample_packet) (PacketAt 1000)
       (udp_stage false (udp_datagram 0 0))
       (CheckUDPHeader.simple_action spec_in_cksum spec_in_cksum_pseudohdr
          (PacketAt 1000) (udp_stage false (udp_datagram 0 0))).
Proof.
  split.
  - apply (C7_udp_zero_checksum_accepted spec_in_cksum spec_in_cksum_pseudohdr
             (PacketAt 1000) (udp_stage true (udp_datagram 0 0)) sample_packet).
    + reflexivity.
    + reflexivity.
    + reflexivity.
    + vm_compute. discriminate.
    + reflexivity.
  - apply (C7_udp_zero_checksum_accepted spec_in_cksum spec_in_cksum_pseudohdr
             (PacketAt 1000) (udp_stage false (udp_datagram 0 0)) sample_packet).
    + reflexivity.
    + reflexivity.
    + reflexivity.
    + vm_compute. discriminate.
    + reflexivity.
Defined.

(** ** Every path of [simple_action] forwards or drops *)

Lemma udp_simple_action_cases
  (click_in_cksum : (Z -> Z) -> Z -> Z -> Z)
  (click_in_cksum_pseudohdr : (Z -> Z) -> Z -> Z -> Z -> Z)
  (p : PacketPtr) (s : Stage) (pk : Packet) :
  objs (env s) !! address p = Some pk ->
  (exists more : list (Z * Z),
     forwarded more p s
       (CheckUDPHeader.simple_action click_in_cksum click_in_cksum_pseudohdr p s))
  \/ (exists (reason : CheckUDPHeader.Reason) (more : list (Z * Z)),
        drop_contract (udp_diagnostic reason)
          (CheckUDPHeader.reason_index reason) p (after_loads more s)
          (CheckUDPHeader.simple_action click_in_cksum click_in_cksum_pseudohdr p s)).
Proof.
  intros Hlive.
  destruct (has_network_header pk) eqn:Hnh.
  2: { right. exists CheckUDPHeader.NOT_UDP, [].
       rewrite (udp_no_header _ _ p s pk Hlive Hnh).
       rewrite <- (after_no_loads s) at 2. apply (udp_diverted _ _ _ _ pk Hlive). }
  destruct (Z.eq_dec (ip_p (mem (env s)) (Packet.ip_header pk)) IP_PROTO_UDP)
    as [Hproto | Hproto].
  2: { right. exists CheckUDPHeader.NOT_UDP, (udp_protocol_load pk).
       rewrite (udp_other_protocol _ _ p s pk Hlive Hnh Hproto).
       apply (udp_diverted _ _ _ _ pk Hlive). }
  destruct (Z_lt_ge_dec (udp_claimed_length (env s) pk) sizeof_click_udp)
    as [Hshort | Hlen].
  { right. exists CheckUDPHeader.BAD_LENGTH, (udp_length_loads pk).
    rewrite (udp_short_length _ _ p s pk Hlive Hnh Hproto Hshort).
    apply (udp_diverted _ _ _ _ pk Hlive). }
  apply Z.ge_le in Hlen.
  destruct (Z.eq_dec (uh_sum (mem (env s)) (udp_header pk)) 0) as [Hsum | Hsum].
  { left. exists (udp_header_loads pk).
    rewrite (udp_checksum_not_verified _ _ p s pk Hlive Hnh Hproto Hlen
               (or_introl Hsum)).
    apply forwarded_intro. }
  destruct (_checksum (elt s)) eqn:Hon.
  2: { left. exists (udp_header_loads pk).
       rewrite (udp_checksum_not_verified _ _ p s pk Hlive Hnh Hproto Hlen
                  (or_intror Hon)).
       apply forwarded_intro. }
  rewrite (udp_checksum_verified _ _ p s pk Hlive Hnh Hproto Hlen Hsum Hon).
  match goal with
  | |- context [?x =? 0] => destruct (x =? 0)
  end.
  - left. exists (udp_checksum_loads (env s) pk). apply forwarded_intro.
  - right. exists CheckUDPHeader.BAD_CHECKSUM, (udp_checksum_loads (env s) pk).
    apply (udp_diverted _ _ _ _ pk Hlive).
Qed.

Lemma tcp_simple_action_cases
  (click_in_cksum : (Z -> Z) -> Z -> Z -> Z)
  (click_in_cksum_pseudohdr : (Z -> Z) -> Z -> Z -> Z -> Z)
  (p : PacketPtr) (s : Stage) (pk : Packet) :
  objs (env s) !! address p = Some pk ->
  (exists more : list (Z * Z),
     forwarded more p s
       (CheckTCPHeader.simple_action click_in_cksum click_in_cksum_pseudohdr p s))
  \/ (exists (reason : CheckTCPHeader.Reason) (more : list (Z * Z)),
        drop_contract (tcp_diagnostic reason)
          (CheckTCPHeader.reason_index reason) p (after_loads more s)
          (CheckTCPHeader.simple_action click_in_cksum click_in_cksum_pseudohdr p s)).
Proof.
  intros Hlive.
  destruct (has_network_header pk) eqn:Hnh.
  2: { right. exists CheckTCPHeader.NOT_TCP, [].
       rewrite (tcp_no_header _ _ p s pk Hlive Hnh).
       rewrite <- (after_no_loads s) at 2. apply (tcp_diverted _ _ _ _ pk Hlive). }
  destruct (Z.eq_dec (ip_p (mem (env s)) (Packet.ip_header pk)) IP_PROTO_TCP)
    as [Hproto | Hproto].
  2: { right. exists CheckTCPHeader.NOT_TCP, (tcp_protocol_load pk).
       rewrite (tcp_other_protocol _ _ p s pk Hlive Hnh Hproto).
       apply (tcp_diverted _ _ _ _ pk Hlive). }
  destruct (Z_lt_ge_dec (tcp_header_bytes (env s) pk) sizeof_click_tcp)
    as [Hshort | H1].
  { right. exists CheckTCPHeader.BAD_LENGTH, (tcp_header_loads pk).
    rewrite (tcp_bad_length _ _ p s pk Hlive Hnh Hproto (or_introl Hshort)).
    apply (tcp_diverted _ _ _ _ pk Hlive). }
  destruct (Z_lt_ge_dec (tcp_claimed_length (env s) pk)
                        (tcp_header_bytes (env s) pk)) as [Hshort | H2].
  { right. exists CheckTCPHeader.BAD_LENGTH, (tcp_header_loads pk).
    rewrite (tcp_bad_length _ _ p s pk Hlive Hnh Hproto (or_intror Hshort)).
    apply (tcp_diverted _ _ _ _ pk Hlive). }
  apply Z.ge_le in H1, H2.
  destruct (_checksum (elt s)) eqn:Hon.
  2: { left. exists (tcp_header_loads pk).
       rewrite (tcp_checksum_not_verified _ _ p s pk Hlive Hnh Hproto H1 H2 Hon).
       apply forwarded_intro. }
  rewrite (tcp_checksum_verified _ _ p s pk Hlive Hnh Hproto H1 H2 Hon).
  match goal with
  | |- context [?x =? 0] => destruct (x =? 0)
  end.
  - left. exists (tcp_checksum_loads (env s) pk). apply forwarded_intro.
  - right. exists CheckTCPHeader.BAD_CHECKSUM, (tcp_checksum_loads (env s) pk).
    apply (tcp_diverted _ _ _ _ pk Hlive).
Qed.

Lemma configure_details (verbose details checksum verbose0 : bool) (nout : Z) :
  _reason_drops (configure verbose details checksum (constructor verbose0 nout))
  = if details then Some [0; 0; 0] else None.
Proof. destruct details; reflexivity. Qed.

(** C9: each call of [drop], in both checkers and for every reason,
    returns a null pointer after raising [_drops] by one, raising the
    counter of that reason and of no other when the per-reason counters
    exist (which is when DETAILS was given to [configure]), printing the
    diagnostic exactly when [_drops] was zero or [_verbose] is set, and
    pushing the packet to output 1 when the element has two outputs,
    killing it otherwise; [_count] is not touched.  Every run of
    [simple_action] either forwards the packet or is such a call, made
    with the element as it was on entry. *)
Theorem C9_drop_accounting
  (click_in_cksum : (Z -> Z) -> Z -> Z -> Z)
  (click_in_cksum_pseudohdr : (Z -> Z) -> Z -> Z -> Z -> Z)
  (p : PacketPtr) (s : Stage) (pk : Packet)
  (Hlive : objs (env s) !! address p = Some pk) :
  (forall reason : CheckTCPHeader.Reason,
     drop_contract (tcp_diagnostic reason) (CheckTCPHeader.reason_index reason)
       p s (CheckTCPHeader.drop reason p s))
  /\ (forall reason : CheckUDPHeader.Reason,
     drop_contract (udp_diagnostic reason) (CheckUDPHeader.reason_index reason)
       p s (CheckUDPHeader.drop reason p s))
  /\ ((exists more : list (Z * Z),
         forwarded more p s
           (CheckTCPHeader.simple_action click_in_cksum click_in_cksum_pseudohdr p s))
      \/ (exists (reason : CheckTCPHeader.Reason) (more : list (Z * Z)),
            drop_contract (tcp_diagnostic reason)
              (CheckTCPHeader.reason_index reason) p (after_loads more s)
              (CheckTCPHeader.simple_action click_in_cksum
                 click_in_cksum_pseudohdr p s)))
  /\ ((exists more : list (Z * Z),
         forwarded more p s
           (CheckUDPHeader.simple_action click_in_cksum click_in_cksum_pseudohdr p s))
      \/ (exists (reason : CheckUDPHeader.Reason) (more : list (Z * Z)),
            drop_contract (udp_diagnostic reason)
              (CheckUDPHeader.reason_index reason) p (after_loads more s)
              (CheckUDPHeader.simple_action click_in_cksum
                 click_in_cksum_pseudohdr p s)))
  /\ (forall (verbose details checksum verbose0 : bool) (nout : Z),
        _reason_drops
          (configure verbose details checksum (constructor verbose0 nout))
        = if details then Some [0; 0; 0] else None)
  /\ (forall r r' : CheckTCPHeader.Reason,
        CheckTCPHeader.reason_index r = CheckTCPHeader.reason_index r' -> r = r')
  /\ (forall r r' : CheckUDPHeader.Reason,
        CheckUDPHeader.reason_index r = CheckUDPHeader.reason_index r' -> r = r').
Proof.
  split; [| split; [| split; [| split; [| split; [| split]]]]].
  - intros reason. rewrite <- (after_no_loads s).
    apply (tcp_diverted _ _ _ _ pk Hlive).
  - intros reason. rewrite <- (after_no_loads s).
    apply (udp_diverted _ _ _ _ pk Hlive).
  - apply (tcp_simple_action_cases _ _ p s pk Hlive).
  - apply (udp_simple_action_cases _ _ p s pk Hlive).
  - apply configure_details.
  - intros [] []; simpl; intros H; (reflexivity || discriminate H).
  - intros [] []; simpl; intros H; (reflexivity || discriminate H).
Qed.

Lemma C9_drop_accounting_witness :
  drop_contract (tcp_diagnostic CheckTCPHeader.BAD_LENGTH)
    (CheckTCPHeader.reason_index CheckTCPHeader.BAD_LENGTH) (PacketAt 1000)
    (tcp_stage true tcp_long_segment)
    (CheckTCPHeader.drop CheckTCPHeader.BAD_LENGTH (PacketAt 1000)
       (tcp_stage true tcp_long_segment))
  /\ drop_contract (udp_diagnostic CheckUDPHeader.BAD_CHECKSUM)
       (CheckUDPHeader.reason_index CheckUDPHeader.BAD_CHECKSUM) (PacketAt 1000)
       (udp_stage true (udp_datagram 1 2))
       (CheckUDPHeader.drop CheckUDPHeader.BAD_CHECKSUM (PacketAt 1000)
          (udp_stage true (udp_datagram 1 2))).
Proof.
  split.
  - destruct (C9_drop_accounting spec_in_cksum spec_in_cksum_pseudohdr
                (PacketAt 1000) (tcp_stage true tcp_long_segment) tcp_packet)
      as (Htcp & _).
    + reflexivity.
    + apply Htcp.
  - destruct (C9_drop_accounting spec_in_cksum spec_in_cksum_pseudohdr
                (PacketAt 1000) (udp_stage true (udp_datagram 1 2)) sample_packet)
      as (_ & Hudp & _).
    + reflexivity.
    + apply Hudp.
Defined.

(** A one-output element that drops the only reference to a packet
    leaves no object behind; when it drops one of two references the
    object stays, with [_use_count] 1 and its buffer as it was. *)
Example dropped_packet_is_released :
  (exists s' : Stage,
     CheckUDPHeader.drop CheckUDPHeader.NOT_UDP (PacketAt 1000)
       (udp_stage true (udp_datagram 1 2)) = Some (NULL, s')
     /\ objs (env s') !! 1000 = None)
  /\ (exists s' : Stage,
        CheckTCPHeader.drop CheckTCPHeader.NOT_TCP (PacketAt 1000)
          (mkStage (element_with false true true 1) sample_shared_world)
        = Some (NULL, s')
        /\ objs (env s') !! 1000 = Some (mkPacket 1 0 4096 4124 4153 4224 4124 4144)).
Proof.
  split; (eexists; split; [reflexivity | reflexivity]).
Qed.

(** ** The length check *)

Lemma udp_below_minimum_diverted
  (click_in_cksum : (Z -> Z) -> Z -> Z -> Z)
  (click_in_cksum_pseudohdr : (Z -> Z) -> Z -> Z -> Z -> Z)
  (p : PacketPtr) (s : Stage) (pk : Packet) :
  objs (env s) !! address p = Some pk ->
  has_network_header pk = true ->
  ip_p (mem (env s)) (Packet.ip_header pk) = IP_PROTO_UDP ->
  udp_claimed_length (env s) pk < sizeof_click_udp ->
  drop_contract (udp_diagnostic CheckUDPHeader.BAD_LENGTH)
    (CheckUDPHeader.reason_index CheckUDPHeader.BAD_LENGTH) p
    (after_loads (udp_length_loads pk) s)
    (CheckUDPHeader.simple_action click_in_cksum click_in_cksum_pseudohdr p s).
Proof.
  intros Hlive Hnh Hproto Hshort.
  rewrite (udp_short_length _ _ p s pk Hlive Hnh Hproto Hshort).
  apply (udp_diverted _ _ _ _ pk Hlive).
Qed.

Lemma tcp_below_minimum_diverted
  (click_in_cksum : (Z -> Z) -> Z -> Z -> Z)
  (click_in_cksum_pseudohdr : (Z -> Z) -> Z -> Z -> Z -> Z)
  (p : PacketPtr) (s : Stage) (pk : Packet) :
  objs (env s) !! address p = Some pk ->
  has_network_header pk = true ->
  ip_p (mem (env s)) (Packet.ip_header pk) = IP_PROTO_TCP ->
  tcp_claimed_length (env s) pk < sizeof_click_tcp ->
  drop_contract (tcp_diagnostic CheckTCPHeader.BAD_LENGTH)
    (CheckTCPHeader.reason_index CheckTCPHeader.BAD_LENGTH) p
    (after_loads (tcp_header_loads pk) s)
    (CheckTCPHeader.simple_action click_in_cksum click_in_cksum_pseudohdr p s).
Proof.
  intros Hlive Hnh Hproto Hshort.
  rewrite (tcp_bad_length _ _ p s pk Hlive Hnh Hproto).
  - apply (tcp_diverted _ _ _ _ pk Hlive).
  - destruct (Z_lt_ge_dec (tcp_header_bytes (env s) pk) sizeof_click_tcp)
      as [Hhdr | Hhdr]; [left; exact Hhdr | right; lia].
Qed.

(** C1: the comparison of the claimed length with the bytes the packet
    holds is computed into [is_long] and never consulted.  A live UDP
    packet with a network header, protocol 17 and a claimed length of at
    least 8 for which [is_long] is true is forwarded and counted as
    accepted when its checksum field is 0 or [_checksum] is off; so is a
    TCP packet with protocol 6, a TCP header length of at least 20 and at
    most the claimed length, and [is_long] true, when [_checksum] is off.
    Neither is diverted with BAD_LENGTH. *)
Theorem C1_long_packet_not_diverted
  (click_in_cksum : (Z -> Z) -> Z -> Z -> Z)
  (click_in_cksum_pseudohdr : (Z -> Z) -> Z -> Z -> Z -> Z)
  (p : PacketPtr) (s : Stage) (pk : Packet)
  (Hlive : objs (env s) !! address p = Some pk)
  (Hnh : has_network_header pk = true) :
  (ip_p (mem (env s)) (Packet.ip_header pk) = IP_PROTO_UDP ->
   sizeof_click_udp <= udp_claimed_length (env s) pk ->
   udp_is_long (env s) pk = true ->
   uh_sum (mem (env s)) (udp_header pk) = 0 \/ _checksum (elt s) = false ->
   forwarded (udp_header_loads pk) p s
     (CheckUDPHeader.simple_action click_in_cksum click_in_cksum_pseudohdr p s))
  /\ (ip_p (mem (env s)) (Packet.ip_header pk) = IP_PROTO_TCP ->
      sizeof_click_tcp <= tcp_header_bytes (env s) pk ->
      tcp_header_bytes (env s) pk <= tcp_claimed_length (env s) pk ->
      tcp_is_long (env s) pk = true ->
      _checksum (elt s) = false ->
      forwarded (tcp_header_loads pk) p s
        (CheckTCPHeader.simple_action click_in_cksum click_in_cksum_pseudohdr p s)).
Proof.
  split.
  - intros Hproto Hlen _ Hsum.
    rewrite (udp_checksum_not_verified _ _ p s pk Hlive Hnh Hproto Hlen Hsum).
    apply forwarded_intro.
  - intros Hproto H1 H2 _ Hoff.
    rewrite (tcp_checksum_not_verified _ _ p s pk Hlive Hnh Hproto H1 H2 Hoff).
    apply forwarded_intro.
Qed.

Lemma C1_long_packet_not_diverted_witness :
  forwarded (udp_header_loads sample_packet) (PacketAt 1000)
    (udp_stage true udp_long_datagram)
    (CheckUDPHeader.simple_action spec_in_cksum spec_in_cksum_pseudohdr
       (PacketAt 1000) (udp_stage true udp_long_datagram))
  /\ forwarded (tcp_header_loads tcp_packet) (PacketAt 1000)
       (tcp_stage false tcp_long_segment)
       (CheckTCPHeader.simple_action spec_in_cksum spec_in_cksum_pseudohdr
          (PacketAt 1000) (tcp_stage false tcp_long_segment)).
Proof.
  split.
  - apply (C1_long_packet_not_diverted spec_in_cksum spec_in_cksum_pseudohdr
             (PacketAt 1000) (udp_stage true udp_long_datagram) sample_packet).
    + reflexivity.
    + reflexivity.
    + reflexivity.
    + vm_compute. discriminate.
    + reflexivity.
    + left. reflexivity.
  - apply (C1_long_packet_not_diverted spec_in_cksum spec_in_cksum_pseudohdr
             (PacketAt 1000) (tcp_stage false tcp_long_segment) tcp_packet).
    + reflexivity.
    + reflexivity.
    + reflexivity.
    + vm_compute. discriminate.
    + vm_compute. discriminate.
    + reflexivity.
    + reflexivity.
Defined.

(** ** The checkers on concrete packets *)

(** The datagram that claims 1000 bytes in a packet of 29 is accepted. *)
Example udp_long_datagram_accepted :
  udp_claimed_length (udp_world udp_long_datagram) sample_packet = 1000
  /\ Packet.length sample_packet = 29
  /\ outcome (CheckUDPHeader.simple_action spec_in_cksum spec_in_cksum_pseudohdr
                (PacketAt 1000) (udp_stage true udp_long_datagram))
     = Some (PacketAt 1000, 1, 0, Some [0; 0; 0], []).
Proof. repeat split; vm_compute; reflexivity. Qed.

(** So is the segment that claims 980 bytes in a packet of 40, with the
    checksum switched off. *)
Example tcp_long_segment_accepted :
  tcp_claimed_length (tcp_world tcp_long_segment) tcp_packet = 980
  /\ Packet.length tcp_packet = 40
  /\ outcome (CheckTCPHeader.simple_action spec_in_cksum spec_in_cksum_pseudohdr
                (PacketAt 1000) (tcp_stage false tcp_long_segment))
     = Some (PacketAt 1000, 1, 0, Some [0; 0; 0], []).
Proof. repeat split; vm_compute; reflexivity. Qed.

(** A datagram with a correct checksum passes, one with a wrong checksum
    is dropped for that reason, and the same one passes when the checksum
    is not verified. *)
Example udp_checksum_scenarios :
  outcome (CheckUDPHeader.simple_action spec_in_cksum spec_in_cksum_pseudohdr
             (PacketAt 1000) (udp_stage true (udp_datagram 165 210)))
  = Some (PacketAt 1000, 1, 0, Some [0; 0; 0], [])
  /\ outcome (CheckUDPHeader.simple_action spec_in_cksum spec_in_cksum_pseudohdr
                (PacketAt 1000) (udp_stage true (udp_datagram 1 2)))
     = Some (NULL, 0, 1, Some [0; 0; 1], [])
  /\ outcome (CheckUDPHeader.simple_action spec_in_cksum spec_in_cksum_pseudohdr
                (PacketAt 1000) (udp_stage false (udp_datagram 1 2)))
     = Some (PacketAt 1000, 1, 0, Some [0; 0; 0], []).
Proof. repeat split; vm_compute; reflexivity. Qed.

(** A UDP datagram given to the TCP checker of an element with two
    outputs goes to output 1, counted under "not TCP". *)
Example tcp_checker_diverts_udp :
  outcome (CheckTCPHeader.simple_action spec_in_cksum spec_in_cksum_pseudohdr
             (PacketAt 1000)
             (mkStage (element_with false true true 2)
                      (udp_world (udp_datagram 165 210))))
  = Some (NULL, 0, 1, Some [1; 0; 0], [(1, PacketAt 1000)]).
Proof. vm_compute. reflexivity. Qed.

(** A well-formed TCP segment with a valid checksum is forwarded; with a
    wrong checksum it is dropped as "bad TCP checksum"; with a data offset
    of 4 words, less than a TCP header, as "bad packet length". *)
Example tcp_scenarios :
  outcome (CheckTCPHeader.simple_action spec_in_cksum spec_in_cksum_pseudohdr
             (PacketAt 1000) (tcp_stage true (tcp_segment 80 134 175)))
  = Some (PacketAt 1000, 1, 0, Some [0; 0; 0], [])
  /\ outcome (CheckTCPHeader.simple_action spec_in_cksum spec_in_cksum_pseudohdr
                (PacketAt 1000) (tcp_stage true (tcp_segment 80 134 174)))
     = Some (NULL, 0, 1, Some [0; 0; 1], [])
  /\ outcome (CheckTCPHeader.simple_action spec_in_cksum spec_in_cksum_pseudohdr
                (PacketAt 1000) (tcp_stage true (tcp_segment 64 134 175)))
     = Some (NULL, 0, 1, Some [0; 1; 0], []).
Proof. repeat split; vm_compute; reflexivity. Qed.

(** The first drop is printed, the second is not unless VERBOSE is set. *)
Example second_drop_is_silent :
  (match CheckUDPHeader.drop CheckUDPHeader.NOT_UDP (PacketAt 1000)
           (udp_stage true (udp_datagram 0 0)) with
   | Some (_, s1) =>
       (List.length (chatter (env s1)),
        match CheckUDPHeader.drop CheckUDPHeader.BAD_LENGTH (PacketAt 1000)
                (mkStage (elt s1) (udp_world (udp_datagram 0 0))) with
        | Some (_, s2) => Some (List.length (chatter (env s2)), _drops (elt s2),
                                _reason_drops (elt s2))
        | None => None
        end)
   | None => (0%nat, None)
   end)
  = (1%nat, Some (0%nat, 2, Some [1; 1; 0])).
Proof. vm_compute. reflexivity. Qed.

(** * Further properties of the packet operations *)

(** ** [change_headroom_and_length] *)

(** X1: [change_headroom_and_length(h, l)] on a live packet whose buffer
    length fits an [unsigned]: when [h + l] does not exceed
    [buffer_length()] the packet afterwards has [headroom() == h] and
    [length() == l], satisfies the region invariant and keeps its buffer;
    when the sum the code forms exceeds [buffer_length()] the call changes
    nothing.  The guard is on the [unsigned] sum: when [h + l] overflows
    and the wrapped sum is within [buffer_length()], the call moves
    [tail] beyond the end of the buffer. *)
Theorem X1_change_headroom_and_length
  (this : PacketPtr) (h l : Z) (w : World) (p : Packet)
  (Hlive : objs w !! address this = Some p)
  (Hhead : _head p <= _end p)
  (Hfits : buffer_fits p)
  (Hh : is_unsigned h) (Hl : is_unsigned l) :
  (h + l <= Packet.buffer_length p ->
     exists p' : Packet,
       Packet.change_headroom_and_length this h l w
       = Some (tt, in_place this p' w)
       /\ p' = with_region p (_head p + h) (_head p + h + l)
       /\ region_ok p'
       /\ Packet.headroom p' = h
       /\ Packet.length p' = l
       /\ Packet.tailroom p' = Packet.buffer_length p - h - l
       /\ Packet.buffer_length p' = Packet.buffer_length p)
  /\ (to_unsigned (h + l) > Packet.buffer_length p ->
      Packet.change_headroom_and_length this h l w = Some (tt, w))
  /\ (two32 <= h + l -> to_unsigned (h + l) <= Packet.buffer_length p ->
      exists p' : Packet,
        Packet.change_headroom_and_length this h l w
        = Some (tt, in_place this p' w)
        /\ _end p < _tail p').
Proof.
  assert (Hbuf : Packet.buffer_length p = _end p - _head p).
  { unfold Packet.buffer_length. apply to_unsigned_small.
    unfold buffer_fits in Hfits. lia. }
  unfold buffer_fits in Hfits. destruct Hh as [Hh0 Hh32]. destruct Hl as [Hl0 Hl32].
  split.
  - intros Hsum.
    assert (Hsmall : to_unsigned (h + l) = h + l).
    { apply to_unsigned_small. lia. }
    exists (with_region p (_head p + h) (_head p + h + l)).
    split.
    { unfold Packet.change_headroom_and_length. run_member Hlive.
      rewrite Hsmall.
      destruct (Z.leb_spec (h + l) (Packet.buffer_length p)) as [_ | Hgt];
        [reflexivity | lia]. }
    split; [reflexivity |].
    unfold with_region, region_ok, Packet.headroom, Packet.length,
      Packet.tailroom, Packet.buffer_length in *. simpl.
    split; [lia |].
    split; [rewrite to_unsigned_small; lia |].
    split; [rewrite to_unsigned_small; lia |].
    split; [rewrite to_unsigned_small; lia | reflexivity].
  - split.
    + intros Hsum. unfold Packet.change_headroom_and_length. run_member Hlive.
      destruct (Z.leb_spec (to_unsigned (h + l)) (Packet.buffer_length p))
        as [Hle | _]; [lia | reflexivity].
    + intros Hwrap Hsum.
      exists (with_region p (_head p + h) (_head p + h + l)). split.
      * unfold Packet.change_headroom_and_length. run_member Hlive.
        destruct (Z.leb_spec (to_unsigned (h + l)) (Packet.buffer_length p))
          as [_ | Hgt]; [reflexivity | lia].
      * unfold with_region. simpl. lia.
Qed.

Lemma X1_change_headroom_and_length_witness :
  (exists p' : Packet,
     Packet.change_headroom_and_length (PacketAt 1000) 14 60 sample_world
     = Some (tt, in_place (PacketAt 1000) p' sample_world)
     /\ p' = with_region sample_packet (_head sample_packet + 14)
                         (_head sample_packet + 14 + 60)
     /\ region_ok p'
     /\ Packet.headroom p' = 14
     /\ Packet.length p' = 60
     /\ Packet.tailroom p' = Packet.buffer_length sample_packet - 14 - 60
     /\ Packet.buffer_length p' = Packet.buffer_length sample_packet)
  /\ Packet.change_headroom_and_length (PacketAt 1000) 100 60 sample_world
     = Some (tt, sample_world)
  /\ (exists p' : Packet,
        Packet.change_headroom_and_length (PacketAt 1000) 4294967295 2
          sample_world
        = Some (tt, in_place (PacketAt 1000) p' sample_world)
        /\ _end sample_packet < _tail p').
Proof.
  split; [| split].
  - apply (X1_change_headroom_and_length (PacketAt 1000) 14 60 sample_world
             sample_packet).
    + reflexivity.
    + simpl; lia.
    + unfold buffer_fits, two32; simpl; lia.
    + unfold is_unsigned, two32; lia.
    + unfold is_unsigned, two32; lia.
    + vm_compute; discriminate.
  - apply (X1_change_headroom_and_length (PacketAt 1000) 100 60 sample_world
             sample_packet).
    + reflexivity.
    + simpl; lia.
    + unfold buffer_fits, two32; simpl; lia.
    + unfold is_unsigned, two32; lia.
    + unfold is_unsigned, two32; lia.
    + reflexivity.
  - apply (X1_change_headroom_and_length (PacketAt 1000) 4294967295 2
             sample_world sample_packet).
    + reflexivity.
    + simpl; lia.
    + unfold buffer_fits, two32; simpl; lia.
    + unfold is_unsigned, two32; lia.
    + unfold is_unsigned, two32; lia.
    + unfold two32; lia.
    + vm_compute; discriminate.
Defined.

(** ** Reference counting with [kill] *)

Lemma set_use_count_twice (p : Packet) (a b : Z) :
  set_use_count (set_use_count p a) b = set_use_count p b.
Proof. reflexivity. Qed.

Lemma set_use_count_same (p : Packet) : set_use_count p (_use_count p) = p.
Proof. destruct p. reflexivity. Qed.

Lemma kills_S (n : nat) (this : PacketPtr) (w : World) :
  kills (S n) this w
  = match Packet.kill this w with
    | Some (_, w') => kills n this w'
    | None => None
    end.
Proof. cbn [kills]. unfold bind. destruct (Packet.kill this w) as [[[] w'] |]; reflexivity. Qed.

Lemma kills_some_left (j : nat) :
  forall (this : PacketPtr) (w : World) (p : Packet),
    objs w !! address this = Some p ->
    Z.of_nat j < _use_count p ->
    kills j this w
    = Some (tt, in_place this (set_use_count p (_use_count p - Z.of_nat j)) w).
Proof.
  induction j as [| j IH]; intros this w p Hlive Hcount.
  - simpl. unfold ret. rewrite Z.sub_0_r, set_use_count_same.
    rewrite (in_place_same this p w Hlive). reflexivity.
  - rewrite kills_S, (kill_live this w p Hlive).
    destruct (Z.leb_spec (_use_count p - 1) 0) as [Hle | Hgt]; [lia |].
    rewrite (IH this _ (set_use_count p (_use_count p - 1)));
      [| apply in_place_lookup | simpl; lia].
    rewrite in_place_twice, set_use_count_twice.
    cbn [_use_count set_use_count].
    replace (_use_count p - 1 - Z.of_nat j)
      with (_use_count p - Z.of_nat (S j)) by lia.
    reflexivity.
Qed.

Lemma kills_all (k : nat) :
  forall (this : PacketPtr) (w : World) (p : Packet),
    objs w !! address this = Some p ->
    _use_count p = Z.of_nat (S k) ->
    kills (S k) this w
    = Some (tt, with_objs (delete (address this) (objs w)) w).
Proof.
  induction k as [| k IH]; intros this w p Hlive Hcount.
  - rewrite kills_S, (kill_live this w p Hlive).
    destruct (Z.leb_spec (_use_count p - 1) 0) as [_ | Hgt]; [reflexivity | lia].
  - rewrite kills_S, (kill_live this w p Hlive).
    destruct (Z.leb_spec (_use_count p - 1) 0) as [Hle | _]; [lia |].
    rewrite (IH this _ (set_use_count p (_use_count p - 1)));
      [| apply in_place_lookup | simpl; lia].
    unfold in_place, with_objs. simpl. rewrite delete_insert_eq. reflexivity.
Qed.

Lemma kill_released (this : PacketPtr) (w : World) :
  objs w !! address this = None -> Packet.kill this w = None.
Proof.
  intros Hdead. unfold Packet.kill, bind, deref. rewrite Hdead. reflexivity.
Qed.

(** X2: a live packet whose [_use_count] is [k >= 1] survives [j < k]
    calls of [kill()], with [_use_count] lowered to [k - j] and nothing
    else changed; the [k]-th call deletes the object; and a further call
    through the same pointer is undefined. *)
Theorem X2_kill_releases_at_last_user
  (this : PacketPtr) (w : World) (p : Packet) (k j : nat)
  (Hlive : objs w !! address this = Some p)
  (Hcount : _use_count p = Z.of_nat k)
  (Hk : (1 <= k)%nat)
  (Hj : (j < k)%nat) :
  kills j this w
  = Some (tt, in_place this (set_use_count p (Z.of_nat k - Z.of_nat j)) w)
  /\ kills k this w = Some (tt, with_objs (delete (address this) (objs w)) w)
  /\ kills (S k) this w = None.
Proof.
  destruct k as [| k]; [lia |].
  split; [| split].
  - rewrite <- Hcount. apply kills_some_left; [exact Hlive | lia].
  - apply (kills_all k this w p Hlive Hcount).
  - assert (Hsplit : forall n (v : World),
              kills n this v = Some (tt, with_objs (delete (address this) (objs w)) w) ->
              kills (S n) this v = None).
    { induction n as [| n IH]; intros v Hv.
      - simpl in Hv. unfold ret in Hv. injection Hv as ->.
        rewrite kills_S, kill_released; [reflexivity |].
        simpl. apply lookup_delete_eq.
      - rewrite kills_S in Hv. rewrite kills_S.
        destruct (Packet.kill this v) as [[[] v'] |]; [| reflexivity].
        apply IH. exact Hv. }
    apply Hsplit. apply (kills_all k this w p Hlive Hcount).
Qed.

Lemma X2_kill_releases_at_last_user_witness :
  kills 1 (PacketAt 1000) sample_shared_world
  = Some (tt, in_place (PacketAt 1000)
                (set_use_count sample_shared_packet (Z.of_nat 2 - Z.of_nat 1))
                sample_shared_world)
  /\ kills 2 (PacketAt 1000) sample_shared_world
     = Some (tt, with_objs (delete (address (PacketAt 1000))
                                   (objs sample_shared_world))
                           sample_shared_world)
  /\ kills 3 (PacketAt 1000) sample_shared_world = None.
Proof.
  apply (X2_kill_releases_at_last_user (PacketAt 1000) sample_shared_world
           sample_shared_packet 2 1).
  - reflexivity.
  - reflexivity.
  - lia.
  - lia.
Defined.

(** ** How the operations compose *)

Lemma pull_result (this : PacketPtr) (n : Z) (w : World) (p : Packet) :
  objs w !! address this = Some p ->
  exists w' : World,
    Packet.pull this n w = Some (tt, w')
    /\ objs w' = <[address this :=
                     set_data p (_data p + Z.min n (Packet.length p))]> (objs w)
    /\ mem w' = mem w.
Proof.
  intros Hlive. destruct (Z_le_gt_dec n (Packet.length p)) as [Hle | Hgt].
  - rewrite (pull_within this n w p Hlive Hle). eexists. split; [reflexivity |].
    rewrite Z.min_l by exact Hle. split; reflexivity.
  - rewrite (pull_beyond this n w p Hlive Hgt). eexists. split; [reflexivity |].
    rewrite Z.min_r by lia. split; reflexivity.
Qed.

Lemma take_result (this : PacketPtr) (n : Z) (w : World) (p : Packet) :
  objs w !! address this = Some p ->
  exists w' : World,
    Packet.take this n w = Some (tt, w')
    /\ objs w' = <[address this :=
                     set_tail p (_tail p - Z.min n (Packet.length p))]> (objs w)
    /\ mem w' = mem w.
Proof.
  intros Hlive. destruct (Z_le_gt_dec n (Packet.length p)) as [Hle | Hgt].
  - rewrite (take_within this n w p Hlive Hle). eexists. split; [reflexivity |].
    rewrite Z.min_l by exact Hle. split; reflexivity.
  - rewrite (take_beyond this n w p Hlive Hgt). eexists. split; [reflexivity |].
    rewrite Z.min_r by lia. split; reflexivity.
Qed.

(** X3: on a live well-formed packet, [pull(a)] followed by [pull(b)]
    leaves the same packet objects and the same memory as [pull(a + b)],
    clamping included, as long as [a + b] is itself an [unsigned]; and so
    does [take].  (The diagnostics printed may differ.) *)
Theorem X3_pull_take_additive
  (this : PacketPtr) (a b : Z) (w : World) (p : Packet)
  (Hlive : objs w !! address this = Some p)
  (Hok : region_ok p)
  (Hfits : buffer_fits p)
  (Ha : is_unsigned a) (Hb : is_unsigned b)
  (Hab : a + b < two32) :
  (exists w1 w2 : World,
     (Packet.pull this a >> Packet.pull this b) w = Some (tt, w1)
     /\ Packet.pull this (a + b) w = Some (tt, w2)
     /\ objs w1 = objs w2 /\ mem w1 = mem w2)
  /\ (exists w1 w2 : World,
     (Packet.take this a >> Packet.take this b) w = Some (tt, w1)
     /\ Packet.take this (a + b) w = Some (tt, w2)
     /\ objs w1 = objs w2 /\ mem w1 = mem w2).
Proof.
  pose proof (length_exact p Hok Hfits) as Hlen.
  destruct Hok as (H1 & H2 & H3). unfold buffer_fits in Hfits.
  destruct Ha as [Ha0 _]. destruct Hb as [Hb0 _].
  split.
  - destruct (pull_result this a w p Hlive) as (wa & Hpa & Hoa & Hma).
    set (pa := set_data p (_data p + Z.min a (Packet.length p))) in *.
    assert (Hla : objs wa !! address this = Some pa).
    { rewrite Hoa. apply lookup_insert_eq. }
    destruct (pull_result this b wa pa Hla) as (wb & Hpb & Hob & Hmb).
    destruct (pull_result this (a + b) w p Hlive) as (wc & Hpc & Hoc & Hmc).
    exists wb, wc. unfold bind. rewrite Hpa.
    split; [exact Hpb |]. split; [exact Hpc |].
    split; [| congruence].
    rewrite Hob, Hoc, Hoa, insert_insert_eq. f_equal.
    assert (Hlpa : Packet.length pa = Packet.length p - Z.min a (Packet.length p)).
    { unfold pa, Packet.length in *. simpl. rewrite to_unsigned_small; lia. }
    rewrite Hlpa. unfold pa, set_data. simpl. f_equal. lia.
  - destruct (take_result this a w p Hlive) as (wa & Hpa & Hoa & Hma).
    set (pa := set_tail p (_tail p - Z.min a (Packet.length p))) in *.
    assert (Hla : objs wa !! address this = Some pa).
    { rewrite Hoa. apply lookup_insert_eq. }
    destruct (take_result this b wa pa Hla) as (wb & Hpb & Hob & Hmb).
    destruct (take_result this (a + b) w p Hlive) as (wc & Hpc & Hoc & Hmc).
    exists wb, wc. unfold bind. rewrite Hpa.
    split; [exact Hpb |]. split; [exact Hpc |].
    split; [| congruence].
    rewrite Hob, Hoc, Hoa, insert_insert_eq. f_equal.
    assert (Hlpa : Packet.length pa = Packet.length p - Z.min a (Packet.length p)).
    { unfold pa, Packet.length in *. simpl. rewrite to_unsigned_small; lia. }
    rewrite Hlpa. unfold pa, set_tail. simpl. f_equal. lia.
Qed.

Lemma X3_pull_take_additive_witness :
  (exists w1 w2 : World,
     (Packet.pull (PacketAt 1000) 20 >> Packet.pull (PacketAt 1000) 20)
       sample_world = Some (tt, w1)
     /\ Packet.pull (PacketAt 1000) (20 + 20) sample_world = Some (tt, w2)
     /\ objs w1 = objs w2 /\ mem w1 = mem w2)
  /\ (exists w1 w2 : World,
     (Packet.take (PacketAt 1000) 20 >> Packet.take (PacketAt 1000) 20)
       sample_world = Some (tt, w1)
     /\ Packet.take (PacketAt 1000) (20 + 20) sample_world = Some (tt, w2)
     /\ objs w1 = objs w2 /\ mem w1 = mem w2).
Proof.
  apply (X3_pull_take_additive (PacketAt 1000) 20 20 sample_world sample_packet).
  - reflexivity.
  - unfold region_ok; simpl; lia.
  - unfold buffer_fits, two32; simpl; lia.
  - unfold is_unsigned, two32; lia.
  - unfold is_unsigned, two32; lia.
  - unfold two32; lia.
Defined.

Lemma moved_data_accessors (p : Packet) (n : Z) :
  region_ok p -> buffer_fits p -> 0 <= n -> Packet.headroom p >= n ->
  Packet.headroom (set_data p (_data p - n)) = Packet.headroom p - n
  /\ Packet.length (set_data p (_data p - n)) = Packet.length p + n
  /\ Packet.tailroom (set_data p (_data p - n)) = Packet.tailroom p
  /\ Packet.buffer_length (set_data p (_data p - n)) = Packet.buffer_length p
  /\ Packet.shared (set_data p (_data p - n)) = Packet.shared p.
Proof.
  intros Hok Hfits Hn Hroom.
  pose proof (headroom_exact p Hok Hfits) as Hh.
  pose proof (length_exact p Hok Hfits) as Hl.
  destruct Hok as (H1 & H2 & H3). unfold buffer_fits in Hfits.
  unfold Packet.headroom, Packet.length, Packet.tailroom, Packet.buffer_length,
    Packet.shared in *. simpl.
  rewrite Hh, Hl. rewrite Hh in Hroom.
  split; [rewrite to_unsigned_small; lia |].
  split; [rewrite to_unsigned_small; lia |].
  repeat split; reflexivity.
Qed.

Lemma moved_tail_accessors (p : Packet) (n : Z) :
  region_ok p -> buffer_fits p -> 0 <= n -> Packet.tailroom p >= n ->
  Packet.tailroom (set_tail p (_tail p + n)) = Packet.tailroom p - n
  /\ Packet.length (set_tail p (_tail p + n)) = Packet.length p + n
  /\ Packet.headroom (set_tail p (_tail p + n)) = Packet.headroom p
  /\ Packet.buffer_length (set_tail p (_tail p + n)) = Packet.buffer_length p
  /\ Packet.shared (set_tail p (_tail p + n)) = Packet.shared p.
Proof.
  intros Hok Hfits Hn Hroom.
  pose proof (tailroom_exact p Hok Hfits) as Ht.
  pose proof (length_exact p Hok Hfits) as Hl.
  destruct Hok as (H1 & H2 & H3). unfold buffer_fits in Hfits.
  unfold Packet.headroom, Packet.length, Packet.tailroom, Packet.buffer_length,
    Packet.shared in *. simpl.
  rewrite Ht, Hl. rewrite Ht in Hroom.
  split; [rewrite to_unsigned_small; lia |].
  split; [rewrite to_unsigned_small; lia |].
  repeat split; reflexivity.
Qed.

(** X4: on a live, unshared, well-formed packet with
    [headroom() >= a + b], [push(a)] followed by [push(b)] is [push(a + b)]:
    same handle, same world; and with [tailroom() >= a + b] the same
    holds for [put]. *)
Theorem X4_push_put_additive
  (expensive_push expensive_put : PacketPtr -> Z -> M World WritablePacketPtr)
  (this : PacketPtr) (a b : Z) (w : World) (p : Packet)
  (Hlive : objs w !! address this = Some p)
  (Hok : region_ok p)
  (Hfits : buffer_fits p)
  (Ha : is_unsigned a) (Hb : is_unsigned b)
  (Hunshared : Packet.shared p = false) :
  (Packet.headroom p >= a + b ->
     (let* q := Packet.push expensive_push this a in
      Packet.push expensive_push (as_Packet q) b) w
     = Packet.push expensive_push this (a + b) w)
  /\ (Packet.tailroom p >= a + b ->
     (let* q := Packet.put expensive_put this a in
      Packet.put expensive_put (as_Packet q) b) w
     = Packet.put expensive_put this (a + b) w).
Proof.
  destruct Ha as [Ha0 _]. destruct Hb as [Hb0 _].
  split; intros Hroom.
  - destruct (moved_data_accessors p a Hok Hfits Ha0) as (Hh & _ & _ & _ & Hs);
      [lia |].
    unfold bind.
    rewrite (push_fast _ this a w p Hlive) by (lia || assumption).
    rewrite cast_back.
    rewrite (push_fast _ this b _ (set_data p (_data p - a)));
      [| apply in_place_lookup | rewrite Hh; lia | rewrite Hs; exact Hunshared].
    rewrite (push_fast _ this (a + b) w p Hlive) by (lia || assumption).
    rewrite in_place_twice. simpl.
    replace (_data p - a - b) with (_data p - (a + b)) by lia. reflexivity.
  - destruct (moved_tail_accessors p a Hok Hfits Ha0) as (Hh & _ & _ & _ & Hs);
      [lia |].
    unfold bind.
    rewrite (put_fast _ this a w p Hlive) by (lia || assumption).
    rewrite cast_back.
    rewrite (put_fast _ this b _ (set_tail p (_tail p + a)));
      [| apply in_place_lookup | rewrite Hh; lia | rewrite Hs; exact Hunshared].
    rewrite (put_fast _ this (a + b) w p Hlive) by (lia || assumption).
    rewrite in_place_twice. simpl.
    replace (_tail p + a + b) with (_tail p + (a + b)) by lia. reflexivity.
Qed.

Lemma X4_push_put_additive_witness :
  (let* q := Packet.push oom_resize (PacketAt 1000) 14 in
   Packet.push oom_resize (as_Packet q) 4) sample_world
  = Packet.push oom_resize (PacketAt 1000) (14 + 4) sample_world
  /\ (let* q := Packet.put oom_resize (PacketAt 1000) 14 in
      Packet.put oom_resize (as_Packet q) 4) sample_world
     = Packet.put oom_resize (PacketAt 1000) (14 + 4) sample_world.
Proof.
  destruct (X4_push_put_additive oom_resize oom_resize (PacketAt 1000) 14 4
              sample_world sample_packet) as [Hpush Hput].
  - reflexivity.
  - unfold region_ok; simpl; lia.
  - unfold buffer_fits, two32; simpl; lia.
  - unfold is_unsigned, two32; lia.
  - unfold is_unsigned, two32; lia.
  - reflexivity.
  - split; [apply Hpush | apply Hput]; vm_compute; discriminate.
Defined.

(** X5: an in-place [push(n)] on a live well-formed packet lowers
    [headroom()] by [n], raises [length()] by [n] and leaves [tailroom()]
    and [buffer_length()] as they were; an in-place [put(n)] lowers
    [tailroom()] by [n], raises [length()] by [n] and leaves [headroom()]
    and [buffer_length()]. *)
Theorem X5_push_put_accessors
  (expensive_push expensive_put : PacketPtr -> Z -> M World WritablePacketPtr)
  (this : PacketPtr) (n : Z) (w : World) (p : Packet)
  (Hlive : objs w !! address this = Some p)
  (Hok : region_ok p)
  (Hfits : buffer_fits p)
  (Hn : is_unsigned n)
  (Hunshared : Packet.shared p = false) :
  (Packet.headroom p >= n ->
     exists (q : WritablePacketPtr) (w' : World) (p' : Packet),
       Packet.push expensive_push this n w = Some (q, w')
       /\ objs w' !! address (as_Packet q) = Some p'
       /\ Packet.headroom p' = Packet.headroom p - n
       /\ Packet.length p' = Packet.length p + n
       /\ Packet.tailroom p' = Packet.tailroom p
       /\ Packet.buffer_length p' = Packet.buffer_length p)
  /\ (Packet.tailroom p >= n ->
     exists (q : WritablePacketPtr) (w' : World) (p' : Packet),
       Packet.put expensive_put this n w = Some (q, w')
       /\ objs w' !! address (as_Packet q) = Some p'
       /\ Packet.tailroom p' = Packet.tailroom p - n
       /\ Packet.length p' = Packet.length p + n
       /\ Packet.headroom p' = Packet.headroom p
       /\ Packet.buffer_length p' = Packet.buffer_length p).
Proof.
  destruct Hn as [Hn0 _].
  split; intros Hroom.
  - destruct (moved_data_accessors p n Hok Hfits Hn0 Hroom)
      as (Hh & Hl & Ht & Hb & _).
    eexists _, _, _.
    split; [apply (push_fast _ this n w p Hlive Hroom Hunshared) |].
    rewrite cast_back. split; [apply in_place_lookup |]. auto.
  - destruct (moved_tail_accessors p n Hok Hfits Hn0 Hroom)
      as (Ht & Hl & Hh & Hb & _).
    eexists _, _, _.
    split; [apply (put_fast _ this n w p Hlive Hroom Hunshared) |].
    rewrite cast_back. split; [apply in_place_lookup |]. auto.
Qed.

Lemma X5_push_put_accessors_witness :
  (exists (q : WritablePacketPtr) (w' : World) (p' : Packet),
     Packet.push oom_resize (PacketAt 1000) 14 sample_world = Some (q, w')
     /\ objs w' !! address (as_Packet q) = Some p'
     /\ Packet.headroom p' = Packet.headroom sample_packet - 14
     /\ Packet.length p' = Packet.length sample_packet + 14
     /\ Packet.tailroom p' = Packet.tailroom sample_packet
     /\ Packet.buffer_length p' = Packet.buffer_length sample_packet)
  /\ (exists (q : WritablePacketPtr) (w' : World) (p' : Packet),
     Packet.put oom_resize (PacketAt 1000) 14 sample_world = Some (q, w')
     /\ objs w' !! address (as_Packet q) = Some p'
     /\ Packet.tailroom p' = Packet.tailroom sample_packet - 14
     /\ Packet.length p' = Packet.length sample_packet + 14
     /\ Packet.headroom p' = Packet.headroom sample_packet
     /\ Packet.buffer_length p' = Packet.buffer_length sample_packet).
Proof.
  destruct (X5_push_put_accessors oom_resize oom_resize (PacketAt 1000) 14
              sample_world sample_packet) as [Hpush Hput].
  - reflexivity.
  - unfold region_ok; simpl; lia.
  - unfold buffer_fits, two32; simpl; lia.
  - unfold is_unsigned, two32; lia.
  - reflexivity.
  - split; [apply Hpush | apply Hput]; vm_compute; discriminate.
Defined.

Lemma set_data_forth (p : Packet) (n : Z) :
  set_data (set_data p (_data p + n)) (_data p + n - n) = p.
Proof. destruct p. unfold set_data. simpl. f_equal. lia. Qed.

Lemma set_tail_forth (p : Packet) (n : Z) :
  set_tail (set_tail p (_tail p - n)) (_tail p - n + n) = p.
Proof. destruct p. unfold set_tail. simpl. f_equal. lia. Qed.

(** X6: on a live, unshared, well-formed packet and for [n <= length()],
    [pull(n)] followed by [push(n)] gives back the handle and the world it
    started from, and so does [take(n)] followed by [put(n)]: a header
    that was stripped can be restored in place, bytes included. *)
Theorem X6_pull_push_take_put_round_trip
  (expensive_push expensive_put : PacketPtr -> Z -> M World WritablePacketPtr)
  (this : PacketPtr) (n : Z) (w : World) (p : Packet)
  (Hlive : objs w !! address this = Some p)
  (Hok : region_ok p)
  (Hfits : buffer_fits p)
  (Hn : is_unsigned n)
  (Hunshared : Packet.shared p = false)
  (Hlen : n <= Packet.length p) :
  (Packet.pull this n >> Packet.push expensive_push this n) w
  = Some (static_cast_WritablePacket this, w)
  /\ (Packet.take this n >> Packet.put expensive_put this n) w
     = Some (static_cast_WritablePacket this, w).
Proof.
  pose proof (headroom_exact p Hok Hfits) as Hh.
  pose proof (tailroom_exact p Hok Hfits) as Ht.
  pose proof (length_exact p Hok Hfits) as Hl.
  destruct Hok as (H1 & H2 & H3). unfold buffer_fits in Hfits.
  destruct Hn as [Hn0 _].
  split; unfold bind.
  - rewrite (pull_within this n w p Hlive Hlen).
    rewrite (push_fast _ this n _ (set_data p (_data p + n)));
      [| apply in_place_lookup | | exact Hunshared].
    + rewrite in_place_twice. simpl. rewrite set_data_forth.
      rewrite (in_place_same this p w Hlive). reflexivity.
    + unfold Packet.headroom. simpl. rewrite to_unsigned_small; lia.
  - rewrite (take_within this n w p Hlive Hlen).
    rewrite (put_fast _ this n _ (set_tail p (_tail p - n)));
      [| apply in_place_lookup | | exact Hunshared].
    + rewrite in_place_twice. simpl. rewrite set_tail_forth.
      rewrite (in_place_same this p w Hlive). reflexivity.
    + unfold Packet.tailroom. simpl. rewrite to_unsigned_small; lia.
Qed.

Lemma X6_pull_push_take_put_round_trip_witness :
  (Packet.pull (PacketAt 1000) 20 >> Packet.push oom_resize (PacketAt 1000) 20)
    sample_world
  = Some (static_cast_WritablePacket (PacketAt 1000), sample_world)
  /\ (Packet.take (PacketAt 1000) 20 >> Packet.put oom_resize (PacketAt 1000) 20)
       sample_world
     = Some (static_cast_WritablePacket (PacketAt 1000), sample_world).
Proof.
  apply (X6_pull_push_take_put_round_trip oom_resize oom_resize (PacketAt 1000)
           20 sample_world sample_packet).
  - reflexivity.
  - unfold region_ok; simpl; lia.
  - unfold buffer_fits, two32; simpl; lia.
  - unfold is_unsigned, two32; lia.
  - reflexivity.
  - vm_compute; discriminate.
Defined.

(** X7: on a live packet that is not shared, [nonunique_push(n)] and
    [push(n)] do the same thing for every [n], up to the type of the
    pointer they return, whether the space is there or not; and so do
    [nonunique_put(n)] and [put(n)]. *)
Theorem X7_nonunique_agrees_when_unshared
  (expensive_push expensive_put : PacketPtr -> Z -> M World WritablePacketPtr)
  (this : PacketPtr) (n : Z) (w : World) (p : Packet)
  (Hlive : objs w !! address this = Some p)
  (Hunshared : Packet.shared p = false) :
  Packet.nonunique_push expensive_push this n w
  = as_plain (Packet.push expensive_push this n w)
  /\ Packet.nonunique_put expensive_put this n w
     = as_plain (Packet.put expensive_put this n w).
Proof.
  split.
  - unfold Packet.nonunique_push, Packet.push. run_member Hlive.
    rewrite Hunshared. destruct (Packet.headroom p >=? n); simpl.
    + destruct this. reflexivity.
    + unfold as_plain. destruct (expensive_push this n w) as [[q w'] |]; reflexivity.
  - unfold Packet.nonunique_put, Packet.put. run_member Hlive.
    rewrite Hunshared. destruct (Packet.tailroom p >=? n); simpl.
    + destruct this. reflexivity.
    + unfold as_plain. destruct (expensive_put this n w) as [[q w'] |]; reflexivity.
Qed.

Lemma X7_nonunique_agrees_when_unshared_witness :
  Packet.nonunique_push oom_resize (PacketAt 1000) 14 sample_world
  = as_plain (Packet.push oom_resize (PacketAt 1000) 14 sample_world)
  /\ Packet.nonunique_put oom_resize (PacketAt 1000) 100 sample_world
     = as_plain (Packet.put oom_resize (PacketAt 1000) 100 sample_world).
Proof.
  split.
  - apply (X7_nonunique_agrees_when_unshared oom_resize oom_resize
             (PacketAt 1000) 14 sample_world sample_packet); reflexivity.
  - apply (X7_nonunique_agrees_when_unshared oom_resize oom_resize
             (PacketAt 1000) 100 sample_world sample_packet); reflexivity.
Defined.

Lemma length_nonnegative (p : Packet) : 0 <= Packet.length p.
Proof. unfold Packet.length. apply to_unsigned_range. Qed.

(** X8: zero-byte requests on a live packet.  [pull(0)] and [take(0)]
    change nothing and print nothing; [nonunique_push(0)] and
    [nonunique_put(0)] return the same handle and change nothing, shared
    or not; [push(0)] and [put(0)] do so only when the packet is not
    shared, and on a shared packet they still take the expensive path. *)
Theorem X8_zero_bytes
  (expensive_push expensive_put : PacketPtr -> Z -> M World WritablePacketPtr)
  (this : PacketPtr) (w : World) (p : Packet)
  (Hlive : objs w !! address this = Some p) :
  Packet.pull this 0 w = Some (tt, w)
  /\ Packet.take this 0 w = Some (tt, w)
  /\ Packet.nonunique_push expensive_push this 0 w = Some (this, w)
  /\ Packet.nonunique_put expensive_put this 0 w = Some (this, w)
  /\ (Packet.shared p = false ->
      Packet.push expensive_push this 0 w
      = Some (static_cast_WritablePacket this, w)
      /\ Packet.put expensive_put this 0 w
         = Some (static_cast_WritablePacket this, w))
  /\ (Packet.shared p = true ->
      Packet.push expensive_push this 0 w = expensive_push this 0 w
      /\ Packet.put expensive_put this 0 w = expensive_put this 0 w).
Proof.
  pose proof (length_nonnegative p) as Hlen.
  assert (Hh : Packet.headroom p >= 0).
  { unfold Packet.headroom. pose proof (to_unsigned_range (_data p - _head p)). lia. }
  assert (Ht : Packet.tailroom p >= 0).
  { unfold Packet.tailroom. pose proof (to_unsigned_range (_end p - _tail p)). lia. }
  assert (Hd : set_data p (_data p - 0) = p).
  { destruct p. unfold set_data. simpl. f_equal. lia. }
  assert (Hd' : set_data p (_data p + 0) = p).
  { destruct p. unfold set_data. simpl. f_equal. lia. }
  assert (Htl : set_tail p (_tail p + 0) = p).
  { destruct p. unfold set_tail. simpl. f_equal. lia. }
  assert (Htl' : set_tail p (_tail p - 0) = p).
  { destruct p. unfold set_tail. simpl. f_equal. lia. }
  split; [| split; [| split; [| split; [| split]]]].
  - rewrite (pull_within this 0 w p Hlive Hlen), Hd'.
    rewrite (in_place_same this p w Hlive). reflexivity.
  - rewrite (take_within this 0 w p Hlive Hlen), Htl'.
    rewrite (in_place_same this p w Hlive). reflexivity.
  - rewrite (nonunique_push_fast _ this 0 w p Hlive Hh), Hd.
    rewrite (in_place_same this p w Hlive). reflexivity.
  - rewrite (nonunique_put_fast _ this 0 w p Hlive Ht), Htl.
    rewrite (in_place_same this p w Hlive). reflexivity.
  - intros Hsh. split.
    + rewrite (push_fast _ this 0 w p Hlive Hh Hsh), Hd.
      rewrite (in_place_same this p w Hlive). reflexivity.
    + rewrite (put_fast _ this 0 w p Hlive Ht Hsh), Htl.
      rewrite (in_place_same this p w Hlive). reflexivity.
  - intros Hsh. split.
    + apply (push_slow _ this 0 w p Hlive). intros [_ H]. congruence.
    + apply (put_slow _ this 0 w p Hlive). intros [_ H]. congruence.
Qed.

Lemma X8_zero_bytes_witness :
  Packet.pull (PacketAt 1000) 0 sample_shared_world = Some (tt, sample_shared_world)
  /\ Packet.nonunique_push oom_resize (PacketAt 1000) 0 sample_shared_world
     = Some (PacketAt 1000, sample_shared_world)
  /\ Packet.push oom_resize (PacketAt 1000) 0 sample_shared_world
     = oom_resize (PacketAt 1000) 0 sample_shared_world
  /\ Packet.push oom_resize (PacketAt 1000) 0 sample_world
     = Some (static_cast_WritablePacket (PacketAt 1000), sample_world).
Proof.
  destruct (X8_zero_bytes oom_resize oom_resize (PacketAt 1000)
              sample_shared_world sample_shared_packet)
    as (Hpull & _ & Hnpush & _ & _ & Hshared); [reflexivity |].
  destruct (X8_zero_bytes oom_resize oom_resize (PacketAt 1000)
              sample_world sample_packet)
    as (_ & _ & _ & _ & Hunshared & _); [reflexivity |].
  split; [exact Hpull |]. split; [exact Hnpush |].
  split; [apply Hshared; reflexivity | apply Hunshared; reflexivity].
Defined.

(** ** Header pointers and offsets *)

Lemma to_int_small (z : Z) : - 2 ^ 31 <= z < 2 ^ 31 -> to_int z = z.
Proof.
  intros Hz. unfold to_int, two32. rewrite Z.mod_small; lia.
Qed.

Lemma set_network_header_live (this : PacketPtr) (h len : Z) (w : World) (p : Packet) :
  objs w !! address this = Some p ->
  Packet.set_network_header this h len w
  = Some (tt, in_place this
                (mkPacket (_use_count p) (_data_packet p) (_head p) (_data p)
                          (_tail p) (_end p) h (h + len)) w).
Proof.
  intros Hlive. unfold Packet.set_network_header. run_member Hlive. reflexivity.
Qed.

(** X9: after [set_network_header(h, len)] on a live packet, with [len]
    an [unsigned], [network_header()] is [h], [transport_header()] is
    [h + len] and [network_header_length()] is [len]; the buffer region
    and the use count are untouched; an earlier setting is forgotten.
    [set_ip_header] is the same call, and [set_ip6_header(h)] gives an
    [ip6_header_length()] of 40. *)
Theorem X9_set_network_header_round_trip
  (this : PacketPtr) (h len h0 len0 : Z) (w : World) (p : Packet)
  (Hlive : objs w !! address this = Some p)
  (Hlen : is_unsigned len) :
  (exists p' : Packet,
     Packet.set_network_header this h len w = Some (tt, in_place this p' w)
     /\ Packet.network_header p' = h
     /\ Packet.transport_header p' = h + len
     /\ Packet.network_header_length p' = len
     /\ Packet.network_header_offset p' = to_int (h - _data p)
     /\ _head p' = _head p /\ _data p' = _data p /\ _tail p' = _tail p
     /\ _end p' = _end p /\ _use_count p' = _use_count p
     /\ _data_packet p' = _data_packet p)
  /\ (Packet.set_network_header this h0 len0 >> Packet.set_network_header this h len) w
     = Packet.set_network_header this h len w
  /\ Packet.set_ip_header this h len w = Packet.set_network_header this h len w
  /\ (exists p' : Packet,
        set_ip6_header this h w = Some (tt, in_place this p' w)
        /\ Packet.network_header p' = h
        /\ ip6_header_length p' = 40).
Proof.
  split; [| split; [| split]].
  - eexists. split; [apply (set_network_header_live this h len w p Hlive) |].
    unfold Packet.network_header, Packet.transport_header,
      Packet.network_header_length, Packet.network_header_offset, Packet.data.
    simpl. split; [reflexivity |]. split; [reflexivity |].
    split; [replace (h + len - h) with len by lia; apply to_unsigned_small;
            exact Hlen |].
    repeat split; reflexivity.
  - unfold bind. rewrite (set_network_header_live this h0 len0 w p Hlive).
    rewrite (set_network_header_live this h len _ _ (in_place_lookup _ _ _)).
    rewrite (set_network_header_live this h len w p Hlive).
    rewrite in_place_twice. reflexivity.
  - reflexivity.
  - eexists. unfold set_ip6_header, set_ip6_header_len.
    split; [apply (set_network_header_live this h 40 w p Hlive) |].
    split; [reflexivity |].
    unfold ip6_header_length, Packet.network_header_length,
      Packet.transport_header, Packet.network_header. simpl.
    replace (h + 40 - h) with 40 by lia. reflexivity.
Qed.

Lemma X9_set_network_header_round_trip_witness :
  (exists p' : Packet,
     Packet.set_network_header (PacketAt 1000) 4138 20 sample_world
     = Some (tt, in_place (PacketAt 1000) p' sample_world)
     /\ Packet.network_header p' = 4138
     /\ Packet.transport_header p' = 4138 + 20
     /\ Packet.network_header_length p' = 20
     /\ Packet.network_header_offset p' = to_int (4138 - _data sample_packet)
     /\ _head p' = _head sample_packet /\ _data p' = _data sample_packet
     /\ _tail p' = _tail sample_packet
     /\ _end p' = _end sample_packet
     /\ _use_count p' = _use_count sample_packet
     /\ _data_packet p' = _data_packet sample_packet).
Proof.
  apply (X9_set_network_header_round_trip (PacketAt 1000) 4138 20 0 0
           sample_world sample_packet).
  - reflexivity.
  - unfold is_unsigned, two32; lia.
Defined.

(** X10: the header pointers are absolute, the offsets relative to
    [data()].  A [pull(n)] with [n <= length()] on a live packet leaves
    [network_header()], [transport_header()] and
    [network_header_length()] as they were and lowers
    [network_header_offset()] by [n]; an in-place [push(n)] leaves them
    and raises the offset by [n] (the offsets being representable as
    [int]). *)
Theorem X10_offsets_follow_data
  (expensive_push : PacketPtr -> Z -> M World WritablePacketPtr)
  (this : PacketPtr) (n : Z) (w : World) (p : Packet)
  (Hlive : objs w !! address this = Some p)
  (Hn : is_unsigned n)
  (Hoff : - 2 ^ 31 <= _nh_raw p - _data p - n
          /\ _nh_raw p - _data p + n < 2 ^ 31) :
  (n <= Packet.length p ->
     exists (w' : World) (p' : Packet),
       Packet.pull this n w = Some (tt, w')
       /\ objs w' !! address this = Some p'
       /\ Packet.network_header p' = Packet.network_header p
       /\ Packet.transport_header p' = Packet.transport_header p
       /\ Packet.network_header_length p' = Packet.network_header_length p
       /\ Packet.network_header_offset p' = Packet.network_header_offset p - n)
  /\ (Packet.headroom p >= n -> Packet.shared p = false ->
     exists (q : WritablePacketPtr) (w' : World) (p' : Packet),
       Packet.push expensive_push this n w = Some (q, w')
       /\ objs w' !! address this = Some p'
       /\ Packet.network_header p' = Packet.network_header p
       /\ Packet.transport_header p' = Packet.transport_header p
       /\ Packet.network_header_length p' = Packet.network_header_length p
       /\ Packet.network_header_offset p' = Packet.network_header_offset p + n).
Proof.
  destruct Hn as [Hn0 _]. destruct Hoff as [Hlo Hhi].
  assert (Hbase : Packet.network_header_offset p = _nh_raw p - _data p).
  { unfold Packet.network_header_offset, Packet.network_header, Packet.data.
    apply to_int_small. lia. }
  split.
  - intros Hlen. eexists _, _.
    split; [apply (pull_within this n w p Hlive Hlen) |].
    split; [apply in_place_lookup |].
    split; [reflexivity |]. split; [reflexivity |]. split; [reflexivity |].
    rewrite Hbase.
    unfold Packet.network_header_offset, Packet.network_header, Packet.data.
    simpl. rewrite to_int_small; lia.
  - intros Hroom Hsh. eexists _, _, _.
    split; [apply (push_fast _ this n w p Hlive Hroom Hsh) |].
    split; [apply in_place_lookup |].
    split; [reflexivity |]. split; [reflexivity |]. split; [reflexivity |].
    rewrite Hbase.
    unfold Packet.network_header_offset, Packet.network_header, Packet.data.
    simpl. rewrite to_int_small; lia.
Qed.

Lemma X10_offsets_follow_data_witness :
  (exists (w' : World) (p' : Packet),
     Packet.pull (PacketAt 1000) 14 sample_world = Some (tt, w')
     /\ objs w' !! address (PacketAt 1000) = Some p'
     /\ Packet.network_header p' = Packet.network_header sample_packet
     /\ Packet.transport_header p' = Packet.transport_header sample_packet
     /\ Packet.network_header_length p'
        = Packet.network_header_length sample_packet
     /\ Packet.network_header_offset p'
        = Packet.network_header_offset sample_packet - 14)
  /\ (exists (q : WritablePacketPtr) (w' : World) (p' : Packet),
     Packet.push oom_resize (PacketAt 1000) 14 sample_world = Some (q, w')
     /\ objs w' !! address (PacketAt 1000) = Some p'
     /\ Packet.network_header p' = Packet.network_header sample_packet
     /\ Packet.transport_header p' = Packet.transport_header sample_packet
     /\ Packet.network_header_length p'
        = Packet.network_header_length sample_packet
     /\ Packet.network_header_offset p'
        = Packet.network_header_offset sample_packet + 14).
Proof.
  destruct (X10_offsets_follow_data oom_resize (PacketAt 1000) 14 sample_world
              sample_packet) as [Hpull Hpush].
  - reflexivity.
  - unfold is_unsigned, two32; lia.
  - simpl; lia.
  - split; [apply Hpull; vm_compute; discriminate |].
    apply Hpush; [vm_compute; discriminate | reflexivity].
Defined.

(** * Properties of the annotations *)

(** ** Bytes and words *)

Lemma length_le_bytes (n : nat) (v : Z) : length (le_bytes n v) = n.
Proof. revert v. induction n as [| n IH]; intros v; simpl; [| rewrite IH]; reflexivity. Qed.

Lemma le_value_le_bytes (n : nat) (v : Z) :
  le_value (le_bytes n v) = v mod 256 ^ Z.of_nat n.
Proof.
  revert v. induction n as [| n IH]; intros v.
  - simpl. rewrite Z.mod_1_r. reflexivity.
  - cbn [le_bytes le_value]. rewrite IH, Nat2Z.inj_succ, Z.pow_succ_r by lia.
    rewrite Z.rem_mul_r by lia. reflexivity.
Qed.

Lemma lookup_le_bytes (n k : nat) (v : Z) :
  (k < n)%nat -> le_bytes n v !! k = Some ((v / 256 ^ Z.of_nat k) mod 256).
Proof.
  revert k v. induction n as [| n IH]; intros k v Hk; [lia |].
  destruct k as [| k]; cbn [le_bytes].
  - simpl. rewrite Z.div_1_r. reflexivity.
  - simpl lookup. rewrite IH by lia.
    rewrite Nat2Z.inj_succ, Z.pow_succ_r by lia.
    rewrite Z.div_div by lia. reflexivity.
Qed.

Lemma length_write_bytes (k : nat) (bs l : list Z) :
  (k + length bs <= length l)%nat -> length (write_bytes k bs l) = length l.
Proof.
  intros Hk. unfold write_bytes.
  rewrite !length_app, length_take, length_drop. lia.
Qed.

Lemma lookup_write_bytes (k : nat) (bs l : list Z) (j : nat) :
  (k + length bs <= length l)%nat ->
  write_bytes k bs l !! j
  = if decide (k <= j < k + length bs)%nat then bs !! (j - k)%nat else l !! j.
Proof.
  intros Hk. unfold write_bytes.
  destruct (decide (j < k)%nat) as [Hlt | Hge].
  - rewrite lookup_app_l by (rewrite length_take; lia).
    rewrite lookup_take_lt by lia.
    destruct (decide (k <= j < k + length bs)%nat); [lia | reflexivity].
  - rewrite lookup_app_r by (rewrite length_take; lia).
    rewrite length_take. replace (j - k `min` length l)%nat with (j - k)%nat by lia.
    destruct (decide (k <= j < k + length bs)%nat) as [Hin | Hout].
    + apply lookup_app_l. lia.
    + rewrite lookup_app_r by lia. rewrite lookup_drop. f_equal. lia.
Qed.

Lemma lookup_read_bytes (k n : nat) (l : list Z) (j : nat) :
  read_bytes k n l !! j = if decide (j < n)%nat then l !! (k + j)%nat else None.
Proof.
  unfold read_bytes. destruct (decide (j < n)%nat) as [Hlt | Hge].
  - rewrite lookup_take_lt by exact Hlt. apply lookup_drop.
  - apply lookup_take_ge. lia.
Qed.

Lemma read_after_write (k : nat) (bs l : list Z) :
  (k + length bs <= length l)%nat ->
  read_bytes k (length bs) (write_bytes k bs l) = bs.
Proof.
  intros Hk. apply list_eq. intros j.
  rewrite lookup_read_bytes, lookup_write_bytes by exact Hk.
  destruct (decide (j < length bs)%nat) as [Hlt | Hge].
  - destruct (decide (k <= k + j < k + length bs)%nat); [| lia].
    f_equal. lia.
  - symmetry. apply lookup_ge_None. lia.
Qed.

Lemma read_elsewhere (k k' n' : nat) (bs l : list Z) :
  (k + length bs <= length l)%nat ->
  (k' + n' <= k \/ k + length bs <= k')%nat ->
  read_bytes k' n' (write_bytes k bs l) = read_bytes k' n' l.
Proof.
  intros Hk Hapart. apply list_eq. intros j.
  rewrite !lookup_read_bytes.
  destruct (decide (j < n')%nat) as [Hlt | Hge]; [| reflexivity].
  rewrite lookup_write_bytes by exact Hk.
  destruct (decide (k <= k' + j < k + length bs)%nat); [lia | reflexivity].
Qed.

Lemma read_word_after_write (k n : nat) (v : Z) (l : list Z) :
  (k + n <= length l)%nat ->
  read_bytes k n (write_bytes k (le_bytes n v) l) = le_bytes n v.
Proof.
  intros Hk.
  pose proof (read_after_write k (le_bytes n v) l) as H.
  rewrite length_le_bytes in H. apply H. exact Hk.
Qed.

Lemma word_value (v : Z) : le_value (le_bytes 4 v) = to_unsigned v.
Proof. rewrite le_value_le_bytes. reflexivity. Qed.

Lemma to_int_to_unsigned (v : Z) : to_int (to_unsigned v) = to_int v.
Proof.
  unfold to_int, to_unsigned. rewrite Zplus_mod_idemp_l. reflexivity.
Qed.

(** ** User annotations *)

Lemma index_in_true (i size : Z) :
  0 <= i < size -> Annotation.index_in i size = true.
Proof.
  intros [H0 H1]. unfold Annotation.index_in.
  apply andb_true_iff. split; [apply Z.leb_le | apply Z.ltb_lt]; assumption.
Qed.

Lemma user_anno_c_lookup (j : Z) (a : Annotations) :
  0 <= j < Annotation.USER_ANNO_SIZE ->
  Annotation.user_anno_c j a = _cb a !! (16 + Z.to_nat j)%nat.
Proof.
  intros Hj. unfold Annotation.user_anno_c. rewrite index_in_true by exact Hj.
  reflexivity.
Qed.

(** X11: on an annotation block of 48 bytes and for an index [i] in
    [0, USER_ANNO_SIZE), [set_user_anno_c(i, v)] followed by
    [user_anno_c(i)] gives [v] back, and changes no other user byte, nor
    the destination address annotations, the packet type or the
    timestamp. *)
Theorem X11_user_anno_c_round_trip
  (i v : Z) (a : Annotations)
  (Hsize : cb_sized a)
  (Hi : 0 <= i < Annotation.USER_ANNO_SIZE)
  (Hv : 0 <= v < 256) :
  exists a' : Annotations,
    Annotation.set_user_anno_c i v a = Some a'
    /\ Annotation.user_anno_c i a' = Some v
    /\ (forall j : Z, 0 <= j < Annotation.USER_ANNO_SIZE -> j <> i ->
          Annotation.user_anno_c j a' = Annotation.user_anno_c j a)
    /\ Annotation.dst_ip_anno a' = Annotation.dst_ip_anno a
    /\ Annotation.dst_ip6_anno a' = Annotation.dst_ip6_anno a
    /\ Annotation.packet_type_anno a' = Annotation.packet_type_anno a
    /\ Annotation.timestamp_anno a' = Annotation.timestamp_anno a
    /\ cb_sized a'.
Proof.
  unfold cb_sized, Annotation.sizeof_cb in *.
  unfold Annotation.USER_ANNO_SIZE in Hi.
  assert (Hroom : (16 + Z.to_nat i + length (le_bytes 1 v) <= length (_cb a))%nat).
  { rewrite length_le_bytes. lia. }
  eexists. split.
  { unfold Annotation.set_user_anno_c. rewrite index_in_true by exact Hi.
    reflexivity. }
  unfold Annotation.offset_user_flags.
  split.
  { rewrite user_anno_c_lookup by exact Hi. cbn [_cb set_cb].
    rewrite lookup_write_bytes by exact Hroom. rewrite length_le_bytes.
    destruct (decide (16 + Z.to_nat i <= 16 + Z.to_nat i < 16 + Z.to_nat i + 1)%nat);
      [| lia].
    rewrite Nat.sub_diag. cbn [le_bytes lookup list_lookup].
    rewrite Z.mod_small by lia. reflexivity. }
  split.
  { intros j Hj Hne. rewrite !user_anno_c_lookup by exact Hj. cbn [_cb set_cb].
    rewrite lookup_write_bytes by exact Hroom. rewrite length_le_bytes.
    unfold Annotation.USER_ANNO_SIZE in Hj.
    destruct (decide (16 + Z.to_nat i <= 16 + Z.to_nat j < 16 + Z.to_nat i + 1)%nat);
      [lia | reflexivity]. }
  split.
  { unfold Annotation.dst_ip_anno, Annotation.offset_dst_ip. cbn [_cb set_cb].
    rewrite read_elsewhere; [reflexivity | exact Hroom | lia]. }
  split.
  { unfold Annotation.dst_ip6_anno, Annotation.offset_dst_ip. cbn [_cb set_cb].
    rewrite read_elsewhere; [reflexivity | exact Hroom | lia]. }
  split; [reflexivity |]. split; [reflexivity |].
  cbn [_cb set_cb]. rewrite length_write_bytes by exact Hroom. exact Hsize.
Qed.

Lemma X11_user_anno_c_round_trip_witness :
  exists a' : Annotations,
    Annotation.set_user_anno_c 5 200 sample_annotations = Some a'
    /\ Annotation.user_anno_c 5 a' = Some 200
    /\ (forall j : Z, 0 <= j < Annotation.USER_ANNO_SIZE -> j <> 5 ->
          Annotation.user_anno_c j a' = Annotation.user_anno_c j sample_annotations)
    /\ Annotation.dst_ip_anno a' = Annotation.dst_ip_anno sample_annotations
    /\ Annotation.dst_ip6_anno a' = Annotation.dst_ip6_anno sample_annotations
    /\ Annotation.packet_type_anno a'
       = Annotation.packet_type_anno sample_annotations
    /\ Annotation.timestamp_anno a' = Annotation.timestamp_anno sample_annotations
    /\ cb_sized a'.
Proof.
  apply (X11_user_anno_c_round_trip 5 200 sample_annotations).
  - reflexivity.
  - unfold Annotation.USER_ANNO_SIZE; lia.
  - lia.
Defined.

(** X12: the three views of the user annotations share their storage.
    For [i] in [0, USER_ANNO_U_SIZE), after [set_user_anno_u(i, v)] the
    word reads back as [v] through [user_anno_u(i)], as the same bits
    taken as an [int] through [user_anno_i(i)], and byte by byte, least
    significant first, through [user_anno_c(4 i + k)]; the other words
    and the destination address are untouched; and [set_user_anno_i]
    stores exactly what [set_user_anno_u] stores. *)
Theorem X12_user_anno_words_alias_bytes
  (i v : Z) (a : Annotations)
  (Hsize : cb_sized a)
  (Hi : 0 <= i < Annotation.USER_ANNO_U_SIZE) :
  exists a' : Annotations,
    Annotation.set_user_anno_u i v a = Some a'
    /\ Annotation.set_user_anno_i i v a = Some a'
    /\ Annotation.user_anno_u i a' = Some (to_unsigned v)
    /\ Annotation.user_anno_i i a' = Some (to_int v)
    /\ (forall k : Z, 0 <= k < 4 ->
          Annotation.user_anno_c (4 * i + k) a' = Some ((v / 256 ^ k) mod 256))
    /\ (forall j : Z, 0 <= j < Annotation.USER_ANNO_U_SIZE -> j <> i ->
          Annotation.user_anno_u j a' = Annotation.user_anno_u j a
          /\ Annotation.user_anno_i j a' = Annotation.user_anno_i j a)
    /\ Annotation.dst_ip6_anno a' = Annotation.dst_ip6_anno a
    /\ cb_sized a'.
Proof.
  unfold cb_sized, Annotation.sizeof_cb in *.
  unfold Annotation.USER_ANNO_U_SIZE in Hi.
  assert (Hroom : (16 + 4 * Z.to_nat i + length (le_bytes 4 v)
                   <= length (_cb a))%nat).
  { rewrite length_le_bytes. lia. }
  eexists. split.
  { unfold Annotation.set_user_anno_u. rewrite index_in_true by exact Hi.
    reflexivity. }
  unfold Annotation.offset_user_flags.
  split.
  { unfold Annotation.set_user_anno_i, Annotation.USER_ANNO_I_SIZE.
    rewrite index_in_true by exact Hi. reflexivity. }
  split.
  { unfold Annotation.user_anno_u. rewrite index_in_true by exact Hi.
    cbn [_cb set_cb]. unfold Annotation.offset_user_flags.
    rewrite read_word_after_write by lia. rewrite word_value. reflexivity. }
  split.
  { unfold Annotation.user_anno_i, Annotation.USER_ANNO_I_SIZE.
    rewrite index_in_true by exact Hi.
    cbn [_cb set_cb]. unfold Annotation.offset_user_flags.
    rewrite read_word_after_write by lia.
    rewrite word_value, to_int_to_unsigned. reflexivity. }
  split.
  { intros k Hk.
    rewrite user_anno_c_lookup by (unfold Annotation.USER_ANNO_SIZE; lia).
    cbn [_cb set_cb]. rewrite lookup_write_bytes by exact Hroom.
    rewrite length_le_bytes.
    destruct (decide (16 + 4 * Z.to_nat i <= 16 + Z.to_nat (4 * i + k)
                      < 16 + 4 * Z.to_nat i + 4)%nat) as [_ | Hout]; [| lia].
    replace (16 + Z.to_nat (4 * i + k) - (16 + 4 * Z.to_nat i))%nat
      with (Z.to_nat k) by lia.
    rewrite lookup_le_bytes by lia. rewrite Z2Nat.id by lia. reflexivity. }
  split.
  { intros j Hj Hne. unfold Annotation.USER_ANNO_U_SIZE in Hj.
    unfold Annotation.user_anno_u, Annotation.user_anno_i,
      Annotation.USER_ANNO_I_SIZE, Annotation.USER_ANNO_U_SIZE.
    rewrite index_in_true by exact Hj.
    cbn [_cb set_cb]. unfold Annotation.offset_user_flags.
    rewrite read_elsewhere; [split; reflexivity | exact Hroom |].
    rewrite length_le_bytes. lia. }
  split.
  { unfold Annotation.dst_ip6_anno, Annotation.offset_dst_ip. cbn [_cb set_cb].
    rewrite read_elsewhere; [reflexivity | exact Hroom | lia]. }
  cbn [_cb set_cb]. rewrite length_write_bytes by exact Hroom. exact Hsize.
Qed.

Lemma X12_user_anno_words_alias_bytes_witness :
  exists a' : Annotations,
    Annotation.set_user_anno_u 1 305419896 sample_annotations = Some a'
    /\ Annotation.set_user_anno_i 1 305419896 sample_annotations = Some a'
    /\ Annotation.user_anno_u 1 a' = Some (to_unsigned 305419896)
    /\ Annotation.user_anno_i 1 a' = Some (to_int 305419896)
    /\ (forall k : Z, 0 <= k < 4 ->
          Annotation.user_anno_c (4 * 1 + k) a'
          = Some ((305419896 / 256 ^ k) mod 256))
    /\ (forall j : Z, 0 <= j < Annotation.USER_ANNO_U_SIZE -> j <> 1 ->
          Annotation.user_anno_u j a' = Annotation.user_anno_u j sample_annotations
          /\ Annotation.user_anno_i j a'
             = Annotation.user_anno_i j sample_annotations)
    /\ Annotation.dst_ip6_anno a' = Annotation.dst_ip6_anno sample_annotations
    /\ cb_sized a'.
Proof.
  apply (X12_user_anno_words_alias_bytes 1 305419896 sample_annotations).
  - reflexivity.
  - unfold Annotation.USER_ANNO_U_SIZE; lia.
Defined.

(** ** Destination address annotations *)

Lemma read_prefix_of_write (n : nat) (bs l : list Z) :
  (length bs <= length l)%nat -> (n <= length bs)%nat ->
  read_bytes 0 n (write_bytes 0 bs l) = take n bs.
Proof.
  intros Hl Hn. apply list_eq. intros j.
  rewrite lookup_read_bytes, lookup_write_bytes by (simpl; lia).
  destruct (decide (j < n)%nat) as [Hlt | Hge].
  - rewrite lookup_take_lt by exact Hlt.
    destruct (decide (0 <= 0 + j < 0 + length bs)%nat); [| lia].
    f_equal. lia.
  - symmetry. apply lookup_take_ge. lia.
Qed.

(** X13: the IPv4 and IPv6 destination annotations share their storage.
    On an annotation block of 48 bytes, [set_dst_ip_anno(x)] followed by
    [dst_ip_anno()] gives [x] back (as an [unsigned]); storing a 16-byte
    IPv6 address reads back through [dst_ip6_anno()] and replaces the
    IPv4 annotation by its first four bytes; storing an IPv4 address
    replaces the first four bytes of the IPv6 annotation and keeps the
    other twelve.  Neither touches the user annotations. *)
Theorem X13_dst_ip_annotations_share_storage
  (x : Z) (addr6 : list Z) (a : Annotations)
  (Hsize : cb_sized a)
  (Haddr : length addr6 = 16%nat) :
  Annotation.dst_ip_anno (Annotation.set_dst_ip_anno x a) = to_unsigned x
  /\ Annotation.dst_ip6_anno (Annotation.set_dst_ip6_anno addr6 a) = addr6
  /\ Annotation.dst_ip_anno (Annotation.set_dst_ip6_anno addr6 a)
     = le_value (take 4 addr6)
  /\ Annotation.dst_ip6_anno (Annotation.set_dst_ip_anno x a)
     = le_bytes 4 x ++ drop 4 (Annotation.dst_ip6_anno a)
  /\ (forall j : Z, 0 <= j < Annotation.USER_ANNO_SIZE ->
        Annotation.user_anno_c j (Annotation.set_dst_ip_anno x a)
        = Annotation.user_anno_c j a
        /\ Annotation.user_anno_c j (Annotation.set_dst_ip6_anno addr6 a)
           = Annotation.user_anno_c j a).
Proof.
  unfold cb_sized, Annotation.sizeof_cb in Hsize.
  unfold Annotation.dst_ip_anno, Annotation.dst_ip6_anno,
    Annotation.set_dst_ip_anno, Annotation.set_dst_ip6_anno,
    Annotation.offset_dst_ip.
  cbn [_cb set_cb].
  assert (Htake : take 16 addr6 = addr6) by (apply take_ge; lia).
  rewrite Htake.
  split.
  { rewrite read_word_after_write by lia. apply word_value. }
  split.
  { rewrite <- Haddr at 1. apply read_after_write. lia. }
  split.
  { rewrite read_prefix_of_write by lia. reflexivity. }
  split.
  { apply list_eq. intros j.
    rewrite lookup_read_bytes, lookup_write_bytes
      by (rewrite length_le_bytes; lia).
    rewrite length_le_bytes.
    destruct (decide (j < 16)%nat) as [Hlt | Hge].
    - destruct (decide (0 <= 0 + j < 0 + 4)%nat) as [Hin | Hout].
      + rewrite lookup_app_l by (rewrite length_le_bytes; lia).
        f_equal. lia.
      + rewrite lookup_app_r by (rewrite length_le_bytes; lia).
        rewrite length_le_bytes, lookup_drop, lookup_read_bytes.
        destruct (decide (4 + (j - 4) < 16)%nat); [| lia].
        f_equal. lia.
    - symmetry. apply lookup_ge_None.
      rewrite length_app, length_le_bytes, length_drop.
      unfold read_bytes. rewrite length_take, length_drop. lia. }
  intros j Hj. rewrite !user_anno_c_lookup by exact Hj. cbn [_cb set_cb].
  unfold Annotation.USER_ANNO_SIZE in Hj.
  rewrite !lookup_write_bytes by (rewrite ?length_le_bytes; lia).
  rewrite length_le_bytes.
  destruct (decide (0 <= 16 + Z.to_nat j < 0 + 4)%nat); [lia |].
  destruct (decide (0 <= 16 + Z.to_nat j < 0 + length addr6)%nat); [lia |].
  split; reflexivity.
Qed.

Lemma X13_dst_ip_annotations_share_storage_witness :
  Annotation.dst_ip_anno (Annotation.set_dst_ip_anno 167772161 sample_annotations)
  = to_unsigned 167772161
  /\ Annotation.dst_ip6_anno
       (Annotation.set_dst_ip6_anno (seqZ 101 16) sample_annotations)
     = seqZ 101 16
  /\ Annotation.dst_ip_anno
       (Annotation.set_dst_ip6_anno (seqZ 101 16) sample_annotations)
     = le_value (take 4 (seqZ 101 16)).
Proof.
  destruct (X13_dst_ip_annotations_share_storage 167772161 (seqZ 101 16)
              sample_annotations) as (H4 & H6 & H64 & _).
  - reflexivity.
  - reflexivity.
  - split; [exact H4 |]. split; [exact H6 | exact H64].
Defined.

(** ** [clear_annotations] and [copy_annotations] *)

Lemma le_value_zeros (n : nat) : le_value (replicate n 0) = 0.
Proof. induction n as [| n IH]; simpl; [reflexivity | rewrite IH; reflexivity]. Qed.

Lemma read_inside_write (k n : nat) (bs l : list Z) :
  (length bs <= length l)%nat -> (k + n <= length bs)%nat ->
  read_bytes k n (write_bytes 0 bs l) = read_bytes k n bs.
Proof.
  intros Hl Hk. apply list_eq. intros j.
  rewrite !lookup_read_bytes.
  destruct (decide (j < n)%nat) as [Hlt | Hge]; [| reflexivity].
  rewrite lookup_write_bytes by (simpl; lia).
  destruct (decide (0 <= k + j < 0 + length bs)%nat); [| lia].
  f_equal. lia.
Qed.

Lemma read_zeros (k n m : nat) :
  (k + n <= m)%nat -> read_bytes k n (replicate m 0) = replicate n 0.
Proof.
  intros Hk. apply list_eq. intros j. rewrite lookup_read_bytes.
  destruct (decide (j < n)%nat) as [Hlt | Hge].
  - rewrite !lookup_replicate_2 by lia. reflexivity.
  - symmetry. apply lookup_ge_None. rewrite length_replicate. lia.
Qed.

Lemma read_bytes_twice (k n m : nat) (l : list Z) :
  (k + n <= m)%nat ->
  read_bytes k n (read_bytes 0 m l) = read_bytes k n l.
Proof.
  intros Hk. apply list_eq. intros j. rewrite !lookup_read_bytes.
  destruct (decide (j < n)%nat) as [Hlt | Hge]; [| reflexivity].
  destruct (decide (k + j < m)%nat); [reflexivity | lia].
Qed.

Lemma write_back_own_bytes (n : nat) (l : list Z) :
  (n <= length l)%nat -> write_bytes 0 (read_bytes 0 n l) l = l.
Proof.
  intros Hn. unfold write_bytes, read_bytes. simpl.
  rewrite length_take, Nat.min_l by exact Hn. apply take_drop.
Qed.

(** X14: [clear_annotations()] on a live packet with a 48-byte
    annotation block zeroes every user annotation and both destination
    address annotations, sets the packet type to [HOST] and the timestamp
    to 0, and unsets the network and transport header pointers; the
    buffer region and the use count are left alone, and so are the bytes
    of [_cb] beyond [sizeof(Anno)]. *)
Theorem X14_clear_annotations
  (this : PacketPtr) (hp : Heap) (p : Packet) (a : Annotations)
  (Hp : objs (world hp) !! address this = Some p)
  (Ha : annos hp !! address this = Some a)
  (Hsize : cb_sized a) :
  exists (p' : Packet) (a' : Annotations),
    clear_annotations this hp
    = Some (tt, mkHeap (in_place this p' (world hp))
                       (<[address this := a']> (annos hp)))
    /\ (forall j : Z, 0 <= j < Annotation.USER_ANNO_SIZE ->
          Annotation.user_anno_c j a' = Some 0)
    /\ (forall j : Z, 0 <= j < Annotation.USER_ANNO_U_SIZE ->
          Annotation.user_anno_u j a' = Some 0
          /\ Annotation.user_anno_i j a' = Some 0)
    /\ Annotation.dst_ip_anno a' = 0
    /\ Annotation.dst_ip6_anno a' = replicate 16 0
    /\ Annotation.packet_type_anno a' = HOST
    /\ Annotation.timestamp_anno a' = (0, 0)
    /\ Packet.network_header p' = 0
    /\ Packet.transport_header p' = 0
    /\ has_network_header p' = false
    /\ (_head p' = _head p /\ _data p' = _data p /\ _tail p' = _tail p
        /\ _end p' = _end p /\ _use_count p' = _use_count p
        /\ _data_packet p' = _data_packet p)
    /\ read_bytes 28 20 (_cb a') = read_bytes 28 20 (_cb a)
    /\ cb_sized a'.
Proof.
  unfold cb_sized, Annotation.sizeof_cb in *.
  assert (Hrep : (length (replicate Annotation.sizeof_Anno 0) <= length (_cb a))%nat).
  { rewrite length_replicate. unfold Annotation.sizeof_Anno. lia. }
  exists (mkPacket (_use_count p) (_data_packet p) (_head p) (_data p)
                   (_tail p) (_end p) 0 (0 + 0)),
         (mkAnnotations
            (write_bytes 0 (replicate Annotation.sizeof_Anno 0) (_cb a))
            HOST (0, 0)).
  split.
  { unfold clear_annotations, bind, anno, set_anno, modify, in_packets.
    rewrite Ha. cbn [world annos].
    rewrite (set_network_header_live this 0 0 (world hp) p Hp). reflexivity. }
  split.
  { intros j Hj. rewrite user_anno_c_lookup by exact Hj. cbn [_cb].
    unfold Annotation.USER_ANNO_SIZE in Hj.
    rewrite lookup_write_bytes by (simpl; lia).
    rewrite length_replicate. unfold Annotation.sizeof_Anno.
    destruct (decide (0 <= 16 + Z.to_nat j < 0 + 28)%nat); [| lia].
    apply lookup_replicate_2. lia. }
  split.
  { intros j Hj.
    unfold Annotation.user_anno_u, Annotation.user_anno_i,
      Annotation.USER_ANNO_I_SIZE, Annotation.USER_ANNO_U_SIZE in *.
    rewrite index_in_true by exact Hj. cbn [_cb].
    unfold Annotation.offset_user_flags.
    rewrite read_inside_write;
      [| exact Hrep
       | rewrite length_replicate; unfold Annotation.sizeof_Anno; lia].
    rewrite read_zeros by (unfold Annotation.sizeof_Anno; lia).
    rewrite le_value_zeros. split; reflexivity. }
  split.
  { unfold Annotation.dst_ip_anno, Annotation.offset_dst_ip. cbn [_cb].
    rewrite read_inside_write;
      [| exact Hrep
       | rewrite length_replicate; unfold Annotation.sizeof_Anno; lia].
    rewrite read_zeros by (unfold Annotation.sizeof_Anno; lia).
    apply le_value_zeros. }
  split.
  { unfold Annotation.dst_ip6_anno, Annotation.offset_dst_ip. cbn [_cb].
    rewrite read_inside_write;
      [| exact Hrep
       | rewrite length_replicate; unfold Annotation.sizeof_Anno; lia].
    apply read_zeros. unfold Annotation.sizeof_Anno. lia. }
  split; [reflexivity |]. split; [reflexivity |].
  split; [reflexivity |]. split; [reflexivity |]. split; [reflexivity |].
  split; [repeat split; reflexivity |].
  split.
  { cbn [_cb]. apply read_elsewhere; [simpl; lia |].
    rewrite length_replicate. unfold Annotation.sizeof_Anno. lia. }
  cbn [_cb]. rewrite length_write_bytes by (simpl; lia). exact Hsize.
Qed.

Lemma sample_heap_packet :
  objs (world sample_heap) !! address (PacketAt 1000) = Some sample_packet.
Proof. reflexivity. Qed.

Lemma sample_heap_annotations :
  annos sample_heap !! address (PacketAt 1000) = Some sample_annotations.
Proof. reflexivity. Qed.

Lemma X14_clear_annotations_witness :
  exists (p' : Packet) (a' : Annotations),
    clear_annotations (PacketAt 1000) sample_heap
    = Some (tt, mkHeap (in_place (PacketAt 1000) p' (world sample_heap))
                       (<[address (PacketAt 1000) := a']> (annos sample_heap)))
    /\ Annotation.dst_ip_anno a' = 0
    /\ Annotation.packet_type_anno a' = HOST
    /\ has_network_header p' = false
    /\ read_bytes 28 20 (_cb a') = read_bytes 28 20 (_cb sample_annotations).
Proof.
  destruct (X14_clear_annotations (PacketAt 1000) sample_heap sample_packet
              sample_annotations)
    as (p' & a' & Hrun & _ & _ & Hip & _ & Htype & _ & _ & _ & Hnh & _ & Hrest & _).
  - reflexivity.
  - reflexivity.
  - reflexivity.
  - exists p', a'. auto.
Defined.

(** X15: [copy_annotations(p)] on live packets with 48-byte annotation
    blocks makes every user annotation, both destination address
    annotations, the packet type and the timestamp of the receiver equal
    to those of [p].  It copies no header pointer: the packet objects,
    the receiver's network and transport header among them, are as they
    were.  The bytes of [_cb] beyond [sizeof(Anno)] are not copied, the
    annotations of [p] are not changed, and copying a packet's
    annotations onto itself changes nothing. *)
Theorem X15_copy_annotations
  (this p : PacketPtr) (hp : Heap) (a src : Annotations)
  (Ha : annos hp !! address this = Some a)
  (Hsrc : annos hp !! address p = Some src)
  (Hsize : cb_sized a)
  (Hsize_src : cb_sized src) :
  exists a' : Annotations,
    copy_annotations this p hp
    = Some (tt, mkHeap (world hp) (<[address this := a']> (annos hp)))
    /\ (forall j : Z, 0 <= j < Annotation.USER_ANNO_SIZE ->
          Annotation.user_anno_c j a' = Annotation.user_anno_c j src)
    /\ (forall j : Z, 0 <= j < Annotation.USER_ANNO_U_SIZE ->
          Annotation.user_anno_u j a' = Annotation.user_anno_u j src
          /\ Annotation.user_anno_i j a' = Annotation.user_anno_i j src)
    /\ Annotation.dst_ip_anno a' = Annotation.dst_ip_anno src
    /\ Annotation.dst_ip6_anno a' = Annotation.dst_ip6_anno src
    /\ Annotation.packet_type_anno a' = Annotation.packet_type_anno src
    /\ Annotation.timestamp_anno a' = Annotation.timestamp_anno src
    /\ read_bytes 28 20 (_cb a') = read_bytes 28 20 (_cb a)
    /\ cb_sized a'
    /\ (address this <> address p ->
        <[address this := a']> (annos hp) !! address p = Some src)
    /\ (address this = address p ->
        copy_annotations this p hp = Some (tt, hp)).
Proof.
  unfold cb_sized, Annotation.sizeof_cb in *.
  assert (Hlen : length (read_bytes 0 Annotation.sizeof_Anno (_cb src)) = 28%nat).
  { unfold read_bytes, Annotation.sizeof_Anno.
    rewrite length_take, length_drop. lia. }
  assert (Hrun : copy_annotations this p hp
                 = Some (tt, mkHeap (world hp)
                               (<[address this :=
                                    mkAnnotations
                                      (write_bytes 0
                                         (read_bytes 0 Annotation.sizeof_Anno (_cb src))
                                         (_cb a))
                                      (_pkt_type src) (_timestamp src)]>
                                  (annos hp)))).
  { unfold copy_annotations, bind, anno, set_anno, modify.
    rewrite Hsrc, Ha. reflexivity. }
  eexists. split; [exact Hrun |].
  split.
  { intros j Hj. rewrite !user_anno_c_lookup by exact Hj. cbn [_cb].
    unfold Annotation.USER_ANNO_SIZE in Hj.
    rewrite lookup_write_bytes by (rewrite Hlen; lia). rewrite Hlen.
    destruct (decide (0 <= 16 + Z.to_nat j < 0 + 28)%nat); [| lia].
    rewrite lookup_read_bytes. unfold Annotation.sizeof_Anno.
    destruct (decide (16 + Z.to_nat j - 0 < 28)%nat); [| lia].
    f_equal; lia. }
  split.
  { intros j Hj.
    unfold Annotation.user_anno_u, Annotation.user_anno_i,
      Annotation.USER_ANNO_I_SIZE, Annotation.USER_ANNO_U_SIZE in *.
    rewrite index_in_true by exact Hj. cbn [_cb].
    unfold Annotation.offset_user_flags.
    rewrite read_inside_write by (rewrite Hlen; lia).
    rewrite read_bytes_twice by (unfold Annotation.sizeof_Anno; lia).
    split; reflexivity. }
  split.
  { unfold Annotation.dst_ip_anno, Annotation.offset_dst_ip. cbn [_cb].
    rewrite read_inside_write by (rewrite Hlen; lia).
    rewrite read_bytes_twice by (unfold Annotation.sizeof_Anno; lia).
    reflexivity. }
  split.
  { unfold Annotation.dst_ip6_anno, Annotation.offset_dst_ip. cbn [_cb].
    rewrite read_inside_write by (rewrite Hlen; lia).
    rewrite read_bytes_twice by (unfold Annotation.sizeof_Anno; lia).
    reflexivity. }
  split; [reflexivity |]. split; [reflexivity |].
  split.
  { cbn [_cb]. apply read_elsewhere; rewrite Hlen; lia. }
  split.
  { cbn [_cb]. rewrite length_write_bytes by (rewrite Hlen; lia). exact Hsize. }
  split.
  { intros Hne. rewrite lookup_insert_ne by exact Hne. exact Hsrc. }
  intros Heq. rewrite Hrun. rewrite Heq in Ha.
  assert (a = src) by congruence. subst a.
  rewrite write_back_own_bytes by (unfold Annotation.sizeof_Anno; lia).
  replace (mkAnnotations (_cb src) (_pkt_type src) (_timestamp src)) with src
    by (destruct src; reflexivity).
  rewrite Heq, insert_id by exact Hsrc. destruct hp. reflexivity.
Qed.

Lemma X15_copy_annotations_witness :
  exists a' : Annotations,
    copy_annotations (PacketAt 2000) (PacketAt 1000) sample_heap
    = Some (tt, mkHeap (world sample_heap)
                       (<[address (PacketAt 2000) := a']> (annos sample_heap)))
    /\ Annotation.dst_ip_anno a' = Annotation.dst_ip_anno sample_annotations
    /\ Annotation.packet_type_anno a'
       = Annotation.packet_type_anno sample_annotations
    /\ read_bytes 28 20 (_cb a') = read_bytes 28 20 (_cb blank_annotations).
Proof.
  destruct (X15_copy_annotations (PacketAt 2000) (PacketAt 1000) sample_heap
              blank_annotations sample_annotations)
    as (a' & Hrun & _ & _ & Hip & _ & Htype & _ & Hrest & _).
  - reflexivity.
  - reflexivity.
  - reflexivity.
  - reflexivity.
  - exists a'. auto.
Defined.

(** * Further properties of the checkers *)

(** ** What is accepted *)

Lemma increment_changes (x : Z) : increment x <> x.
Proof.
  unfold increment, to_uint64. intros H.
  assert (Hpos : 0 < two64) by reflexivity.
  pose proof (Z.mod_pos_bound (x + 1) two64 Hpos) as Hb. rewrite H in Hb.
  destruct (Z_lt_ge_dec (x + 1) two64) as [Hlt | Hge].
  - rewrite Z.mod_small in H by lia. lia.
  - assert (x + 1 = two64) by lia.
    replace (x + 1) with two64 in H by lia. rewrite Z.mod_same in H by lia.
    change two64 with 18446744073709551616 in *. lia.
Qed.

Lemma forwarded_not_dropped (msg : Chatter) (idx : nat) (more more' : list (Z * Z))
  (p : PacketPtr) (s : Stage) (r : option (PacketPtr * Stage)) :
  forwarded more p s r ->
  drop_contract msg idx p (after_loads more' s) r -> False.
Proof.
  intros (s1 & Hr1 & Hcount1 & _) (s2 & Hr2 & _ & _ & Hcount2 & _).
  rewrite Hr1 in Hr2. injection Hr2 as _ <-.
  simpl in Hcount2. rewrite Hcount2 in Hcount1.
  symmetry in Hcount1. exact (increment_changes _ Hcount1).
Qed.

Lemma udp_acceptable_or_not
  (click_in_cksum : (Z -> Z) -> Z -> Z -> Z)
  (click_in_cksum_pseudohdr : (Z -> Z) -> Z -> Z -> Z -> Z)
  (s : Stage) (pk : Packet) :
  udp_acceptable click_in_cksum click_in_cksum_pseudohdr s pk
  \/ ~ udp_acceptable click_in_cksum click_in_cksum_pseudohdr s pk.
Proof.
  unfold udp_acceptable.
  match goal with
  | |- ?P \/ ~ ?P => destruct (decide P) as [Hyes | Hno]; [left | right]; assumption
  end.
Qed.

Lemma tcp_acceptable_or_not
  (click_in_cksum : (Z -> Z) -> Z -> Z -> Z)
  (click_in_cksum_pseudohdr : (Z -> Z) -> Z -> Z -> Z -> Z)
  (s : Stage) (pk : Packet) :
  tcp_acceptable click_in_cksum click_in_cksum_pseudohdr s pk
  \/ ~ tcp_acceptable click_in_cksum click_in_cksum_pseudohdr s pk.
Proof.
  unfold tcp_acceptable.
  match goal with
  | |- ?P \/ ~ ?P => destruct (decide P) as [Hyes | Hno]; [left | right]; assumption
  end.
Qed.

(** X16: [CheckUDPHeader] forwards a live packet exactly when it has a
    network header, its protocol field is 17, its UDP length field is at
    least 8, and its checksum field is 0, or [CHECKSUM] is off, or the
    checksum over the segment and the pseudo-header comes out 0.  Every
    other live packet is dropped for one of the three reasons.  The bytes
    the packet actually holds play no part. *)
Theorem X16_udp_acceptance
  (click_in_cksum : (Z -> Z) -> Z -> Z -> Z)
  (click_in_cksum_pseudohdr : (Z -> Z) -> Z -> Z -> Z -> Z)
  (p : PacketPtr) (s : Stage) (pk : Packet)
  (Hlive : objs (env s) !! address p = Some pk) :
  (udp_acceptable click_in_cksum click_in_cksum_pseudohdr s pk
   <-> exists more : list (Z * Z),
         forwarded more p s
           (CheckUDPHeader.simple_action click_in_cksum click_in_cksum_pseudohdr p s))
  /\ (~ udp_acceptable click_in_cksum click_in_cksum_pseudohdr s pk ->
      exists (reason : CheckUDPHeader.Reason) (more : list (Z * Z)),
        drop_contract (udp_diagnostic reason)
          (CheckUDPHeader.reason_index reason) p (after_loads more s)
          (CheckUDPHeader.simple_action click_in_cksum click_in_cksum_pseudohdr p s)).
Proof.
  assert (Hfwd : udp_acceptable click_in_cksum click_in_cksum_pseudohdr s pk ->
                 exists more : list (Z * Z),
                   forwarded more p s
                     (CheckUDPHeader.simple_action click_in_cksum
                        click_in_cksum_pseudohdr p s)).
  { intros (Hnh & Hproto & Hlen & Hsum).
    destruct (Z.eq_dec (uh_sum (mem (env s)) (udp_header pk)) 0) as [Hz | Hnz].
    { exists (udp_header_loads pk).
      rewrite (udp_checksum_not_verified _ _ p s pk Hlive Hnh Hproto Hlen
                 (or_introl Hz)). apply forwarded_intro. }
    destruct (_checksum (elt s)) eqn:Hon.
    2: { exists (udp_header_loads pk).
         rewrite (udp_checksum_not_verified _ _ p s pk Hlive Hnh Hproto Hlen
                    (or_intror Hon)). apply forwarded_intro. }
    destruct Hsum as [Hz | [Hoff | Hck]]; [contradiction | discriminate |].
    exists (udp_checksum_loads (env s) pk).
    rewrite (udp_checksum_verified _ _ p s pk Hlive Hnh Hproto Hlen Hnz Hon).
    unfold udp_checksum_result in Hck. rewrite Hck. apply forwarded_intro. }
  assert (Hdrop : ~ udp_acceptable click_in_cksum click_in_cksum_pseudohdr s pk ->
                  exists (reason : CheckUDPHeader.Reason) (more : list (Z * Z)),
                    drop_contract (udp_diagnostic reason)
                      (CheckUDPHeader.reason_index reason) p (after_loads more s)
                      (CheckUDPHeader.simple_action click_in_cksum
                         click_in_cksum_pseudohdr p s)).
  { intros Hnot. unfold udp_acceptable in Hnot.
    destruct (has_network_header pk) eqn:Hnh.
    2: { exists CheckUDPHeader.NOT_UDP, [].
         rewrite (udp_no_header _ _ p s pk Hlive Hnh).
         rewrite <- (after_no_loads s) at 2. apply (udp_diverted _ _ _ _ pk Hlive). }
    destruct (Z.eq_dec (ip_p (mem (env s)) (Packet.ip_header pk)) IP_PROTO_UDP)
      as [Hproto | Hproto].
    2: { exists CheckUDPHeader.NOT_UDP, (udp_protocol_load pk).
         rewrite (udp_other_protocol _ _ p s pk Hlive Hnh Hproto).
         apply (udp_diverted _ _ _ _ pk Hlive). }
    destruct (Z_lt_ge_dec (udp_claimed_length (env s) pk) sizeof_click_udp)
      as [Hshort | Hlen].
    { exists CheckUDPHeader.BAD_LENGTH, (udp_length_loads pk).
      rewrite (udp_short_length _ _ p s pk Hlive Hnh Hproto Hshort).
      apply (udp_diverted _ _ _ _ pk Hlive). }
    apply Z.ge_le in Hlen.
    destruct (Z.eq_dec (uh_sum (mem (env s)) (udp_header pk)) 0) as [Hz | Hnz];
      [exfalso; apply Hnot; auto |].
    destruct (_checksum (elt s)) eqn:Hon; [| exfalso; apply Hnot; auto 6].
    exists CheckUDPHeader.BAD_CHECKSUM, (udp_checksum_loads (env s) pk).
    rewrite (udp_checksum_verified _ _ p s pk Hlive Hnh Hproto Hlen Hnz Hon).
    fold (udp_checksum_result click_in_cksum click_in_cksum_pseudohdr (env s) pk).
    destruct (Z.eqb_spec
                (udp_checksum_result click_in_cksum click_in_cksum_pseudohdr
                   (env s) pk) 0) as [Hck | _];
      [exfalso; apply Hnot; auto 6 |].
    apply (udp_diverted _ _ _ _ pk Hlive). }
  split; [| exact Hdrop].
  split; [exact Hfwd |].
  intros [more Hforward].
  destruct (udp_acceptable_or_not click_in_cksum click_in_cksum_pseudohdr s pk)
    as [Hyes | Hno]; [exact Hyes |].
  destruct (Hdrop Hno) as (reason & more' & Hcontract).
  exfalso. exact (forwarded_not_dropped _ _ _ _ _ _ _ Hforward Hcontract).
Qed.

Lemma X16_udp_acceptance_witness :
  (udp_acceptable spec_in_cksum spec_in_cksum_pseudohdr
     (udp_stage true (udp_datagram 165 210)) sample_packet
   <-> exists more : list (Z * Z),
         forwarded more (PacketAt 1000) (udp_stage true (udp_datagram 165 210))
           (CheckUDPHeader.simple_action spec_in_cksum spec_in_cksum_pseudohdr
              (PacketAt 1000) (udp_stage true (udp_datagram 165 210))))
  /\ (exists (reason : CheckUDPHeader.Reason) (more : list (Z * Z)),
        drop_contract (udp_diagnostic reason)
          (CheckUDPHeader.reason_index reason) (PacketAt 1000)
          (after_loads more (udp_stage true (udp_datagram 1 2)))
          (CheckUDPHeader.simple_action spec_in_cksum spec_in_cksum_pseudohdr
             (PacketAt 1000) (udp_stage true (udp_datagram 1 2)))).
Proof.
  split.
  - apply (X16_udp_acceptance spec_in_cksum spec_in_cksum_pseudohdr
             (PacketAt 1000) (udp_stage true (udp_datagram 165 210))
             sample_packet).
    reflexivity.
  - apply (X16_udp_acceptance spec_in_cksum spec_in_cksum_pseudohdr
             (PacketAt 1000) (udp_stage true (udp_datagram 1 2)) sample_packet).
    + reflexivity.
    + intros (_ & _ & _ & [Hsum | [Hoff | Hck]]);
        vm_compute in Hsum || vm_compute in Hoff || vm_compute in Hck;
        discriminate.
Defined.

(** X17: [CheckTCPHeader] forwards a live packet exactly when it has a
    network header, its protocol field is 6, its TCP data offset gives at
    least 20 bytes and at most the length computed from the IP header,
    and [CHECKSUM] is off or the checksum over the segment and the
    pseudo-header comes out 0.  Every other live packet is dropped for
    one of the three reasons. *)
Theorem X17_tcp_acceptance
  (click_in_cksum : (Z -> Z) -> Z -> Z -> Z)
  (click_in_cksum_pseudohdr : (Z -> Z) -> Z -> Z -> Z -> Z)
  (p : PacketPtr) (s : Stage) (pk : Packet)
  (Hlive : objs (env s) !! address p = Some pk) :
  (tcp_acceptable click_in_cksum click_in_cksum_pseudohdr s pk
   <-> exists more : list (Z * Z),
         forwarded more p s
           (CheckTCPHeader.simple_action click_in_cksum click_in_cksum_pseudohdr p s))
  /\ (~ tcp_acceptable click_in_cksum click_in_cksum_pseudohdr s pk ->
      exists (reason : CheckTCPHeader.Reason) (more : list (Z * Z)),
        drop_contract (tcp_diagnostic reason)
          (CheckTCPHeader.reason_index reason) p (after_loads more s)
          (CheckTCPHeader.simple_action click_in_cksum click_in_cksum_pseudohdr p s)).
Proof.
  assert (Hfwd : tcp_acceptable click_in_cksum click_in_cksum_pseudohdr s pk ->
                 exists more : list (Z * Z),
                   forwarded more p s
                     (CheckTCPHeader.simple_action click_in_cksum
                        click_in_cksum_pseudohdr p s)).
  { intros (Hnh & Hproto & H1 & H2 & Hsum).
    destruct (_checksum (elt s)) eqn:Hon.
    2: { exists (tcp_header_loads pk).
         rewrite (tcp_checksum_not_verified _ _ p s pk Hlive Hnh Hproto H1 H2 Hon).
         apply forwarded_intro. }
    destruct Hsum as [Hoff | Hck]; [discriminate |].
    exists (tcp_checksum_loads (env s) pk).
    rewrite (tcp_checksum_verified _ _ p s pk Hlive Hnh Hproto H1 H2 Hon).
    unfold tcp_checksum_result in Hck. rewrite Hck. apply forwarded_intro. }
  assert (Hdrop : ~ tcp_acceptable click_in_cksum click_in_cksum_pseudohdr s pk ->
                  exists (reason : CheckTCPHeader.Reason) (more : list (Z * Z)),
                    drop_contract (tcp_diagnostic reason)
                      (CheckTCPHeader.reason_index reason) p (after_loads more s)
                      (CheckTCPHeader.simple_action click_in_cksum
                         click_in_cksum_pseudohdr p s)).
  { intros Hnot. unfold tcp_acceptable in Hnot.
    destruct (has_network_header pk) eqn:Hnh.
    2: { exists CheckTCPHeader.NOT_TCP, [].
         rewrite (tcp_no_header _ _ p s pk Hlive Hnh).
         rewrite <- (after_no_loads s) at 2. apply (tcp_diverted _ _ _ _ pk Hlive). }
    destruct (Z.eq_dec (ip_p (mem (env s)) (Packet.ip_header pk)) IP_PROTO_TCP)
      as [Hproto | Hproto].
    2: { exists CheckTCPHeader.NOT_TCP, (tcp_protocol_load pk).
         rewrite (tcp_other_protocol _ _ p s pk Hlive Hnh Hproto).
         apply (tcp_diverted _ _ _ _ pk Hlive). }
    destruct (Z_lt_ge_dec (tcp_header_bytes (env s) pk) sizeof_click_tcp)
      as [Hshort | H1].
    { exists CheckTCPHeader.BAD_LENGTH, (tcp_header_loads pk).
      rewrite (tcp_bad_length _ _ p s pk Hlive Hnh Hproto (or_introl Hshort)).
      apply (tcp_diverted _ _ _ _ pk Hlive). }
    destruct (Z_lt_ge_dec (tcp_claimed_length (env s) pk)
                          (tcp_header_bytes (env s) pk)) as [Hshort | H2].
    { exists CheckTCPHeader.BAD_LENGTH, (tcp_header_loads pk).
      rewrite (tcp_bad_length _ _ p s pk Hlive Hnh Hproto (or_intror Hshort)).
      apply (tcp_diverted _ _ _ _ pk Hlive). }
    apply Z.ge_le in H1, H2.
    destruct (_checksum (elt s)) eqn:Hon; [| exfalso; apply Hnot; auto 6].
    exists CheckTCPHeader.BAD_CHECKSUM, (tcp_checksum_loads (env s) pk).
    rewrite (tcp_checksum_verified _ _ p s pk Hlive Hnh Hproto H1 H2 Hon).
    fold (tcp_checksum_result click_in_cksum click_in_cksum_pseudohdr (env s) pk).
    destruct (Z.eqb_spec
                (tcp_checksum_result click_in_cksum click_in_cksum_pseudohdr
                   (env s) pk) 0) as [Hck | _];
      [exfalso; apply Hnot; auto 6 |].
    apply (tcp_diverted _ _ _ _ pk Hlive). }
  split; [| exact Hdrop].
  split; [exact Hfwd |].
  intros [more Hforward].
  destruct (tcp_acceptable_or_not click_in_cksum click_in_cksum_pseudohdr s pk)
    as [Hyes | Hno]; [exact Hyes |].
  destruct (Hdrop Hno) as (reason & more' & Hcontract).
  exfalso. exact (forwarded_not_dropped _ _ _ _ _ _ _ Hforward Hcontract).
Qed.

Lemma X17_tcp_acceptance_witness :
  (tcp_acceptable spec_in_cksum spec_in_cksum_pseudohdr
     (tcp_stage true (tcp_segment 80 134 175)) tcp_packet
   <-> exists more : list (Z * Z),
         forwarded more (PacketAt 1000) (tcp_stage true (tcp_segment 80 134 175))
           (CheckTCPHeader.simple_action spec_in_cksum spec_in_cksum_pseudohdr
              (PacketAt 1000) (tcp_stage true (tcp_segment 80 134 175))))
  /\ (exists (reason : CheckTCPHeader.Reason) (more : list (Z * Z)),
        drop_contract (tcp_diagnostic reason)
          (CheckTCPHeader.reason_index reason) (PacketAt 1000)
          (after_loads more (tcp_stage true (tcp_segment 64 134 175)))
          (CheckTCPHeader.simple_action spec_in_cksum spec_in_cksum_pseudohdr
             (PacketAt 1000) (tcp_stage true (tcp_segment 64 134 175)))).
Proof.
  split.
  - apply (X17_tcp_acceptance spec_in_cksum spec_in_cksum_pseudohdr
             (PacketAt 1000) (tcp_stage true (tcp_segment 80 134 175))
             tcp_packet).
    reflexivity.
  - apply (X17_tcp_acceptance spec_in_cksum spec_in_cksum_pseudohdr
             (PacketAt 1000) (tcp_stage true (tcp_segment 64 134 175)) tcp_packet).
    + reflexivity.
    + intros (_ & _ & Hshort & _). vm_compute in Hshort. apply Hshort. reflexivity.
Defined.

(** ** Lengths at the edge of [unsigned] arithmetic *)

Lemma peek8_range (m : Z -> Z) (a : Z) : 0 <= peek8 m a < 256.
Proof.
  unfold peek8. change 255 with (Z.ones 8). rewrite Z.land_ones by lia.
  apply Z.mod_pos_bound. lia.
Qed.

Lemma ip_header_bytes_range (w : World) (pk : Packet) :
  0 <= ip_header_bytes w pk <= 60.
Proof.
  unfold ip_header_bytes, ip_hl.
  set (b := peek8 (mem w) (Packet.ip_header pk + offset_ip_hl)).
  change 15 with (Z.ones 4). rewrite Z.land_ones by lia.
  rewrite Z.shiftl_mul_pow2 by lia.
  pose proof (Z.mod_pos_bound b (2 ^ 4) ltac:(lia)) as Hb.
  rewrite to_unsigned_small; unfold two32; lia.
Qed.

Lemma tcp_header_bytes_range (w : World) (pk : Packet) :
  0 <= tcp_header_bytes w pk <= 60.
Proof.
  unfold tcp_header_bytes, th_off.
  pose proof (peek8_range (mem w) (tcp_header pk + offset_th_off)) as Hb.
  set (b := peek8 (mem w) (tcp_header pk + offset_th_off)) in *.
  rewrite Z.shiftr_div_pow2 by lia. rewrite Z.shiftl_mul_pow2 by lia.
  assert (0 <= b / 2 ^ 4 <= 15).
  { split; [apply Z.div_pos; lia |].
    apply Z.lt_succ_r. apply Z.div_lt_upper_bound; lia. }
  rewrite to_unsigned_small; unfold two32; lia.
Qed.

Lemma ntohs_nonnegative (x : Z) : 0 <= ntohs x.
Proof.
  unfold ntohs. apply Z.lor_nonneg. split.
  - apply Z.shiftl_nonneg. apply Z.land_nonneg. right. lia.
  - apply Z.land_nonneg. right. lia.
Qed.

(** X18: in [CheckTCPHeader] the length of the segment is the IP total
    length minus the IP header length, in [unsigned] arithmetic.  For a
    live TCP packet whose IP total length is smaller than its IP header
    length the difference wraps to 2^32 minus the shortfall, which no TCP
    header length exceeds: such a packet is never dropped for its length,
    and with [CHECKSUM] off it is forwarded. *)
Theorem X18_tcp_total_length_underflow
  (click_in_cksum : (Z -> Z) -> Z -> Z -> Z)
  (click_in_cksum_pseudohdr : (Z -> Z) -> Z -> Z -> Z -> Z)
  (p : PacketPtr) (s : Stage) (pk : Packet)
  (Hlive : objs (env s) !! address p = Some pk)
  (Hnh : has_network_header pk = true)
  (Hproto : ip_p (mem (env s)) (Packet.ip_header pk) = IP_PROTO_TCP)
  (Hunder : ntohs (ip_len (mem (env s)) (Packet.ip_header pk))
            < ip_header_bytes (env s) pk)
  (Hoff : sizeof_click_tcp <= tcp_header_bytes (env s) pk) :
  tcp_claimed_length (env s) pk
  = two32 - (ip_header_bytes (env s) pk
             - ntohs (ip_len (mem (env s)) (Packet.ip_header pk)))
  /\ tcp_header_bytes (env s) pk <= tcp_claimed_length (env s) pk
  /\ (_checksum (elt s) = false ->
      forwarded (tcp_header_loads pk) p s
        (CheckTCPHeader.simple_action click_in_cksum click_in_cksum_pseudohdr p s)).
Proof.
  pose proof (ip_header_bytes_range (env s) pk) as Hip.
  pose proof (tcp_header_bytes_range (env s) pk) as Htcp.
  pose proof (ntohs_nonnegative (ip_len (mem (env s)) (Packet.ip_header pk)))
    as Hlen.
  assert (Hclaimed : tcp_claimed_length (env s) pk
                     = two32 - (ip_header_bytes (env s) pk
                                - ntohs (ip_len (mem (env s)) (Packet.ip_header pk)))).
  { unfold tcp_claimed_length, to_unsigned.
    set (d := ntohs (ip_len (mem (env s)) (Packet.ip_header pk))
              - ip_header_bytes (env s) pk) in *.
    replace d with (d + 1 * two32 - two32 + 0) by lia.
    replace (d + 1 * two32 - two32 + 0) with (d + two32 + (-1) * two32) by lia.
    rewrite Z.mod_add by (unfold two32; lia).
    rewrite Z.mod_small; unfold two32, d in *; lia. }
  split; [exact Hclaimed |].
  assert (Hpass : tcp_header_bytes (env s) pk <= tcp_claimed_length (env s) pk).
  { rewrite Hclaimed. unfold two32. lia. }
  split; [exact Hpass |].
  intros Hoffc.
  rewrite (tcp_checksum_not_verified _ _ p s pk Hlive Hnh Hproto Hoff Hpass Hoffc).
  apply forwarded_intro.
Qed.

Lemma X18_tcp_total_length_underflow_witness :
  tcp_claimed_length (tcp_world tcp_underflow_segment) tcp_packet
  = two32 - (ip_header_bytes (tcp_world tcp_underflow_segment) tcp_packet
             - ntohs (ip_len (mem (tcp_world tcp_underflow_segment))
                             (Packet.ip_header tcp_packet)))
  /\ forwarded (tcp_header_loads tcp_packet) (PacketAt 1000)
       (tcp_stage false tcp_underflow_segment)
       (CheckTCPHeader.simple_action spec_in_cksum spec_in_cksum_pseudohdr
          (PacketAt 1000) (tcp_stage false tcp_underflow_segment)).
Proof.
  destruct (X18_tcp_total_length_underflow spec_in_cksum spec_in_cksum_pseudohdr
              (PacketAt 1000) (tcp_stage false tcp_underflow_segment) tcp_packet)
    as (Hclaimed & _ & Hforward).
  - reflexivity.
  - reflexivity.
  - reflexivity.
  - reflexivity.
  - vm_compute. discriminate.
  - split; [exact Hclaimed | apply Hforward; reflexivity].
Defined.

(** ** One run of [simple_action], by cases *)

Lemma udp_drop_outcome (reason : CheckUDPHeader.Reason) (p : PacketPtr) (s : Stage) :
  CheckUDPHeader.drop reason p s
  = drop_outcome (udp_diagnostic reason) (CheckUDPHeader.reason_index reason) p s.
Proof. destruct s as [e w]. apply udp_drop_result. Qed.

Lemma tcp_drop_outcome (reason : CheckTCPHeader.Reason) (p : PacketPtr) (s : Stage) :
  CheckTCPHeader.drop reason p s
  = drop_outcome (tcp_diagnostic reason) (CheckTCPHeader.reason_index reason) p s.
Proof. destruct s as [e w]. apply tcp_drop_result. Qed.

Lemma udp_reason_index_bound (reason : CheckUDPHeader.Reason) :
  (CheckUDPHeader.reason_index reason < NREASONS)%nat.
Proof. destruct reason; unfold NREASONS; simpl; lia. Qed.

Lemma tcp_reason_index_bound (reason : CheckTCPHeader.Reason) :
  (CheckTCPHeader.reason_index reason < NREASONS)%nat.
Proof. destruct reason; unfold NREASONS; simpl; lia. Qed.

Lemma udp_is_checker_step
  (click_in_cksum : (Z -> Z) -> Z -> Z -> Z)
  (click_in_cksum_pseudohdr : (Z -> Z) -> Z -> Z -> Z -> Z) :
  checker_step (CheckUDPHeader.simple_action click_in_cksum click_in_cksum_pseudohdr).
Proof.
  intros p s. destruct (objs (env s) !! address p) as [pk |] eqn:Hlive.
  2: { unfold CheckUDPHeader.simple_action, bind, in_world, deref.
       rewrite Hlive. reflexivity. }
  assert (Hdrop : forall reason more,
            CheckUDPHeader.simple_action click_in_cksum click_in_cksum_pseudohdr p s
            = CheckUDPHeader.drop reason p (after_loads more s) ->
            exists (msg : Chatter) (idx : nat) (more : list (Z * Z)),
              (idx < NREASONS)%nat
              /\ CheckUDPHeader.simple_action click_in_cksum
                   click_in_cksum_pseudohdr p s
                 = drop_outcome msg idx p (after_loads more s)).
  { intros reason more Heq.
    exists (udp_diagnostic reason), (CheckUDPHeader.reason_index reason), more.
    split; [apply udp_reason_index_bound |].
    rewrite Heq. apply udp_drop_outcome. }
  destruct (has_network_header pk) eqn:Hnh.
  2: { right. apply (Hdrop CheckUDPHeader.NOT_UDP []).
       rewrite after_no_loads. apply (udp_no_header _ _ p s pk Hlive Hnh). }
  destruct (Z.eq_dec (ip_p (mem (env s)) (Packet.ip_header pk)) IP_PROTO_UDP)
    as [Hproto | Hproto].
  2: { right. apply (Hdrop CheckUDPHeader.NOT_UDP (udp_protocol_load pk)).
       apply (udp_other_protocol _ _ p s pk Hlive Hnh Hproto). }
  destruct (Z_lt_ge_dec (udp_claimed_length (env s) pk) sizeof_click_udp)
    as [Hshort | Hlen].
  { right. apply (Hdrop CheckUDPHeader.BAD_LENGTH (udp_length_loads pk)).
    apply (udp_short_length _ _ p s pk Hlive Hnh Hproto Hshort). }
  apply Z.ge_le in Hlen.
  destruct (Z.eq_dec (uh_sum (mem (env s)) (udp_header pk)) 0) as [Hsum | Hsum].
  { left. exists (udp_header_loads pk).
    apply (udp_checksum_not_verified _ _ p s pk Hlive Hnh Hproto Hlen
             (or_introl Hsum)). }
  destruct (_checksum (elt s)) eqn:Hon.
  2: { left. exists (udp_header_loads pk).
       apply (udp_checksum_not_verified _ _ p s pk Hlive Hnh Hproto Hlen
                (or_intror Hon)). }
  pose proof (udp_checksum_verified click_in_cksum click_in_cksum_pseudohdr
                p s pk Hlive Hnh Hproto Hlen Hsum Hon) as Heq.
  match type of Heq with
  | _ = (if ?c then _ else _) => destruct c
  end.
  - left. exists (udp_checksum_loads (env s) pk). exact Heq.
  - right. apply (Hdrop CheckUDPHeader.BAD_CHECKSUM _ Heq).
Qed.

Lemma tcp_is_checker_step
  (click_in_cksum : (Z -> Z) -> Z -> Z -> Z)
  (click_in_cksum_pseudohdr : (Z -> Z) -> Z -> Z -> Z -> Z) :
  checker_step (CheckTCPHeader.simple_action click_in_cksum click_in_cksum_pseudohdr).
Proof.
  intros p s. destruct (objs (env s) !! address p) as [pk |] eqn:Hlive.
  2: { unfold CheckTCPHeader.simple_action, bind, in_world, deref.
       rewrite Hlive. reflexivity. }
  assert (Hdrop : forall reason more,
            CheckTCPHeader.simple_action click_in_cksum click_in_cksum_pseudohdr p s
            = CheckTCPHeader.drop reason p (after_loads more s) ->
            exists (msg : Chatter) (idx : nat) (more : list (Z * Z)),
              (idx < NREASONS)%nat
              /\ CheckTCPHeader.simple_action click_in_cksum
                   click_in_cksum_pseudohdr p s
                 = drop_outcome msg idx p (after_loads more s)).
  { intros reason more Heq.
    exists (tcp_diagnostic reason), (CheckTCPHeader.reason_index reason), more.
    split; [apply tcp_reason_index_bound |].
    rewrite Heq. apply tcp_drop_outcome. }
  destruct (has_network_header pk) eqn:Hnh.
  2: { right. apply (Hdrop CheckTCPHeader.NOT_TCP []).
       rewrite after_no_loads. apply (tcp_no_header _ _ p s pk Hlive Hnh). }
  destruct (Z.eq_dec (ip_p (mem (env s)) (Packet.ip_header pk)) IP_PROTO_TCP)
    as [Hproto | Hproto].
  2: { right. apply (Hdrop CheckTCPHeader.NOT_TCP (tcp_protocol_load pk)).
       apply (tcp_other_protocol _ _ p s pk Hlive Hnh Hproto). }
  destruct (Z_lt_ge_dec (tcp_header_bytes (env s) pk) sizeof_click_tcp)
    as [Hshort | H1].
  { right. apply (Hdrop CheckTCPHeader.BAD_LENGTH (tcp_header_loads pk)).
    apply (tcp_bad_length _ _ p s pk Hlive Hnh Hproto (or_introl Hshort)). }
  destruct (Z_lt_ge_dec (tcp_claimed_length (env s) pk)
                        (tcp_header_bytes (env s) pk)) as [Hshort | H2].
  { right. apply (Hdrop CheckTCPHeader.BAD_LENGTH (tcp_header_loads pk)).
    apply (tcp_bad_length _ _ p s pk Hlive Hnh Hproto (or_intror Hshort)). }
  apply Z.ge_le in H1, H2.
  destruct (_checksum (elt s)) eqn:Hon.
  2: { left. exists (tcp_header_loads pk).
       apply (tcp_checksum_not_verified _ _ p s pk Hlive Hnh Hproto H1 H2 Hon). }
  pose proof (tcp_checksum_verified click_in_cksum click_in_cksum_pseudohdr
                p s pk Hlive Hnh Hproto H1 H2 Hon) as Heq.
  match type of Heq with
  | _ = (if ?c then _ else _) => destruct c
  end.
  - left. exists (tcp_checksum_loads (env s) pk). exact Heq.
  - right. apply (Hdrop CheckTCPHeader.BAD_CHECKSUM _ Heq).
Qed.

(** ** Counters over a stream of packets *)

Lemma total_cons (y : Z) (c : list Z) : total (y :: c) = y + total c.
Proof. reflexivity. Qed.

Lemma total_alter (f : Z -> Z) (c : list Z) :
  forall (i : nat) (x : Z),
    c !! i = Some x -> total (alter f i c) = total c - x + f x.
Proof.
  induction c as [| y c IH]; intros i x Hx; [discriminate |].
  destruct i as [| i].
  - injection Hx as Hy.
    change (alter f 0%nat (y :: c)) with (f y :: c).
    rewrite !total_cons. subst y. lia.
  - change (alter f (S i) (y :: c)) with (y :: alter f i c).
    rewrite !total_cons, (IH i x Hx). lia.
Qed.

Lemma total_nonnegative (c : list Z) :
  Forall (fun x => 0 <= x) c -> 0 <= total c.
Proof.
  induction 1 as [| y c Hy _ IH]; [reflexivity |].
  rewrite total_cons. lia.
Qed.

Lemma total_bounds_entry (c : list Z) :
  Forall (fun x => 0 <= x) c ->
  forall (i : nat) (x : Z), c !! i = Some x -> 0 <= x <= total c.
Proof.
  induction 1 as [| y c Hy Hc IH]; intros i x Hx; [discriminate |].
  pose proof (total_nonnegative c Hc) as Hpos.
  rewrite total_cons.
  destruct i as [| i].
  - injection Hx as ->. lia.
  - specialize (IH i x Hx). lia.
Qed.

Lemma alter_keeps_nonnegative (c : list Z) (i : nat) :
  Forall (fun x => 0 <= x) c ->
  Forall (fun x => 0 <= x) (alter increment i c).
Proof.
  intros Hc. revert i. induction Hc as [| y c Hy Hc IH]; intros i.
  - constructor.
  - destruct i as [| i].
    + change (alter increment 0%nat (y :: c)) with (increment y :: c).
      constructor; [| assumption].
      unfold increment, to_uint64. apply Z.mod_pos_bound. reflexivity.
    + change (alter increment (S i) (y :: c)) with (y :: alter increment i c).
      constructor; [exact Hy | apply IH].
Qed.

Lemma printed_nothing (verbose : bool) (d : Z) : printed verbose d d = 0.
Proof.
  unfold printed. destruct verbose; [lia |].
  destruct (Z.eqb_spec d 0) as [-> | _]; reflexivity.
Qed.

Lemma printed_adds (verbose : bool) (d0 d1 d2 : Z) :
  0 <= d0 -> d0 <= d1 -> d1 <= d2 ->
  printed verbose d0 d1 + printed verbose d1 d2 = printed verbose d0 d2.
Proof.
  intros H0 H1 H2. unfold printed. destruct verbose; [lia |].
  destruct (Z.eqb_spec d0 0), (Z.eqb_spec d1 0), (Z.ltb_spec 0 d1),
    (Z.ltb_spec 0 d2); simpl; lia.
Qed.

Lemma evolves_nothing (ps : list PacketPtr) (s : Stage) :
  counters_ok (elt s) -> evolves 0 ps s s.
Proof.
  intros Hok. unfold evolves.
  split; [exact Hok |]. split; [lia |]. split; [lia |]. split; [lia |].
  split; [reflexivity |]. split; [reflexivity |]. split; [reflexivity |].
  split; [reflexivity |]. split; [reflexivity |].
  split.
  { exists []. rewrite app_nil_r, printed_nothing. split; reflexivity. }
  split.
  { intros _. split; [reflexivity |]. exists [].
    rewrite app_nil_r. split; [reflexivity |]. split; [simpl; lia | constructor]. }
  intros _. split; [reflexivity | auto].
Qed.

Lemma evolves_more_packets (n : Z) (ps ps' : list PacketPtr) (s s' : Stage) :
  (forall p, In p ps -> In p ps') -> evolves n ps s s' -> evolves n ps' s s'.
Proof.
  intros Hsub (H1 & H2 & H3 & H4 & H5 & H6 & H7 & H8 & H9 & H10 & H11 & H12).
  unfold evolves. repeat (split; [assumption |]).
  split; [| exact H12].
  intros Hout. destruct (H11 Hout) as (Hobjs & new & Hsent & Hlen & Hall).
  split; [exact Hobjs |]. exists new. split; [exact Hsent |].
  split; [exact Hlen |].
  eapply Forall_impl; [exact Hall |]. intros x [Hx1 Hx2]. auto.
Qed.

Lemma evolves_then (n1 n2 : Z) (ps : list PacketPtr) (s s1 s2 : Stage) :
  0 <= _drops (elt s) ->
  evolves n1 ps s s1 -> evolves n2 ps s1 s2 -> evolves (n1 + n2) ps s s2.
Proof.
  intros Hd0
    (A1 & A2 & A3 & A4 & A5 & A6 & A7 & A8 & A9 & (m1 & A10 & A10') & A11 & A12)
    (B1 & B2 & B3 & B4 & B5 & B6 & B7 & B8 & B9 & (m2 & B10 & B10') & B11 & B12).
  unfold evolves.
  split; [exact B1 |]. split; [lia |]. split; [lia |]. split; [lia |].
  split; [congruence |]. split; [congruence |]. split; [congruence |].
  split; [tauto |]. split; [congruence |].
  split.
  { exists (m1 ++ m2). rewrite B10, A10, app_assoc. split; [reflexivity |].
    rewrite length_app, Nat2Z.inj_add, A10', B10', A5.
    apply printed_adds; assumption. }
  split.
  { intros Hout. destruct (A11 Hout) as (Ho1 & new1 & Hs1 & Hl1 & Hf1).
    destruct B11 as (Ho2 & new2 & Hs2 & Hl2 & Hf2); [congruence |].
    split; [congruence |]. exists (new1 ++ new2).
    rewrite Hs2, Hs1, app_assoc. split; [reflexivity |].
    split; [rewrite length_app, Nat2Z.inj_add; lia |].
    apply Forall_app. split; assumption. }
  intros Hout. destruct (A12 Hout) as (Hs1 & Hdead1).
  destruct B12 as (Hs2 & Hdead2); [congruence |].
  split; [congruence | auto].
Qed.

Lemma evolves_accepted (more : list (Z * Z)) (ps : list PacketPtr) (s : Stage) :
  counters_ok (elt s) ->
  _count (elt s) + _drops (elt s) + 1 < two64 ->
  evolves 1 ps s (accepted (after_loads more s)).
Proof.
  intros (Hc & Hd & Hr) Hroom.
  assert (Hinc : increment (_count (elt s)) = _count (elt s) + 1).
  { apply increment_in_range. lia. }
  unfold evolves, accepted, after_loads. cbn.
  rewrite Hinc.
  split.
  { unfold counters_ok. cbn. split; [lia |]. split; [lia | exact Hr]. }
  split; [lia |]. split; [lia |]. split; [lia |].
  split; [reflexivity |]. split; [reflexivity |]. split; [reflexivity |].
  split; [reflexivity |]. split; [reflexivity |].
  split.
  { exists []. rewrite app_nil_r, printed_nothing. split; reflexivity. }
  split.
  { intros _. split; [reflexivity |]. exists [].
    rewrite app_nil_r. split; [reflexivity |]. split; [simpl; lia | constructor]. }
  intros _. split; [reflexivity | auto].
Qed.

Lemma logged_parts (msg : Chatter) (e : Checker) (w : World) :
  objs (logged msg e w) = objs w
  /\ mem (logged msg e w) = mem w
  /\ sent (logged msg e w) = sent w
  /\ exists msgs : list Chatter,
       chatter (logged msg e w) = chatter w ++ msgs
       /\ (0 <= _drops e ->
           Z.of_nat (length msgs)
           = printed (_verbose e) (_drops e) (_drops e + 1)).
Proof.
  unfold logged, printed.
  destruct (Z.eqb_spec (_drops e) 0) as [Hz | Hnz];
    destruct (_verbose e); simpl;
    (split; [reflexivity |]); (split; [reflexivity |]); (split; [reflexivity |]).
  - exists [msg]. split; [reflexivity |]. intros _. simpl. lia.
  - exists [msg]. split; [reflexivity |]. intros _. simpl.
    rewrite Hz. reflexivity.
  - exists [msg]. split; [reflexivity |]. intros _. simpl. lia.
  - exists []. split; [symmetry; apply app_nil_r |]. intros _. reflexivity.
Qed.

Lemma dropped_counters_ok (idx : nat) (e : Checker) :
  (idx < NREASONS)%nat ->
  counters_ok e ->
  _count e + _drops e + 1 < two64 ->
  counters_ok (dropped_element idx e)
  /\ _drops (dropped_element idx e) = _drops e + 1.
Proof.
  intros Hidx (Hc & Hd & Hr) Hroom.
  assert (Hinc : increment (_drops e) = _drops e + 1).
  { apply increment_in_range. lia. }
  unfold counters_ok, dropped_element. cbn. rewrite Hinc.
  split; [| reflexivity].
  split; [exact Hc |]. split; [lia |].
  destruct (_reason_drops e) as [c |]; cbn; [| exact I].
  destruct Hr as (Hlen & Hpos & Hsum).
  destruct (lookup_lt_is_Some_2 c idx) as [x Hx]; [lia |].
  pose proof (total_bounds_entry c Hpos idx x Hx) as Hbound.
  split; [rewrite length_alter; exact Hlen |].
  split; [apply alter_keeps_nonnegative; exact Hpos |].
  rewrite (total_alter increment c idx x Hx).
  rewrite increment_in_range by lia. lia.
Qed.

Lemma evolves_dropped (msg : Chatter) (idx : nat) (more : list (Z * Z))
  (p r : PacketPtr) (ps : list PacketPtr) (s s' : Stage) :
  (idx < NREASONS)%nat ->
  In p ps ->
  counters_ok (elt s) ->
  _count (elt s) + _drops (elt s) + 1 < two64 ->
  drop_outcome msg idx p (after_loads more s) = Some (r, s') ->
  r = NULL /\ evolves 1 ps s s'.
Proof.
  intros Hidx Hin Hok Hroom Hrun.
  destruct (dropped_counters_ok idx (elt s) Hidx Hok Hroom) as [Hok' Hdrops].
  destruct Hok as (Hc & Hd & Hr).
  destruct (logged_parts msg (elt s) (with_loads (loads (env s) ++ more) (env s)))
    as (Lobjs & Lmem & Lsent & msgs & Lchat & Lcount).
  specialize (Lcount Hd).
  assert (Hnone : _reason_drops (dropped_element idx (elt s)) = None
                  <-> _reason_drops (elt s) = None).
  { unfold dropped_element. cbn. destruct (_reason_drops (elt s)); cbn;
      split; intros H; (discriminate || reflexivity). }
  unfold drop_outcome, after_loads in Hrun. cbn [elt env] in Hrun.
  destruct (Z.eqb_spec (noutputs (elt s)) 2) as [Hout | Hout].
  - injection Hrun as <- <-. split; [reflexivity |].
    unfold evolves. cbn [elt env].
    split; [exact Hok' |]. rewrite Hdrops.
    split; [unfold dropped_element; cbn; lia |].
    split; [unfold dropped_element; cbn; lia |]. split; [lia |].
    split; [reflexivity |]. split; [reflexivity |]. split; [reflexivity |].
    split; [exact Hnone |].
    split; [cbn; exact Lmem |].
    split; [exists msgs; split; [cbn; exact Lchat | exact Lcount] |].
    split.
    + intros _. split; [cbn; exact Lobjs |].
      exists [(1, p)]. cbn. split; [reflexivity |].
      split; [lia |]. constructor; [| constructor]. cbn. auto.
    + intros Hcontra. contradiction.
  - destruct (Packet.kill p
                (logged msg (elt s) (with_loads (loads (env s) ++ more) (env s))))
      as [[[] wk] |] eqn:Hkill; [| discriminate].
    injection Hrun as <- <-. split; [reflexivity |].
    assert (Hk : chatter wk = chatter (logged msg (elt s)
                                (with_loads (loads (env s) ++ more) (env s)))
                 /\ mem wk = mem (env s) /\ sent wk = sent (env s)
                 /\ forall a : Z, objs (env s) !! a = None -> objs wk !! a = None).
    { unfold Packet.kill, Packet.delete, bind, deref, store, modify, ret in Hkill.
      rewrite Lobjs in Hkill. cbn in Hkill.
      destruct (objs (env s) !! address p) as [pk |] eqn:Hlive; [| discriminate].
      cbn in Hkill.
      destruct (_use_count pk - 1 <=? 0); cbn in Hkill;
        injection Hkill as <-; cbn; rewrite ?Lobjs;
        (split; [reflexivity |]); (split; [exact Lmem |]);
        (split; [exact Lsent |]); intros a Ha;
        assert (a <> address p) by congruence; cbn.
      - rewrite lookup_delete_ne by congruence.
        rewrite lookup_insert_ne by congruence. exact Ha.
      - rewrite lookup_insert_ne by congruence. exact Ha. }
    destruct Hk as (Kchat & Kmem & Ksent & Kdead).
    unfold evolves. cbn [elt env].
    split; [exact Hok' |]. rewrite Hdrops.
    split; [unfold dropped_element; cbn; lia |].
    split; [unfold dropped_element; cbn; lia |]. split; [lia |].
    split; [reflexivity |]. split; [reflexivity |]. split; [reflexivity |].
    split; [exact Hnone |].
    split; [exact Kmem |].
    split; [exists msgs; split; [rewrite Kchat; exact Lchat | exact Lcount] |].
    split; [intros Hcontra; contradiction |].
    intros _. split; [exact Ksent | exact Kdead].
Qed.

Section Streams.

Variable action : PacketPtr -> M Stage PacketPtr.
Hypothesis Hstep : checker_step action.

Lemma process_cons (p : PacketPtr) (rest : list PacketPtr) (s : Stage) :
  process action (p :: rest) s
  = match action p s with
    | Some (r, s1) =>
        match process action rest s1 with
        | Some (rs, s2) => Some (r :: rs, s2)
        | None => None
        end
    | None => None
    end.
Proof.
  cbn [process]. unfold bind, ret.
  destruct (action p s) as [[r s1] |]; [| reflexivity].
  destruct (process action rest s1) as [[rs s2] |]; reflexivity.
Qed.

Lemma step_evolves (p r : PacketPtr) (ps : list PacketPtr) (s s1 : Stage) :
  In p ps ->
  counters_ok (elt s) ->
  _count (elt s) + _drops (elt s) + 1 < two64 ->
  action p s = Some (r, s1) ->
  evolves 1 ps s s1.
Proof using Hstep.
  intros Hin Hok Hroom Hrun. pose proof (Hstep p s) as Hcase.
  destruct (objs (env s) !! address p) as [pk |]; [| congruence].
  destruct Hcase as [(more & Heq) | (msg & idx & more & Hidx & Heq)].
  - rewrite Heq in Hrun. injection Hrun as <- <-.
    apply evolves_accepted; assumption.
  - rewrite Heq in Hrun.
    apply (evolves_dropped msg idx more p r ps s s1 Hidx Hin Hok Hroom Hrun).
Qed.

Lemma process_evolves (ps : list PacketPtr) :
  forall (s s' : Stage) (rs : list PacketPtr),
    process action ps s = Some (rs, s') ->
    counters_ok (elt s) ->
    _count (elt s) + _drops (elt s) + Z.of_nat (length ps) < two64 ->
    evolves (Z.of_nat (length ps)) ps s s' /\ length rs = length ps.
Proof using Hstep.
  induction ps as [| p rest IH]; intros s s' rs Hrun Hok Hroom.
  - cbn in Hrun. unfold ret in Hrun. injection Hrun as <- <-.
    split; [apply evolves_nothing; exact Hok | reflexivity].
  - rewrite process_cons in Hrun.
    destruct (action p s) as [[r s1] |] eqn:Hfirst; [| discriminate].
    destruct (process action rest s1) as [[rs' s2] |] eqn:Hrest; [| discriminate].
    injection Hrun as <- <-.
    cbn [length] in Hroom. rewrite Nat2Z.inj_succ in Hroom.
    assert (Hone : evolves 1 (p :: rest) s s1).
    { apply (step_evolves p r (p :: rest) s s1); [left; reflexivity | exact Hok | lia
                                                  | exact Hfirst]. }
    pose proof Hone as (Hok1 & Hsum1 & _).
    destruct (IH s1 s2 rs' Hrest Hok1) as [Hmore Hlen]; [lia |].
    split; [| cbn; rewrite Hlen; reflexivity].
    cbn [length]. rewrite Nat2Z.inj_succ.
    replace (Z.succ (Z.of_nat (length rest))) with (1 + Z.of_nat (length rest)) by lia.
    apply (evolves_then 1 _ (p :: rest) s s1 s2);
      [destruct Hok as (_ & Hd & _); exact Hd | exact Hone |].
    apply (evolves_more_packets _ rest); [intros q Hq; right; exact Hq | exact Hmore].
Qed.

Lemma process_returns (ps : list PacketPtr) :
  forall s : Stage,
    noutputs (elt s) = 2 ->
    Forall (fun p => is_Some (objs (env s) !! address p)) ps ->
    counters_ok (elt s) ->
    _count (elt s) + _drops (elt s) + Z.of_nat (length ps) < two64 ->
    exists (rs : list PacketPtr) (s' : Stage), process action ps s = Some (rs, s').
Proof using Hstep.
  induction ps as [| p rest IH]; intros s Hout Hlive Hok Hroom.
  - exists [], s. reflexivity.
  - apply Forall_cons in Hlive. destruct Hlive as [[pk Hp] Hrest].
    cbn [length] in Hroom. rewrite Nat2Z.inj_succ in Hroom.
    assert (Hfirst : exists r s1, action p s = Some (r, s1)).
    { pose proof (Hstep p s) as Hcase. rewrite Hp in Hcase.
      destruct Hcase as [(more & Heq) | (msg & idx & more & Hidx & Heq)].
      - eauto.
      - rewrite Heq. unfold drop_outcome, after_loads. cbn [elt env].
        rewrite Hout. cbn. eauto. }
    destruct Hfirst as (r & s1 & Hfirst).
    assert (Hone : evolves 1 (p :: rest) s s1).
    { apply (step_evolves p r (p :: rest) s s1); [left; reflexivity | exact Hok | lia
                                                  | exact Hfirst]. }
    pose proof Hone as (Hok1 & Hsum1 & _ & _ & _ & _ & Hout1 & _ & _ & _ & Htwo & _).
    destruct (Htwo Hout) as (Hobjs & _).
    destruct (IH s1) as (rs & s2 & Hrun);
      [congruence | rewrite Hobjs; exact Hrest | exact Hok1 | lia |].
    exists (r :: rs), s2. rewrite process_cons, Hfirst, Hrun. reflexivity.
Qed.

End Streams.

Lemma configured_counters_ok (verbose details checksum verbose0 : bool) (nout : Z) :
  counters_ok (configure verbose details checksum (constructor verbose0 nout)).
Proof.
  unfold counters_ok, configure, constructor. cbn.
  split; [lia |]. split; [lia |].
  destruct details; cbn; [| exact I].
  split; [reflexivity |]. split; [| reflexivity].
  unfold NREASONS. cbn.
  repeat first [apply List.Forall_nil | apply List.Forall_cons; [lia |]].
Qed.

Lemma either_is_checker_step
  (click_in_cksum : (Z -> Z) -> Z -> Z -> Z)
  (click_in_cksum_pseudohdr : (Z -> Z) -> Z -> Z -> Z -> Z)
  (action : PacketPtr -> M Stage PacketPtr) :
  action = CheckTCPHeader.simple_action click_in_cksum click_in_cksum_pseudohdr
  \/ action = CheckUDPHeader.simple_action click_in_cksum click_in_cksum_pseudohdr ->
  checker_step action.
Proof.
  intros [-> | ->]; [apply tcp_is_checker_step | apply udp_is_checker_step].
Qed.

(** X19: over any stream of packets that either checker processes, the
    counters add up: [_count + _drops] grows by the number of packets,
    neither counter decreases, the per-reason counters (when DETAILS
    made them) keep adding up to [_drops], one result is returned per
    packet, and the configuration is not touched.  This holds from any
    state whose counters add up, as those of a freshly configured element
    do, for as long as the 64-bit counters do not wrap. *)
Theorem X19_counters_add_up
  (click_in_cksum : (Z -> Z) -> Z -> Z -> Z)
  (click_in_cksum_pseudohdr : (Z -> Z) -> Z -> Z -> Z -> Z)
  (action : PacketPtr -> M Stage PacketPtr)
  (ps rs : list PacketPtr) (s s' : Stage)
  (Haction :
     action = CheckTCPHeader.simple_action click_in_cksum click_in_cksum_pseudohdr
     \/ action = CheckUDPHeader.simple_action click_in_cksum click_in_cksum_pseudohdr)
  (Hok : counters_ok (elt s))
  (Hroom : _count (elt s) + _drops (elt s) + Z.of_nat (length ps) < two64)
  (Hrun : process action ps s = Some (rs, s')) :
  _count (elt s') + _drops (elt s')
  = _count (elt s) + _drops (elt s) + Z.of_nat (length ps)
  /\ _count (elt s) <= _count (elt s')
  /\ _drops (elt s) <= _drops (elt s')
  /\ counters_ok (elt s')
  /\ length rs = length ps
  /\ _verbose (elt s') = _verbose (elt s)
  /\ _checksum (elt s') = _checksum (elt s)
  /\ noutputs (elt s') = noutputs (elt s)
  /\ (forall (verbose details checksum verbose0 : bool) (nout : Z),
        counters_ok (configure verbose details checksum
                               (constructor verbose0 nout))).
Proof.
  pose proof (either_is_checker_step _ _ action Haction) as Hstep.
  destruct (process_evolves action Hstep ps s s' rs Hrun Hok Hroom)
    as [(H1 & H2 & H3 & H4 & H5 & H6 & H7 & _) Hlen].
  repeat (split; [assumption |]).
  apply configured_counters_ok.
Qed.

(** X20: over any such stream the diagnostics printed are: one per drop
    when VERBOSE is set; otherwise a single one, for the first drop the
    element ever makes, so that an element that has already dropped a
    packet prints nothing more. *)
Theorem X20_first_drop_only
  (click_in_cksum : (Z -> Z) -> Z -> Z -> Z)
  (click_in_cksum_pseudohdr : (Z -> Z) -> Z -> Z -> Z -> Z)
  (action : PacketPtr -> M Stage PacketPtr)
  (ps rs : list PacketPtr) (s s' : Stage)
  (Haction :
     action = CheckTCPHeader.simple_action click_in_cksum click_in_cksum_pseudohdr
     \/ action = CheckUDPHeader.simple_action click_in_cksum click_in_cksum_pseudohdr)
  (Hok : counters_ok (elt s))
  (Hroom : _count (elt s) + _drops (elt s) + Z.of_nat (length ps) < two64)
  (Hrun : process action ps s = Some (rs, s')) :
  exists msgs : list Chatter,
    chatter (env s') = chatter (env s) ++ msgs
    /\ (_verbose (elt s) = true ->
        Z.of_nat (length msgs) = _drops (elt s') - _drops (elt s))
    /\ (_verbose (elt s) = false -> _drops (elt s) = 0 ->
        _drops (elt s') = 0 -> msgs = [])
    /\ (_verbose (elt s) = false -> _drops (elt s) = 0 ->
        0 < _drops (elt s') -> length msgs = 1%nat)
    /\ (_verbose (elt s) = false -> 0 < _drops (elt s) -> msgs = []).
Proof.
  pose proof (either_is_checker_step _ _ action Haction) as Hstep.
  destruct (process_evolves action Hstep ps s s' rs Hrun Hok Hroom)
    as [(_ & _ & _ & Hmono & _ & _ & _ & _ & _ & (msgs & Hchat & Hcount) & _) _].
  exists msgs. split; [exact Hchat |].
  unfold printed in Hcount.
  split.
  { intros Hv. rewrite Hv in Hcount. exact Hcount. }
  split.
  { intros Hv Hd0 Hd1. rewrite Hv, Hd0, Hd1 in Hcount. cbn in Hcount.
    destruct msgs; [reflexivity | cbn in Hcount; lia]. }
  split.
  { intros Hv Hd0 Hd1. rewrite Hv, Hd0 in Hcount.
    destruct (Z.ltb_spec 0 (_drops (elt s'))) as [_ | Hle]; [| lia].
    cbn in Hcount. lia. }
  intros Hv Hd0. rewrite Hv in Hcount.
  destruct (Z.eqb_spec (_drops (elt s)) 0) as [Hz | _]; [lia |].
  cbn in Hcount. destruct msgs; [reflexivity | cbn in Hcount; lia].
Qed.

(** X21: what becomes of the packets.  Neither checker ever writes packet
    memory.  With two outputs, a stream of live packets is processed to
    the end, no packet object is changed or released, and output 1
    receives exactly as many packets as were dropped, each one of the
    stream.  With any other number of outputs nothing is pushed to an
    output and no packet object comes into being. *)
Theorem X21_packets_conserved
  (click_in_cksum : (Z -> Z) -> Z -> Z -> Z)
  (click_in_cksum_pseudohdr : (Z -> Z) -> Z -> Z -> Z -> Z)
  (action : PacketPtr -> M Stage PacketPtr)
  (ps : list PacketPtr) (s : Stage)
  (Haction :
     action = CheckTCPHeader.simple_action click_in_cksum click_in_cksum_pseudohdr
     \/ action = CheckUDPHeader.simple_action click_in_cksum click_in_cksum_pseudohdr)
  (Hok : counters_ok (elt s))
  (Hroom : _count (elt s) + _drops (elt s) + Z.of_nat (length ps) < two64) :
  (noutputs (elt s) = 2 ->
   Forall (fun p => is_Some (objs (env s) !! address p)) ps ->
   exists (rs : list PacketPtr) (s' : Stage) (new : list (Z * PacketPtr)),
     process action ps s = Some (rs, s')
     /\ objs (env s') = objs (env s)
     /\ mem (env s') = mem (env s)
     /\ sent (env s') = sent (env s) ++ new
     /\ Z.of_nat (length new) = _drops (elt s') - _drops (elt s)
     /\ Forall (fun x => fst x = 1 /\ In (snd x) ps) new)
  /\ (noutputs (elt s) <> 2 ->
      forall (rs : list PacketPtr) (s' : Stage),
        process action ps s = Some (rs, s') ->
        sent (env s') = sent (env s)
        /\ mem (env s') = mem (env s)
        /\ forall a : Z, objs (env s) !! a = None -> objs (env s') !! a = None).
Proof.
  pose proof (either_is_checker_step _ _ action Haction) as Hstep.
  split.
  - intros Hout Hlive.
    destruct (process_returns action Hstep ps s Hout Hlive Hok Hroom)
      as (rs & s' & Hrun).
    destruct (process_evolves action Hstep ps s s' rs Hrun Hok Hroom)
      as [(_ & _ & _ & _ & _ & _ & _ & _ & Hmem & _ & Htwo & _) _].
    destruct (Htwo Hout) as (Hobjs & new & Hsent & Hlen & Hall).
    exists rs, s', new. auto 10.
  - intros Hout rs s' Hrun.
    destruct (process_evolves action Hstep ps s s' rs Hrun Hok Hroom)
      as [(_ & _ & _ & _ & _ & _ & _ & _ & Hmem & _ & _ & Hone) _].
    destruct (Hone Hout) as (Hsent & Hdead). auto.
Qed.

Lemma X19_counters_add_up_witness :
  match process (CheckTCPHeader.simple_action spec_in_cksum spec_in_cksum_pseudohdr)
          [PacketAt 1000; PacketAt 2000; PacketAt 1000]
          (two_packet_stage false 2) with
  | Some (rs, s') =>
      _count (elt s') + _drops (elt s')
      = _count (elt (two_packet_stage false 2))
        + _drops (elt (two_packet_stage false 2)) + Z.of_nat 3
      /\ counters_ok (elt s')
      /\ length rs = 3%nat
  | None => False
  end.
Proof.
  destruct (process
              (CheckTCPHeader.simple_action spec_in_cksum spec_in_cksum_pseudohdr)
              [PacketAt 1000; PacketAt 2000; PacketAt 1000]
              (two_packet_stage false 2)) as [[rs s'] |] eqn:Hrun.
  - destruct (X19_counters_add_up spec_in_cksum spec_in_cksum_pseudohdr
                (CheckTCPHeader.simple_action spec_in_cksum spec_in_cksum_pseudohdr)
                [PacketAt 1000; PacketAt 2000; PacketAt 1000] rs
                (two_packet_stage false 2) s')
      as (Hsum & _ & _ & Hok & Hlen & _).
    + left. reflexivity.
    + apply configured_counters_ok.
    + vm_compute. reflexivity.
    + exact Hrun.
    + split; [exact Hsum |]. split; [exact Hok | exact Hlen].
  - vm_compute in Hrun. discriminate Hrun.
Defined.

Lemma X20_first_drop_only_witness :
  match process (CheckTCPHeader.simple_action spec_in_cksum spec_in_cksum_pseudohdr)
          [PacketAt 1000; PacketAt 2000; PacketAt 1000]
          (two_packet_stage false 2) with
  | Some (rs, s') =>
      exists msgs : list Chatter,
        chatter (env s') = chatter (env (two_packet_stage false 2)) ++ msgs
        /\ (0 < _drops (elt s') -> length msgs = 1%nat)
  | None => False
  end.
Proof.
  destruct (process
              (CheckTCPHeader.simple_action spec_in_cksum spec_in_cksum_pseudohdr)
              [PacketAt 1000; PacketAt 2000; PacketAt 1000]
              (two_packet_stage false 2)) as [[rs s'] |] eqn:Hrun.
  - destruct (X20_first_drop_only spec_in_cksum spec_in_cksum_pseudohdr
                (CheckTCPHeader.simple_action spec_in_cksum spec_in_cksum_pseudohdr)
                [PacketAt 1000; PacketAt 2000; PacketAt 1000] rs
                (two_packet_stage false 2) s')
      as (msgs & Hchat & _ & _ & Hfirst & _).
    + left. reflexivity.
    + apply configured_counters_ok.
    + vm_compute. reflexivity.
    + exact Hrun.
    + exists msgs. split; [exact Hchat |]. apply Hfirst; reflexivity.
  - vm_compute in Hrun. discriminate Hrun.
Defined.

Lemma X21_packets_conserved_witness :
  exists (rs : list PacketPtr) (s' : Stage) (new : list (Z * PacketPtr)),
    process (CheckTCPHeader.simple_action spec_in_cksum spec_in_cksum_pseudohdr)
      [PacketAt 1000; PacketAt 2000; PacketAt 1000] (two_packet_stage false 2)
    = Some (rs, s')
    /\ objs (env s') = objs (env (two_packet_stage false 2))
    /\ mem (env s') = mem (env (two_packet_stage false 2))
    /\ sent (env s') = sent (env (two_packet_stage false 2)) ++ new
    /\ Z.of_nat (length new)
       = _drops (elt s') - _drops (elt (two_packet_stage false 2))
    /\ Forall (fun x => fst x = 1
                        /\ In (snd x) [PacketAt 1000; PacketAt 2000; PacketAt 1000])
              new.
Proof.
  apply (X21_packets_conserved spec_in_cksum spec_in_cksum_pseudohdr
           (CheckTCPHeader.simple_action spec_in_cksum spec_in_cksum_pseudohdr)
           [PacketAt 1000; PacketAt 2000; PacketAt 1000]
           (two_packet_stage false 2)).
  - left. reflexivity.
  - apply configured_counters_ok.
  - vm_compute. reflexivity.
  - reflexivity.
  - repeat constructor; eexists; reflexivity.
Defined.

(** Three packets of the wrong protocol through a quiet element with two
    outputs: three drops under "not TCP", one diagnostic, three packets
    on output 1. *)
Example three_drops_one_diagnostic :
  match process (CheckTCPHeader.simple_action spec_in_cksum spec_in_cksum_pseudohdr)
          [PacketAt 1000; PacketAt 2000; PacketAt 1000]
          (two_packet_stage false 2) with
  | Some (rs, s') =>
      (rs, _count (elt s'), _drops (elt s'), _reason_drops (elt s'),
       length (chatter (env s')), sent (env s'))
      = ([NULL; NULL; NULL], 0, 3, Some [3; 0; 0], 1%nat,
         [(1, PacketAt 1000); (1, PacketAt 2000); (1, PacketAt 1000)])
  | None => False
  end.
Proof. vm_compute. reflexivity. Qed.

(** ** Handlers *)




(** The table that [drop_details] shows after three "not TCP" drops. *)
Example drop_details_after_three_drops :
  match process (CheckTCPHeader.simple_action spec_in_cksum spec_in_cksum_pseudohdr)
          [PacketAt 1000; PacketAt 2000; PacketAt 1000]
          (two_packet_stage false 2) with
  | Some (_, s') =>
      read_handler show_counter show_counter_15 show_text_24
        CheckTCPHeader.reason_texts (elt s') h_drop_details
      = Some ("              3 packets due to:                  not TCP" ++ newline
              ++ "              0 packets due to:        bad packet length" ++ newline
              ++ "              0 packets due to:         bad TCP checksum" ++ newline)%string
      /\ read_handler show_counter show_counter_15 show_text_24
           CheckTCPHeader.reason_texts (elt s') h_drops = Some "3"%string
  | None => False
  end.
Proof. vm_compute. split; reflexivity. Qed.
